(** * AmazonListGenie: the wishlist scraper and its export utilities

    A shallow embedding of [extension/src/contentScript.js] (the collector,
    the page classifier, the item locator and the field extractor) and of
    [utils.js] (identifier extraction and CSV export), followed by the
    properties of the specification that concern them.

    Conventions of the embedding.
    - A JavaScript string is a [string]: a sequence of code units, here the
      8-bit ones.  Every string operation of the sources acts code unit by
      code unit ([includes], [startsWith], [replace] of one character, the
      regular expressions over ASCII classes), so the operations are
      written out as recursive functions on [string].
    - [null] and [undefined] are [None]; a JavaScript value that is "a
      string or null" is an [option string], and [a || b] is [a ||| b].
    - The content tree is a finite tree of elements and text nodes.  An
      element reference is a node together with the chain of its ancestors,
      which is what [closest] and selector matching look at.
    - What the browser provides and the repository does not implement (the
      URL parser, the resolution of an anchor's [href], [JSON.parse], the
      number of arguments that a call takes) is a parameter of the
      development, the class [Platform]. *)

From Stdlib Require Import String Ascii List Bool Arith Lia DecimalString.
From stdpp Require Import gmap strings.
From Equations.Prop Require Import Equations.
Import ListNotations.

Local Open Scope bool_scope.
Set Warnings "-register-all,-clear-no-such-hyp".

(** ** JavaScript strings *)

Definition code (c : ascii) : nat := nat_of_ascii c.

Definition between (lo hi : nat) (c : ascii) : bool :=
  (lo <=? code c) && (code c <=? hi).

(** [\d] *)
Definition is_digit (c : ascii) : bool := between 48 57 c.
(** [A-Z] *)
Definition is_upper (c : ascii) : bool := between 65 90 c.
(** [a-z] *)
Definition is_lower (c : ascii) : bool := between 97 122 c.
(** [[A-Z0-9]] *)
Definition is_upper_alnum (c : ascii) : bool := is_upper c || is_digit c.
(** [[A-Z0-9]] under the [i] flag *)
Definition is_alnum (c : ascii) : bool := is_upper c || is_lower c || is_digit c.
(** [\w], the word characters that [\b] separates from the others *)
Definition is_word (c : ascii) : bool := is_alnum c || (code c =? 95).
(** the white space that [trim] removes and that separates class names *)
Definition is_space (c : ascii) : bool :=
  between 9 13 c || (code c =? 32) || (code c =? 160).
Definition is_class_space (c : ascii) : bool :=
  (code c =? 9) || (code c =? 10) || (code c =? 12) || (code c =? 13) || (code c =? 32).

Definition upper_char (c : ascii) : ascii :=
  if is_lower c then ascii_of_nat (code c - 32) else c.

(** [s.toUpperCase()].  Every call of the sources is on a string that a
    regular expression has just restricted to ASCII letters and digits. *)
Fixpoint toUpperCase (s : string) : string :=
  match s with
  | EmptyString => EmptyString
  | String c s' => String (upper_char c) (toUpperCase s')
  end.

Fixpoint forall_chars (p : ascii -> bool) (s : string) : bool :=
  match s with
  | EmptyString => true
  | String c s' => p c && forall_chars p s'
  end.

Fixpoint count_char (c : ascii) (s : string) : nat :=
  match s with
  | EmptyString => 0
  | String c' s' => (if Ascii.eqb c c' then 1 else 0) + count_char c s'
  end.

Definition has_char (c : ascii) (s : string) : bool := negb (count_char c s =? 0).

(** [s.startsWith(p)] *)
Definition startsWith (s p : string) : bool := String.prefix p s.

(** [startsWith] under the [i] flag, for a literal of a regular expression *)
Fixpoint startsWith_ci (s p : string) : bool :=
  match p, s with
  | EmptyString, _ => true
  | String _ _, EmptyString => false
  | String a p', String b s' => Ascii.eqb (upper_char a) (upper_char b) && startsWith_ci s' p'
  end.

(** [s.includes(needle)] *)
Fixpoint includes (s needle : string) : bool :=
  startsWith s needle ||
  match s with
  | EmptyString => false
  | String _ s' => includes s' needle
  end.

(** [/needle/i.test(s)] for a literal [needle] *)
Fixpoint includes_ci (s needle : string) : bool :=
  startsWith_ci s needle ||
  match s with
  | EmptyString => false
  | String _ s' => includes_ci s' needle
  end.

(** [s.replace(/c/g, by)] for a single character [c] *)
Fixpoint replace_char (c : ascii) (by_ : string) (s : string) : string :=
  match s with
  | EmptyString => EmptyString
  | String c' s' =>
      if Ascii.eqb c c' then by_ +:+ replace_char c by_ s'
      else String c' (replace_char c by_ s')
  end.

Fixpoint drop (n : nat) (s : string) : string :=
  match n, s with
  | 0, _ => s
  | S _, EmptyString => EmptyString
  | S n', String _ s' => drop n' s'
  end.

Fixpoint take (n : nat) (s : string) : string :=
  match n, s with
  | 0, _ => EmptyString
  | S _, EmptyString => EmptyString
  | S n', String c s' => String c (take n' s')
  end.

(** the longest prefix of [s] whose characters satisfy [p], and the rest *)
Fixpoint span (p : ascii -> bool) (s : string) : string * string :=
  match s with
  | EmptyString => (EmptyString, EmptyString)
  | String c s' =>
      if p c then let '(a, b) := span p s' in (String c a, b)
      else (EmptyString, s)
  end.

Fixpoint trimStart (s : string) : string :=
  match s with
  | EmptyString => EmptyString
  | String c s' => if is_space c then trimStart s' else s
  end.

Fixpoint trimEnd (s : string) : string :=
  match s with
  | EmptyString => EmptyString
  | String c s' =>
      match trimEnd s' with
      | EmptyString => if is_space c then EmptyString else String c EmptyString
      | t => String c t
      end
  end.

(** [s.trim()] *)
Definition trim (s : string) : string := trimEnd (trimStart s).

(** ** JavaScript values that are a string, [null] or [undefined] *)

Definition truthy (v : option string) : bool :=
  match v with
  | Some s => negb (String.eqb s EmptyString)
  | None => false
  end.

(** [a || b] *)
Definition js_or (a b : option string) : option string := if truthy a then a else b.
Infix "|||" := js_or (at level 50, left associativity).

(** the string a truthy value is *)
Definition str (v : option string) : string := default EmptyString v.

(** ** The content tree *)

Record start_tag := StartTag { tag : string; attrs : list (string * string) }.

Inductive node :=
| Elem (t : start_tag) (children : list node)
| Text (data : string).

(** An element reference: the element and its ancestors, the parent first.
    Element and attribute names are stored in lower case, as the HTML parser
    leaves them. *)
Record HTMLElement := Element {
  ancestors : list (start_tag * list node);
  start : start_tag;
  childNodes : list node
}.

Fixpoint assoc (k : string) (l : list (string * string)) : option string :=
  match l with
  | [] => None
  | (k', v) :: l' => if String.eqb k k' then Some v else assoc k l'
  end.

(** [e.getAttribute(name)], on a start tag and on an element *)
Definition attribute (name : string) (t : start_tag) : option string := assoc name (attrs t).
Definition getAttribute (name : string) (e : HTMLElement) : option string := attribute name (start e).

(** [e.tagName] *)
Definition tagName (e : HTMLElement) : string := toUpperCase (tag (start e)).

(** the text of a list of nodes, in tree order *)
Fixpoint text_of (n : node) : string :=
  match n with
  | Text s => s
  | Elem _ ks => fold_right (fun k acc => text_of k +:+ acc) EmptyString ks
  end.

(** [e.textContent] *)
Definition textContent (e : HTMLElement) : string :=
  fold_right (fun k acc => text_of k +:+ acc) EmptyString (childNodes e).

(** the element [n] (if it is one) followed by its descendant elements, in
    tree order, each with its ancestors *)
Fixpoint elements_of (anc : list (start_tag * list node)) (n : node) : list HTMLElement :=
  match n with
  | Text _ => []
  | Elem t ks => Element anc t ks :: flat_map (elements_of ((t, ks) :: anc)) ks
  end.

(** the descendant elements of [e], in tree order *)
Definition descendants (e : HTMLElement) : list HTMLElement :=
  flat_map (elements_of ((start e, childNodes e) :: ancestors e)) (childNodes e).

(** [e] and its ancestors as element references, [e] first *)
Fixpoint chain (t : start_tag) (ks : list node) (anc : list (start_tag * list node)) : list HTMLElement :=
  Element anc t ks ::
  match anc with
  | [] => []
  | (t', ks') :: anc' => chain t' ks' anc'
  end.

Definition inclusive_ancestors (e : HTMLElement) : list HTMLElement :=
  chain (start e) (childNodes e) (ancestors e).

(** ** Selectors *)

Inductive simple_selector :=
| Tag (name : string)                 (* li *)
| Id (id : string)                    (* #g-items *)
| Class (name : string)               (* .g-item-sortable *)
| HasAttr (name : string)             (* [data-asin] *)
| AttrEq (name value : string)        (* [data-action="sign-in"] *)
| AttrContains (name value : string)  (* [href*="/dp/"] *)
| Not (s : simple_selector).          (* :not(...) *)

(** a compound selector: all of its simple selectors hold of one element *)
Definition compound := list simple_selector.
(** a complex selector: compounds joined by the descendant combinator, the
    subject last, as written *)
Definition complex := list compound.
(** a selector list: complex selectors joined by commas *)
Definition selector := list complex.

(** the white-space separated tokens of a [class] attribute *)
Fixpoint tokens_from (cur : string) (s : string) : list string :=
  match s with
  | EmptyString => if String.eqb cur EmptyString then [] else [cur]
  | String c s' =>
      if is_class_space c
      then (if String.eqb cur EmptyString then tokens_from EmptyString s'
            else cur :: tokens_from EmptyString s')
      else tokens_from (cur +:+ String c EmptyString) s'
  end.

Definition classList (t : start_tag) : list string :=
  tokens_from EmptyString (str (attribute "class" t)).

Fixpoint matches_simple (s : simple_selector) (t : start_tag) : bool :=
  match s with
  | Tag n => String.eqb n (tag t)
  | Id i => match attribute "id" t with Some v => String.eqb v i | None => false end
  | Class c => existsb (String.eqb c) (classList t)
  | HasAttr a => match attribute a t with Some _ => true | None => false end
  | AttrEq a v => match attribute a t with Some w => String.eqb w v | None => false end
  | AttrContains a v =>
      match attribute a t with
      | Some w => negb (String.eqb v EmptyString) && includes w v
      | None => false
      end
  | Not s' => negb (matches_simple s' t)
  end.

Definition matches_compound (c : compound) (t : start_tag) : bool :=
  forallb (fun s => matches_simple s t) c.

(** the compounds [cs], the nearest first, each hold of some ancestor, in
    order going up *)
Fixpoint matches_up (cs : list compound) (anc : list (start_tag * list node)) : bool :=
  match cs with
  | [] => true
  | c :: cs' =>
      match anc with
      | [] => false
      | (t, _) :: anc' =>
          if matches_compound c t then matches_up cs' anc' else matches_up cs anc'
      end
  end.

Definition matches_complex (x : complex) (e : HTMLElement) : bool :=
  match rev x with
  | [] => false
  | subject :: above => matches_compound subject (start e) && matches_up above (ancestors e)
  end.

(** [e.matches(sel)] *)
Definition matches (sel : selector) (e : HTMLElement) : bool :=
  existsb (fun x => matches_complex x e) sel.

(** [e.querySelectorAll(sel)]: the descendants of [e] that match, in tree
    order *)
Definition querySelectorAll (sel : selector) (e : HTMLElement) : list HTMLElement :=
  List.filter (matches sel) (descendants e).

(** [e.querySelector(sel)] *)
Definition querySelector (sel : selector) (e : HTMLElement) : option HTMLElement :=
  head (querySelectorAll sel e).

(** [e.closest(sel)] *)
Definition closest (sel : selector) (e : HTMLElement) : option HTMLElement :=
  List.find (matches sel) (inclusive_ancestors e).

(** ** Documents *)

(** An HTML document: its address, and the [html], [head] and [body]
    elements that the HTML parser always builds. *)
Record document := Document {
  location_href : string;
  html_attrs : list (string * string);
  head_nodes : list node;
  body_attrs : list (string * string);
  body_nodes : list node
}.

Definition html_children (d : document) : list node :=
  [Elem (StartTag "head" []) (head_nodes d); Elem (StartTag "body" (body_attrs d)) (body_nodes d)].

Definition documentElement (d : document) : HTMLElement :=
  Element [] (StartTag "html" (html_attrs d)) (html_children d).

(** [document.body] *)
Definition document_body (d : document) : HTMLElement :=
  Element [(StartTag "html" (html_attrs d), html_children d)]
          (StartTag "body" (body_attrs d)) (body_nodes d).

(** [document.querySelectorAll(sel)]: every element of the document *)
Definition document_querySelectorAll (sel : selector) (d : document) : list HTMLElement :=
  List.filter (matches sel) (documentElement d :: descendants (documentElement d)).

Definition document_querySelector (sel : selector) (d : document) : option HTMLElement :=
  head (document_querySelectorAll sel d).

(** [e.innerHTML]: the HTML fragment serialization of the children of [e] *)
Definition void_elements : list string :=
  ["area"; "base"; "br"; "col"; "embed"; "hr"; "img"; "input"; "link"; "meta";
   "source"; "track"; "wbr"].
Definition raw_text_elements : list string :=
  ["style"; "script"; "xmp"; "iframe"; "noembed"; "noframes"; "plaintext"; "noscript"].

Fixpoint escape_html (attribute_mode : bool) (s : string) : string :=
  match s with
  | EmptyString => EmptyString
  | String c s' =>
      (if code c =? 38 then "&amp;"
       else if code c =? 160 then "&nbsp;"
       else if code c =? 60 then "&lt;"
       else if code c =? 62 then "&gt;"
       else if attribute_mode && (code c =? 34) then "&quot;"
       else String c EmptyString) +:+ escape_html attribute_mode s'
  end.

Definition dquote : ascii := "034"%char.

Definition serialize_attrs (l : list (string * string)) : string :=
  fold_right (fun '(k, v) acc => " " +:+ k +:+ "=" +:+ String dquote (escape_html true v)
                                     +:+ String dquote acc) EmptyString l.

Fixpoint serialize (parent : string) (n : node) : string :=
  match n with
  | Text s => if existsb (String.eqb parent) raw_text_elements then s else escape_html false s
  | Elem t ks =>
      "<" +:+ tag t +:+ serialize_attrs (attrs t) +:+ ">" +:+
      (if existsb (String.eqb (tag t)) void_elements then EmptyString
       else fold_right (fun k acc => serialize (tag t) k +:+ acc) EmptyString ks
            +:+ "</" +:+ tag t +:+ ">")
  end.

Definition innerHTML (e : HTMLElement) : string :=
  fold_right (fun k acc => serialize (tag (start e)) k +:+ acc) EmptyString (childNodes e).

(** ** What the browser provides *)

(** the two components of a parsed URL that the sources read *)
Record URL := MkURL { origin : string; pathname : string }.

Class Platform := {
  (** [new URL(s)]; [None] when the constructor throws *)
  URL_parse : string -> option URL;
  (** the value of a URL-reflecting property ([a.href], [img.src]) of an
      element whose content attribute is the given string: the attribute
      resolved against the document, or the attribute itself when it does not
      resolve *)
  reflect_url : string -> string;
  (** the [href] property of a [base] element whose [href] attribute is the
      given string, the empty string standing for an absent attribute: the
      attribute resolved against the fallback base URL of the document (for
      the empty string, the address of the document), or the attribute itself
      when it does not resolve *)
  base_href : string -> string;
  (** [Object.keys(JSON.parse(s))]; [None] when either throws *)
  JSON_keys : string -> option (list string);
  (** the number of arguments that a call takes: a call that spreads an
      array of more elements throws a [RangeError] *)
  max_arguments : N
}.

(** the first result of a [for ... of] loop whose body may [return] *)
Fixpoint first_some {A B : Type} (f : A -> option B) (l : list A) : option B :=
  match l with
  | [] => None
  | a :: l' => match f a with Some b => Some b | None => first_some f l' end
  end.

Definition nonempty {A : Type} (l : list A) : bool :=
  match l with [] => false | _ :: _ => true end.

(** * contentScript.js *)

(** ** The item locator *)

Definition sel_main_container : selector :=        (* '#g-items li[data-item-id], #g-items [data-item-id]' *)
  [ [[Id "g-items"]; [Tag "li"; HasAttr "data-item-id"]];
    [[Id "g-items"]; [HasAttr "data-item-id"]] ].
Definition sel_alternative_container : selector := (* '[id*="item"] [data-item-id], [id*="item"] [data-asin]' *)
  [ [[AttrContains "id" "item"]; [HasAttr "data-item-id"]];
    [[AttrContains "id" "item"]; [HasAttr "data-asin"]] ].
Definition sel_grid_items : selector :=            (* '.a-unordered-list.a-nostyle.a-vertical li, .g-item-sortable' *)
  [ [[Class "a-unordered-list"; Class "a-nostyle"; Class "a-vertical"]; [Tag "li"]];
    [[Class "g-item-sortable"]] ].
Definition sel_product_cards : selector :=         (* '[data-asin]:not([data-asin=])', the excluded value being the empty string *)
  [ [[HasAttr "data-asin"; Not (AttrEq "data-asin" EmptyString)]] ].

(** the four strategies, in the order in which they are tried *)
Definition strategies : list selector :=
  [sel_main_container; sel_alternative_container; sel_grid_items; sel_product_cards].

Definition findWishlistItems (d : document) : list HTMLElement :=
  (* Strategy 1: Main wishlist container (#g-items) *)
  let items := document_querySelectorAll sel_main_container d in
  if 0 <? length items then items else
  (* Strategy 2: Alternative container structure *)
  let items := document_querySelectorAll sel_alternative_container d in
  if 0 <? length items then items else
  (* Strategy 3: Grid items *)
  let items := document_querySelectorAll sel_grid_items d in
  if 0 <? length items then items else
  (* Strategy 4: Generic product cards *)
  let items := document_querySelectorAll sel_product_cards d in
  if 0 <? length items then items else
  [].

(** ** The page classifier *)

Definition sel_wishlist_structure : selector :=    (* '#g-items, [data-wishlist], .a-unordered-list.a-nostyle.a-vertical' *)
  [ [[Id "g-items"]]; [[HasAttr "data-wishlist"]];
    [[Class "a-unordered-list"; Class "a-nostyle"; Class "a-vertical"]] ].

Definition isWishlistPage (d : document) : bool :=
  let url := location_href d in
  let hasWishlistInUrl := includes_ci url "wishlist" in
  let hasWishlistElements := document_querySelector sel_wishlist_structure d in
  hasWishlistInUrl || nonempty (option_list hasWishlistElements).

Definition privateIndicators : list string :=
  [ "This list is private";
    "This list is not available";
    "You don't have permission";
    "This list doesn't exist";
    "We're sorry. The Web address you entered is not a functioning page";
    "Sorry, we couldn't find that list" ].

Definition sel_sign_in_prompts : selector :=       (* '[data-action="sign-in"], .a-alert-error' *)
  [ [[AttrEq "data-action" "sign-in"]]; [[Class "a-alert-error"]] ].

Definition isPrivateWishlist (d : document) : bool :=
  let testItems := findWishlistItems d in
  if 0 <? length testItems then false else
  let bodyText := textContent (document_body d) in
  let pageHTML := innerHTML (document_body d) in
  if existsb (fun indicator =>
       (includes bodyText indicator || includes pageHTML indicator) &&
       (let hasWishlistStructure := document_querySelector sel_wishlist_structure d in
        negb (nonempty (option_list hasWishlistStructure))))
     privateIndicators
  then true else
  let signInPrompts := document_querySelectorAll sel_sign_in_prompts d in
  if existsb (fun prompt =>
       let promptText := textContent prompt in
       includes promptText "view this list" ||
       includes promptText "access this list" ||
       includes promptText "private list")
     signInPrompts
  then true else
  false.

(** ** The field extractor *)

(** [/^[A-Z0-9]{10}$/i.test(s)] *)
Definition is_asin (s : string) : bool :=
  (String.length s =? 10) && forall_chars is_alnum s.

(** [[/?#]] *)
Definition is_path_end (c : ascii) : bool :=
  (code c =? 47) || (code c =? 63) || (code c =? 35).

(** [([A-Z0-9]{10})(?:[/?#]|$)] under the [i] flag, anchored at the start of
    [s]: the ten characters captured *)
Definition asin_then (delimiter : ascii -> bool) (s : string) : option string :=
  let token := take 10 s in
  if is_asin token then
    match drop 10 s with
    | EmptyString => Some token
    | String c _ => if delimiter c then Some token else None
    end
  else None.

(** [\/(?:dp|gp\/product)\/([A-Z0-9]{10})(?:[/?#]|$)] under the [i] flag,
    anchored at the start of [s] *)
Definition dp_here (s : string) : option string :=
  if startsWith_ci s "/dp/" then asin_then is_path_end (drop 4 s)
  else if startsWith_ci s "/gp/product/" then asin_then is_path_end (drop 12 s)
  else None.

(** the first capture of the leftmost match of a pattern that is given by
    its matcher at a position *)
Fixpoint leftmost (here : string -> option string) (s : string) : option string :=
  match here s with
  | Some m => Some m
  | None =>
      match s with
      | EmptyString => None
      | String _ s' => leftmost here s'
      end
  end.

(** [href.match(/\/(?:dp|gp\/product)\/([A-Z0-9]{10})(?:[/?#]|$)/i)], the
    capture [match[1]] *)
Definition match_dp (href : string) : option string := leftmost dp_here href.

Definition sel_product_link : selector :=          (* 'a[href*="/dp/"], a[href*="/gp/product/"]' *)
  [ [[Tag "a"; AttrContains "href" "/dp/"]]; [[Tag "a"; AttrContains "href" "/gp/product/"]] ].
Definition sel_data_asin : selector :=             (* '[data-asin]' *)
  [ [[HasAttr "data-asin"]] ].
Definition sel_asin_element : selector :=          (* '[data-asin], [href*="/dp/"], [href*="/gp/product/"]' *)
  [ [[HasAttr "data-asin"]]; [[AttrContains "href" "/dp/"]]; [[AttrContains "href" "/gp/product/"]] ].

(** [[\d,]] *)
Definition is_digit_or_comma (c : ascii) : bool := is_digit c || (code c =? 44).

(** [([\d,]+\.?\d* )] anchored at the start of [s] *)
Definition price_group (s : string) : option string :=
  let '(whole, rest) := span is_digit_or_comma s in
  if String.eqb whole EmptyString then None else
  match rest with
  | String "."%char rest' => Some (whole +:+ "." +:+ fst (span is_digit rest'))
  | _ => Some (whole +:+ fst (span is_digit rest))
  end.

(** [\d{2}] anchored at the start of [s] *)
Definition two_digits (s : string) : option string :=
  match s with
  | String a (String b _) =>
      if is_digit a && is_digit b then Some (String a (String b EmptyString)) else None
  | _ => None
  end.

(** [\.?\d{2}] anchored at the start of [s] *)
Definition cents (s : string) : option string :=
  match s with
  | String "."%char s' =>
      match two_digits s' with
      | Some d => Some (String "."%char d)
      | None => two_digits s
      end
  | _ => two_digits s
  end.

(** [([\d,]+\.?\d{2})] anchored at the start of [s]: the longest run of
    digits and commas first, then the shorter ones *)
Fixpoint price_group2 (s : string) : option string :=
  match s with
  | EmptyString => None
  | String c s' =>
      if is_digit_or_comma c then
        match price_group2 s' with
        | Some m => Some (String c m)
        | None => match cents s' with Some m => Some (String c m) | None => None end
        end
      else None
  end.

(** [[\$]?group] anchored at the start of [s] *)
Definition dollar_then (group : string -> option string) (s : string) : option string :=
  match s with
  | String "$"%char s' => match group s' with Some m => Some m | None => group s end
  | _ => group s
  end.

(** [text.match(/[\$]?([\d,]+\.?\d* )/)], the capture *)
Definition match_price (text : string) : option string := leftmost (dollar_then price_group) text.
(** [text.match(/[\$]?([\d,]+\.?\d{2})/)], the capture *)
Definition match_price2 (text : string) : option string := leftmost (dollar_then price_group2) text.

Definition formatPrice (price : string) : string :=
  if String.eqb price EmptyString then EmptyString else
  (* Remove commas and ensure proper format *)
  let cleaned := replace_char ","%char EmptyString price in
  if includes cleaned "$" then cleaned else
  "$" +:+ cleaned.

(** a wishlist record *)
Record item := Item {
  name : string;
  asin : string;
  price : string;
  url : string;
  image : string
}.

Definition site_origin : string := "https://www.amazon.com".

(** the rewriting of scheme-relative and root-relative image addresses *)
Definition absolute_image (imageUrl : string) : string :=
  if startsWith imageUrl "//" then "https:" +:+ imageUrl
  else if startsWith imageUrl "/" then site_origin +:+ imageUrl
  else imageUrl.

Section Extractor.
Context {P : Platform}.

(** the [href] and [src] properties of an anchor and of an image *)
Definition reflected (attr : string) (e : HTMLElement) : option string :=
  match getAttribute attr e with
  | Some v => Some (reflect_url v)
  | None => Some EmptyString
  end.

(** [element.querySelector('a[href*="/dp/"], a[href*="/gp/product/"]') ||
    (element.tagName === 'A' ? element : null)] *)
Definition product_link (element : HTMLElement) : option HTMLElement :=
  match querySelector sel_product_link element with
  | Some link => Some link
  | None => if String.eqb (tagName element) "A" then Some element else None
  end.

Definition extractASINFromElement (element : HTMLElement) : string :=
  (* Try data-asin attribute *)
  let asin := getAttribute "data-asin" element |||
              getAttribute "data-item-id" element |||
              (closest sel_data_asin element ≫= getAttribute "data-asin") in
  if truthy asin && is_asin (str asin) then toUpperCase (str asin) else
  (* Try extracting from href *)
  match product_link element with
  | Some link =>
      let href := reflected "href" link ||| getAttribute "href" link in
      if truthy href then
        match match_dp (str href) with
        | Some m => toUpperCase m
        | None => EmptyString
        end
      else EmptyString
  | None => EmptyString
  end.

Definition titleSelectors : list selector :=
  [ [[[Tag "h2"]; [Tag "a"]; [Tag "span"]]];       (* 'h2 a span' *)
    [[[Tag "h3"]; [Tag "a"]; [Tag "span"]]];       (* 'h3 a span' *)
    [[[AttrContains "id" "itemName"]]];            (* '[id*="itemName"]' *)
    [[[Class "a-text-normal"]]];                   (* '.a-text-normal' *)
    [[[Tag "a"; AttrContains "id" "itemName"]]];   (* 'a[id*="itemName"]' *)
    [[[Class "a-link-normal"]]];                   (* '.a-link-normal' *)
    [[[Tag "h2"]]];                                (* 'h2' *)
    [[[Tag "h3"]]] ].                              (* 'h3' *)

Definition extractItemName (element : HTMLElement) : string :=
  match first_some (fun selector =>
          match querySelector selector element with
          | Some titleEl =>
              let text := trim (textContent titleEl) in
              if 0 <? String.length text then Some text else None
          | None => None
          end) titleSelectors with
  | Some text => text
  | None =>
      (* Fallback: get first significant text *)
      let allText := trim (textContent element) in
      if 50 <? String.length allText then trim (take 200 allText) else EmptyString
  end.

Definition priceSelectors : list selector :=
  [ [[[Class "a-price"]; [Class "a-offscreen"]]];  (* '.a-price .a-offscreen' *)
    [[[Class "a-price-whole"]]];                   (* '.a-price-whole' *)
    [[[AttrContains "class" "price"]]];            (* '[class*="price"]' *)
    [[[Class "a-color-price"]]];                   (* '.a-color-price' *)
    [[[HasAttr "data-price"]]] ].                  (* '[data-price]' *)

(** what one matching price element makes [extractItemPrice] return, if
    anything *)
Definition price_of (priceEl : HTMLElement) : option string :=
  (* Try data-price attribute first *)
  let dataPrice := getAttribute "data-price" priceEl in
  if truthy dataPrice then Some (formatPrice (str dataPrice)) else
  (* Try text content *)
  let priceText := trim (textContent priceEl) in
  if 0 <? String.length priceText then
    match match_price priceText with
    | Some m => Some (formatPrice m)
    | None => Some priceText
    end
  else None.

Definition extractItemPrice (element : HTMLElement) : string :=
  match first_some (fun selector =>
          match querySelector selector element with
          | Some priceEl => price_of priceEl
          | None => None
          end) priceSelectors with
  | Some price => price
  | None =>
      (* Fallback: search entire element text for price pattern *)
      let elementText := textContent element in
      match match_price2 elementText with
      | Some m => formatPrice m
      | None => EmptyString
      end
  end.

(** a root-relative address, made absolute *)
Definition absolute_href (href : string) : string :=
  if startsWith href "/" then site_origin +:+ href else href.

(** the clean-up of a link's address: the part of [extractItemUrl] after the
    link is found *)
Definition cleanUrl (href : string) : string :=
  (* Convert relative URLs to absolute *)
  let href := absolute_href href in
  (* Clean up URL (remove tracking parameters) *)
  match URL_parse href with
  | Some url => origin url +:+ pathname url
  | None => href
  end.

Definition extractItemUrl (element : HTMLElement) : string :=
  match product_link element with
  | Some link =>
      let href := reflected "href" link ||| getAttribute "href" link in
      if truthy href then cleanUrl (str href) else EmptyString
  | None => EmptyString
  end.

Definition imageSelectors : list selector :=
  [ [[[Tag "img"; HasAttr "data-a-dynamic-image"]]];      (* 'img[data-a-dynamic-image]' *)
    [[[Tag "img"; HasAttr "data-src"]]];                  (* 'img[data-src]' *)
    [[[Tag "img"; Class "a-dynamic-image"]]];             (* 'img.a-dynamic-image' *)
    [[[Class "a-dynamic-image"]; [Tag "img"]]];           (* '.a-dynamic-image img' *)
    [[[HasAttr "data-image-latency"]; [Tag "img"]]];      (* '[data-image-latency] img' *)
    [[[Tag "img"; HasAttr "src"]]] ].                     (* 'img[src]' *)

Definition is_placeholder (imageUrl : string) : bool :=
  includes imageUrl "pixel" || includes imageUrl "placeholder" || includes imageUrl "data:image".

(** what one matching image makes [extractItemImage] return; [None] when the
    loop goes on to the next selector *)
Definition image_of (img : HTMLElement) : option string :=
  (* Check for data-a-dynamic-image first (Amazon's JSON image object) *)
  let dynamicImageAttr := getAttribute "data-a-dynamic-image" img in
  match (if truthy dynamicImageAttr
         then match JSON_keys (str dynamicImageAttr) with
              | Some imageUrls =>
                  if 0 <? length imageUrls
                  then Some (absolute_image (List.last imageUrls EmptyString))
                  else None
              | None => None   (* Not valid JSON, continue to other methods *)
              end
         else None) with
  | Some imageUrl => Some imageUrl
  | None =>
      (* Try data-src (lazy loading) *)
      let imageUrl := getAttribute "data-src" img in
      if truthy imageUrl then Some (absolute_image (str imageUrl)) else
      (* Try src attribute *)
      let imageUrl := getAttribute "src" img ||| reflected "src" img in
      if truthy imageUrl then
        (* Skip placeholder images *)
        if is_placeholder (str imageUrl) then None
        else Some (absolute_image (str imageUrl))
      else None
  end.

Definition extractItemImage (element : HTMLElement) : string :=
  match first_some (fun selector =>
          match querySelector selector element with
          | Some img => image_of img
          | None => None
          end) imageSelectors with
  | Some imageUrl => imageUrl
  | None =>
      (* Fallback: look for any img tag *)
      match querySelector [[[Tag "img"]]] element with
      | Some anyImg =>
          let imageUrl := reflected "src" anyImg ||| getAttribute "src" anyImg in
          if truthy imageUrl && negb (includes (str imageUrl) "pixel")
             && negb (includes (str imageUrl) "placeholder")
          then absolute_image (str imageUrl)
          else EmptyString
      | None => EmptyString
      end
  end.

(** [a || b] on strings *)
Definition or_default (a b : string) : string := str (Some a ||| Some b).

Definition extractItemData (element : HTMLElement) : option item :=
  (* Extract ASIN *)
  let asin := extractASINFromElement element in
  let asin :=
    if truthy (Some asin) then asin else
    (* Try to find ASIN in child elements *)
    match querySelector sel_asin_element element with
    | Some asinElement => extractASINFromElement asinElement
    | None => asin
    end in
  if negb (truthy (Some asin)) then None (* Can't extract without ASIN *) else
  let name := extractItemName element in
  let price := extractItemPrice element in
  let url := extractItemUrl element in
  let image := extractItemImage element in
  Some {| name := or_default name "Unknown Item";
          asin := asin;
          price := or_default price "N/A";
          url := or_default url ("https://www.amazon.com/dp/" +:+ asin);
          image := or_default image EmptyString |}.

(** ** The collector *)

(** the body of [itemElements.forEach], on the records gathered so far in
    this pass and the set [seenIds].  No step of [extractItemData] can throw
    on an element, so the [try] always completes. *)
Definition forEach_body (acc : list item * gset string) (element : HTMLElement)
  : list item * gset string :=
  let '(newItems, seenIds) := acc in
  match extractItemData element with
  | Some item =>
      if truthy (Some (asin item)) && negb (bool_decide (asin item ∈ seenIds))
      then (newItems ++ [item], {[asin item]} ∪ seenIds)
      else (newItems, seenIds)
  | None => (newItems, seenIds)
  end.

(** [extractItems()], the closure of [scrapeWishlist], on the tree [d] and
    with the set [seenIds] that it reads and updates: the new records, in
    node order, and the set afterwards *)
Definition extractItems (d : document) (seenIds : gset string) : list item * gset string :=
  let itemElements := findWishlistItems d in
  fold_left forEach_body itemElements ([], seenIds).

Definition maxScrollAttempts : nat := 10.

(** The state of one collection run.  [scrolls] counts the calls of
    [window.scrollTo]: the tree that the run sees after [k] of them, each
    followed by its wait, is [pages k]. *)
Record run := Run {
  items : list item;
  seenIds : gset string;
  previousItemCount : nat;
  scrollAttempts : nat;
  scrolls : nat
}.

(** the message of the [RangeError] that Chrome's engine, in which the
    extension runs, throws when the arguments of a call do not fit on its
    stack *)
Definition RangeErrorMessage : string := "Maximum call stack size exceeded".

(** [items.push(...newItems)]: the array afterwards, or [None] when the call
    throws, which leaves [items] as it was *)
Definition push_spread (items newItems : list item) : option (list item) :=
  if (N.of_nat (length newItems) <=? max_arguments)%N then Some (items ++ newItems) else None.

(** how one pass through the body of the [while] loop ends: the loop goes
    on, the [break] is taken, or an exception leaves the loop *)
Inductive flow :=
| Next
| Break
| Raise (message : string).

(** one pass through the body of the [while] loop *)
Definition loop_body (pages : nat -> document) (st : run) : run * flow :=
  let previousItemCount := length (items st) in
  (* Scroll to bottom, wait for new content to load *)
  let scrolls := S (scrolls st) in
  (* Extract new items *)
  let '(newItems, seenIds) := extractItems (pages scrolls) (seenIds st) in
  match push_spread (items st) newItems with
  | None =>
      (Run (items st) seenIds previousItemCount (scrollAttempts st) scrolls,
       Raise RangeErrorMessage)
  | Some items =>
      (* If no new items found, we're done *)
      if length items =? previousItemCount
      then (Run items seenIds previousItemCount (scrollAttempts st) scrolls, Break)
      else (Run items seenIds previousItemCount (S (scrollAttempts st)) scrolls, Next)
  end.

Definition inspect {A : Type} (x : A) : {y : A | x = y} := exist _ x eq_refl.

(** [while (scrollAttempts < maxScrollAttempts) { ... }]: the state in which
    the loop is left, and the message of the exception that leaves it, if
    one does *)
Equations? scroll_loop (pages : nat -> document) (st : run) : run * option string
  by wf (maxScrollAttempts - scrollAttempts st) lt :=
scroll_loop pages st with inspect (scrollAttempts st <? maxScrollAttempts) := {
  | exist _ true Hcond with inspect (loop_body pages st) := {
      | exist _ (pair st' Next) Hbody => scroll_loop pages st'
      | exist _ (pair st' Break) Hbody => (st', None)
      | exist _ (pair st' (Raise message)) Hbody => (st', Some message) }
  | exist _ false Hcond => (st, None) }.
Proof.
  apply Nat.ltb_lt in Hcond. unfold loop_body in Hbody.
  destruct (extractItems _ _) as [newItems seen'].
  unfold maxScrollAttempts in *.
  destruct (push_spread _ _); [|discriminate].
  destruct (_ =? _); inversion Hbody; subst; simpl; lia.
Qed.

(** how a call of [scrapeWishlist] completes *)
Inductive completion :=
| Return (items : list item)
| Throw (message : string).

Definition NotAWishlistPage : string := "Not on an Amazon wishlist page".
Definition PrivateOrInaccessible : string := "This wishlist is private and cannot be scraped".
Definition NoItemsFound : string := "No wishlist items found. The page structure may have changed.".

(** [scrapeWishlist()] on the trees [pages]: how it completes, and the
    number of times it has scrolled.  The [catch] of the function throws
    again what it has caught. *)
Definition scrapeWishlist (pages : nat -> document) : completion * nat :=
  (* Check if we're on a wishlist page *)
  if negb (isWishlistPage (pages 0)) then (Throw NotAWishlistPage, 0) else
  (* Check for private wishlist *)
  if isPrivateWishlist (pages 0) then (Throw PrivateOrInaccessible, 0) else
  (* Initial extraction *)
  let '(newItems, seenIds) := extractItems (pages 0) ∅ in
  match push_spread [] newItems with
  | None => (Throw RangeErrorMessage, 0)
  | Some first =>
      (* Handle lazy loading by scrolling *)
      let '(st, raised) := scroll_loop pages (Run first seenIds 0 0 0) in
      match raised with
      | Some message => (Throw message, scrolls st)
      | None =>
          if length (items st) =? 0 then (Throw NoItemsFound, scrolls st)
          else (Return (items st), scrolls st)
      end
  end.

End Extractor.

(** * utils.js *)

(** [[?&]asin=([A-Z0-9]{10})(?:&|$)] under the [i] flag, anchored at the
    start of [s] *)
Definition asin_param_here (s : string) : option string :=
  match s with
  | String c s' =>
      if ((code c =? 63) || (code c =? 38)) && startsWith_ci s' "asin="
      then asin_then (fun c => code c =? 38) (drop 5 s')
      else None
  | EmptyString => None
  end.

(** [url.match(/[?&]asin=([A-Z0-9]{10})(?:&|$)/i)], the capture *)
Definition match_asin_param (url : string) : option string := leftmost asin_param_here url.

(** [\b([A-Z0-9]{10})\b] anchored at the start of [s], where [after_word]
    tells whether the character before is a word character *)
Definition token_here (after_word : bool) (s : string) : option string :=
  let token := take 10 s in
  if negb after_word && (String.length token =? 10) && forall_chars is_upper_alnum token then
    match drop 10 s with
    | EmptyString => Some token
    | String c _ => if is_word c then None else Some token
    end
  else None.

Fixpoint match_token_from (after_word : bool) (s : string) : option string :=
  match token_here after_word s with
  | Some m => Some m
  | None =>
      match s with
      | EmptyString => None
      | String c s' => match_token_from (is_word c) s'
      end
  end.

(** [url.match(/\b([A-Z0-9]{10})\b/)], the capture *)
Definition match_token (url : string) : option string := match_token_from false url.

(** [/^[B0-9A]/.test(s)] *)
Definition looks_like_asin (s : string) : bool :=
  match s with
  | String c _ => (code c =? 66) || is_digit c || (code c =? 65)
  | EmptyString => false
  end.

Section Utils.
Context {P : Platform}.

(** [input.href], which only the elements that link somewhere have: [a],
    [area] and [link], whose property is empty without the attribute, and
    [base], whose property is then the address of the document *)
Definition href_property (input : HTMLElement) : option string :=
  if existsb (String.eqb (tag (start input))) ["a"; "area"; "link"]
  then reflected "href" input
  else if String.eqb (tag (start input)) "base"
  then Some (base_href (str (getAttribute "href" input)))
  else None.

(** the part of [extractASIN] that reads a URL *)
Definition extractASIN_url (url : string) : string :=
  if negb (truthy (Some url)) then EmptyString else
  (* Pattern 1: /dp/ASIN/ or /gp/product/ASIN/ *)
  match match_dp url with
  | Some m => toUpperCase m
  | None =>
  (* Pattern 2: ?asin=ASIN or &asin=ASIN *)
  match match_asin_param url with
  | Some m => toUpperCase m
  | None =>
  (* Pattern 3: ASIN in URL path *)
  match match_token url with
  | Some m =>
      if (String.length m =? 10) && looks_like_asin m then toUpperCase m else EmptyString
  | None => EmptyString
  end end end.

(** [extractASIN(input)], for an element or for anything else, which
    [String(input)] turns into a string *)
Definition extractASIN (input : HTMLElement + string) : string :=
  match input with
  | inl input =>
      (* Try href attribute first *)
      let url := href_property input ||| getAttribute "href" input ||| Some EmptyString in
      (* Try data-asin attribute *)
      let asin :=
        if negb (truthy url)
        then getAttribute "data-asin" input |||
             getAttribute "data-item-id" input |||
             (closest sel_data_asin input ≫= getAttribute "data-asin")
        else None in
      if truthy asin then str asin else
      (* Try finding ASIN in parent elements *)
      let asin := closest sel_data_asin input ≫= getAttribute "data-asin" in
      if truthy asin then str asin else
      extractASIN_url (str url)
  | inr input => extractASIN_url input
  end.

End Utils.

(** [escapeCSVField(field)] *)
Definition escapeCSVField (field : option string) : string :=
  match field with
  | None => EmptyString
  | Some str =>
      (* If field contains comma, quote, or newline, wrap in quotes and escape quotes *)
      if includes str "," || includes str (String dquote EmptyString) || includes str (String "010"%char EmptyString)
      then String dquote (replace_char dquote (String dquote (String dquote EmptyString)) str)
           +:+ String dquote EmptyString
      else str
  end.

Definition headers : list string := ["Item Name"; "ASIN"; "Price"; "URL"; "Image URL"].

Definition newline : string := String "010"%char EmptyString.

(** one row of the CSV file *)
Definition csv_row (item : item) : string :=
  let name := escapeCSVField (Some (name item) ||| Some EmptyString) in
  let asin := escapeCSVField (Some (asin item) ||| Some EmptyString) in
  let price := escapeCSVField (Some (price item) ||| Some EmptyString) in
  let url := escapeCSVField (Some (url item) ||| Some EmptyString) in
  let image := escapeCSVField (Some (image item) ||| Some EmptyString) in
  name +:+ "," +:+ asin +:+ "," +:+ price +:+ "," +:+ url +:+ "," +:+ image.

(** [csvContent] *)
Definition csvContent (items : list item) : string :=
  let rows := map csv_row items in
  String.concat newline (String.concat "," headers :: rows).

(** what [exportToCSV] does: a notice, or the download of a file *)
Inductive export_effect :=
| Alert (message : string)
| Download (mime filename content : string).

(** [exportToCSV(items)] on the day [today], which
    [new Date().toISOString().split('T')[0]] reads *)
Definition exportToCSV (today : string) (items : list item) : export_effect :=
  if length items =? 0 then Alert "No items to export" else
  Download "text/csv;charset=utf-8;" ("amazon-wishlist-" +:+ today +:+ ".csv") (csvContent items).

(** * contentScript.js: the message listener *)

(** the response that a listener sends: [{ success: true, items }] or
    [{ success: false, error }] *)
Inductive response :=
| Success (items : list item)
| Failure (error : string).

Definition scrapeAction : string := "scrapeWishlist".

Section ContentListener.
Context {P : Platform}.

(** the listener of the content script on a message with the given
    [action], the page showing the trees [pages]: the response it sends, or
    [None] when it sends none and returns [false] *)
Definition content_onMessage (action : string) (pages : nat -> document) : option response :=
  if String.eqb action scrapeAction then
    match fst (scrapeWishlist pages) with
    | Return items => Some (Success items)
    | Throw message => Some (Failure (or_default message "Unknown error occurred"))
    end
  else None.

End ContentListener.

(** the window of the page, as far as the script's guard reads and writes
    it: the flag [__amazonWishlistScraperLoaded] and the listeners added *)
Record window_state := Window { scraperLoaded : bool; listeners : nat }.

(** running the content script once more in the page *)
Definition run_content_script (w : window_state) : window_state :=
  if negb (scraperLoaded w) then Window true (S (listeners w)) else w.

(** * background.js *)

(** what a call of [chrome.tabs.sendMessage] ends with: [chrome.runtime.lastError]
    set, with its message, or a response, which may be missing *)
Inductive send_result :=
| LastError (message : string)
| Responded (response : option response).

(** The tab as the background script meets it: how its [k]-th message ends,
    and the error of [chrome.scripting.executeScript], if any. *)
Record tab_env := TabEnv {
  send : nat -> send_result;
  inject : option string
}.

(** what the background script does to the tab, in order *)
Inductive event :=
| SendMessage
| ExecuteScript
| SetTimeout (ms : nat).

(** [response || { success: false, error: 'No response from content script' }] *)
Definition response_or_default (r : option response) : response :=
  match r with
  | Some r => r
  | None => Failure "No response from content script"
  end.

(** the events [first], then what [rest] does *)
Definition after (first : list event) (rest : response * list event) : response * list event :=
  (fst rest, first ++ snd rest).

(** [attemptMessage(attempt)], of [injectAndScrape]: the response that the
    promise resolves with, and the events on the way.  The message of attempt
    [attempt] is the tab's message number [attempt + 1]. *)
Equations? attemptMessage (env : tab_env) (retries attempt : nat) : response * list event
  by wf (retries - attempt) lt :=
attemptMessage env retries attempt with inspect (send env (S attempt)) := {
  | exist _ (LastError message) Hsend with inspect (attempt <? retries) := {
      | exist _ true Hretry =>
          (* Retry if failed *)
          after [SetTimeout (if attempt =? 0 then 200 else 100); SendMessage]
                (attemptMessage env retries (S attempt))
      | exist _ false Hretry =>
          (Failure ("Failed to communicate with content script: " +:+ message),
           [SetTimeout (if attempt =? 0 then 200 else 100); SendMessage]) }
  | exist _ (Responded response) Hsend =>
      (response_or_default response,
       [SetTimeout (if attempt =? 0 then 200 else 100); SendMessage]) }.
Proof. apply Nat.ltb_lt in Hretry. lia. Qed.

(** [injectAndScrape(tabId, retries)] *)
Definition injectAndScrape (env : tab_env) (retries : nat) : response * list event :=
  (* Try to send message first (content script might already be loaded) *)
  match send env 0 with
  | Responded response => (response_or_default response, [SendMessage])
  | LastError _ =>
      (* Content script not loaded, inject it *)
      match inject env with
      | Some message =>
          (Failure ("Failed to inject content script: " +:+ message),
           [SendMessage; ExecuteScript])
      | None =>
          (* Wait for script to initialize, then send message with retry *)
          after [SendMessage; ExecuteScript] (attemptMessage env retries 0)
      end
  end.

(** a tab of [chrome.tabs.query]: its address, when the script may read it *)
Record tab := Tab { tab_url : option string }.

(** the listener of the background script on a message with the given
    [action], [tabs] being the result of the query for the active tab: the
    response it sends and what it does to the tab, or [None] when it sends
    no response.  The promise of [injectAndScrape] is never rejected, so the
    [catch] is never entered. *)
Definition background_onMessage (action : string) (tabs : list tab) (env : tab_env)
  : option (response * list event) :=
  if String.eqb action scrapeAction then
    match tabs with
    | [] => Some (Failure "No active tab found", [])
    | tab :: _ =>
        (* Check if we're on Amazon *)
        if negb (truthy (tab_url tab)) || negb (includes (str (tab_url tab)) "amazon.com")
        then Some (Failure "Please navigate to an Amazon wishlist page", [])
        else Some (injectAndScrape env 3)
    end
  else None.

(** * popup.js *)

(** the kind of a status message, which sets its colour *)
Inductive status_kind := Info | StatusSuccess | StatusError.

(** a row of the results table *)
Record row := Row {
  imageCell : option string;   (* the address of the thumbnail; [None] shows 'No img' *)
  nameCell : string;
  nameTitle : string;
  asinCell : string;
  priceCell : string
}.

(** what the popup shows and keeps *)
Record popup := Popup {
  scrapedItems : list item;
  status : string * status_kind;
  rows : list row;
  itemCount : string;
  resultsHidden : bool;
  scrapeDisabled : bool;
  scrapeLabel : string
}.

(** [updateStatus(message, type)] *)
Definition updateStatus (message : string) (kind : status_kind) (p : popup) : popup :=
  Popup (scrapedItems p) (message, kind) (rows p) (itemCount p) (resultsHidden p)
        (scrapeDisabled p) (scrapeLabel p).

(** the text of the name cell: truncated if too long *)
Definition display_name (nameText : string) : string :=
  if 50 <? String.length nameText then take 50 nameText +:+ "..." else nameText.

Definition display_row (item : item) : row :=
  let nameText := or_default (name item) "Unknown" in
  {| imageCell := if truthy (Some (image item)) then Some (image item) else None;
     nameCell := display_name nameText;
     nameTitle := nameText;
     asinCell := or_default (asin item) "N/A";
     priceCell := or_default (price item) "N/A" |}.

(** [`${n}`] *)
Definition show_nat (n : nat) : string := NilEmpty.string_of_uint (Nat.to_uint n).

(** [`${n} item${n !== 1 ? 's' : ''}`] *)
Definition count_items (n : nat) : string :=
  show_nat n +:+ " item" +:+ (if n =? 1 then EmptyString else "s").

(** [displayResults(items)] *)
Definition displayResults (items : list item) (p : popup) : popup :=
  if length items =? 0 then
    updateStatus "No items found" StatusError
      (Popup items (status p) [] (itemCount p) (resultsHidden p) (scrapeDisabled p) (scrapeLabel p))
  else
    Popup items ("Successfully scraped " +:+ count_items (length items), StatusSuccess)
          (map display_row items) (count_items (length items) +:+ " found") false
          (scrapeDisabled p) (scrapeLabel p).

(** [handleScrape()], [tabs] being the result of the query for the active
    tab and [answer] what the message to the background script ends with *)
Definition handleScrape (tabs : list tab) (answer : send_result) (p : popup) : popup :=
  let p := Popup [] ("Scraping wishlist...", Info) (rows p) (itemCount p) true
                 true "Scraping..." in
  let enabled (p : popup) :=
    Popup (scrapedItems p) (status p) (rows p) (itemCount p) (resultsHidden p)
          false "Scrape Wishlist" in
  match tabs with
  | [] => updateStatus "Error: No active tab found" StatusError (enabled p)
  | tab :: _ =>
      if negb (truthy (tab_url tab)) || negb (includes (str (tab_url tab)) "amazon.com")
      then updateStatus "Error: Please navigate to an Amazon wishlist page" StatusError (enabled p)
      else
        match answer with
        | LastError message => updateStatus ("Error: " +:+ message) StatusError (enabled p)
        | Responded (Some (Success items)) => displayResults items (enabled p)
        | Responded (Some (Failure error)) =>
            updateStatus (or_default error "Failed to scrape wishlist") StatusError (enabled p)
        | Responded None => updateStatus "Failed to scrape wishlist" StatusError (enabled p)
        end
  end.

(** [handleExportCSV()] on the day [today]: the popup afterwards, and what
    [exportToCSV] has done, if it was called *)
Definition handleExportCSV (today : string) (p : popup) : popup * option export_effect :=
  if length (scrapedItems p) =? 0
  then (updateStatus "No items to export" StatusError p, None)
  else (updateStatus "CSV exported successfully" StatusSuccess p,
        Some (exportToCSV today (scrapedItems p))).

(** the check that the popup makes when it opens, on the active tab *)
Definition popup_init (tabs : list tab) (p : popup) : popup :=
  match tabs with
  | tab :: _ =>
      if truthy (tab_url tab) then
        let url := str (tab_url tab) in
        if negb (includes url "amazon.com") || negb (includes url "wishlist")
        then Popup (scrapedItems p) ("Please navigate to an Amazon wishlist page", Info)
                   (rows p) (itemCount p) (resultsHidden p) true (scrapeLabel p)
        else p
      else p
  | [] => p
  end.

(** * The vocabulary of the statements *)

(** the result of the first strategy with a match, among the results of the
    strategies taken in order *)
Definition first_match (results : list (list HTMLElement)) : list HTMLElement :=
  match List.find nonempty results with
  | Some r => r
  | None => []
  end.

(** a known private or unavailable phrase occurs in the text or in the
    markup of the page *)
Definition phrase_present (d : document) : Prop :=
  exists indicator, In indicator privateIndicators /\
    (includes (textContent (document_body d)) indicator = true \/
     includes (innerHTML (document_body d)) indicator = true).

(** a structural anchor pattern occurs in the tree *)
Definition anchor_present (d : document) : Prop :=
  document_querySelectorAll sel_wishlist_structure d <> [].

(** the copy about access to a list *)
Definition access_copy (text : string) : Prop :=
  includes text "view this list" = true \/
  includes text "access this list" = true \/
  includes text "private list" = true.

(** an error or sign-in alert element holds such copy *)
Definition alert_present (d : document) : Prop :=
  exists prompt, In prompt (document_querySelectorAll sel_sign_in_prompts d) /\
    access_copy (textContent prompt).

(** the invariant of a run: the records are pairwise distinct in their
    identifiers, all of which are in the seen set *)
Definition run_invariant (st : run) : Prop :=
  NoDup (map asin (items st)) /\
  forall x, x ∈ map asin (items st) -> x ∈ seenIds st.

(** a canonical identifier: ten characters, each an upper-case letter or a
    digit *)
Definition canonical (s : string) : Prop :=
  String.length s = 10 /\ forall_chars is_upper_alnum s = true.

(** the characters of a captured amount: digits, commas and the point *)
Definition is_amount_char (c : ascii) : bool := is_digit_or_comma c || (code c =? 46).

(** the currency symbol leads the string and occurs in it exactly once *)
Definition leading_once (s : string) : Prop :=
  startsWith s "$" = true /\ count_char "$"%char s = 1.

(** Reading a CSV file back, as RFC 4180 lays it out, with the line feed as
    the line break: fields are separated by commas, records by line breaks;
    a field that starts with a quote runs to its closing quote, a doubled
    quote inside standing for one quote; a quote may not occur elsewhere. *)
Inductive csv_state := FieldStart | Unquoted | Quoted | QuoteSeen.

Definition is_comma (c : ascii) : bool := Ascii.eqb c ","%char.
Definition is_quote (c : ascii) : bool := Ascii.eqb c dquote.
Definition is_newline (c : ascii) : bool := Ascii.eqb c "010"%char.

Definition snoc (s : string) (c : ascii) : string := s +:+ String c EmptyString.

Fixpoint parse_csv_from (st : csv_state) (field : string) (row : list string) (s : string)
  : option (list (list string)) :=
  match s with
  | EmptyString =>
      match st with
      | Quoted => None
      | _ => Some [row ++ [field]]
      end
  | String c s' =>
      match st with
      | FieldStart | Unquoted =>
          if is_quote c then
            match st with
            | FieldStart => parse_csv_from Quoted EmptyString row s'
            | _ => None
            end
          else if is_comma c then parse_csv_from FieldStart EmptyString (row ++ [field]) s'
          else if is_newline c then
            option_map (cons (row ++ [field])) (parse_csv_from FieldStart EmptyString [] s')
          else parse_csv_from Unquoted (snoc field c) row s'
      | Quoted =>
          if is_quote c then parse_csv_from QuoteSeen field row s'
          else parse_csv_from Quoted (snoc field c) row s'
      | QuoteSeen =>
          if is_quote c then parse_csv_from Quoted (snoc field dquote) row s'
          else if is_comma c then parse_csv_from FieldStart EmptyString (row ++ [field]) s'
          else if is_newline c then
            option_map (cons (row ++ [field])) (parse_csv_from FieldStart EmptyString [] s')
          else None
      end
  end.

(** the records of a CSV file, each the list of its fields *)
Definition parse_csv (s : string) : option (list (list string)) :=
  parse_csv_from FieldStart EmptyString [] s.

(** the field that a CSV file of one field holds *)
Definition decodeCSVField (s : string) : option string :=
  match parse_csv s with
  | Some [[field]] => Some field
  | _ => None
  end.

(** the fields of a record, in the order of the columns *)
Definition fields (item : item) : list string :=
  [name item; asin item; price item; url item; image item].

(** a character that is neither a comma, nor a quote, nor a line feed *)
Definition is_plain (c : ascii) : bool := negb (is_comma c || is_quote c || is_newline c).

(** the test of [escapeCSVField] *)
Definition needs_quotes (s : string) : bool :=
  has_char ","%char s || has_char dquote s || has_char "010"%char s.

(** what the reader does once a field is complete, on what follows it *)
Definition after_field (field : string) (row : list string) (rest : string)
  : option (list (list string)) :=
  match rest with
  | EmptyString => Some [row ++ [field]]
  | String c s' =>
      if is_comma c then parse_csv_from FieldStart EmptyString (row ++ [field]) s'
      else option_map (cons (row ++ [field])) (parse_csv_from FieldStart EmptyString [] s')
  end.

(** the end of the file, a comma or a line feed comes next *)
Definition delimited (rest : string) : bool :=
  match rest with
  | EmptyString => true
  | String c _ => is_comma c || is_newline c
  end.

(** whether the last character of [pre] is a word character; [after_word]
    when [pre] is empty *)
Fixpoint ends_word (after_word : bool) (pre : string) : bool :=
  match pre with
  | EmptyString => after_word
  | String c pre' => ends_word (is_word c) pre'
  end.

(** the end of the string, or a character that is not a word character,
    comes next *)
Definition word_ends (post : string) : bool :=
  match post with
  | EmptyString => true
  | String c _ => negb (is_word c)
  end.

Definition not_upper_alnum (c : ascii) : bool := negb (is_upper_alnum c).

(** a bare token stands at offset [n] of [s]: ten upper-case letters and
    digits with a word boundary on either side, [after_word] telling
    whether a word character comes before [s] *)
Definition bare_token_at (after_word : bool) (s : string) (n : nat) (tok : string) : Prop :=
  exists pre post,
    s = pre +:+ tok +:+ post /\ String.length pre = n /\ canonical tok /\
    ends_word after_word pre = false /\ word_ends post = true.

Definition not_digit_or_comma (c : ascii) : bool := negb (is_digit_or_comma c).


(** a string of [k] upper-case letters and digits *)
Definition code_shape (k : nat) (s : string) : Prop :=
  String.length s = k /\ forall_chars is_upper_alnum s = true.

(** the messages sent, the scripts injected and the time waited in a
    sequence of events *)
Definition count_sends (events : list event) : nat :=
  length (List.filter (fun e => match e with SendMessage => true | _ => false end) events).
Definition count_injections (events : list event) : nat :=
  length (List.filter (fun e => match e with ExecuteScript => true | _ => false end) events).
Definition total_delay (events : list event) : nat :=
  list_sum (map (fun e => match e with SetTimeout ms => ms | _ => 0 end) events).

(** the events of [k] failed attempts after the first one: a wait of 100 ms
    and a message, each *)
Definition retry_events (k : nat) : list event :=
  concat (repeat [SetTimeout 100; SendMessage] k).

(** the messages of the attempts before attempt [k] all end with an error *)
Definition attempts_fail (env : tab_env) (k : nat) : Prop :=
  forall a, a < k -> exists message, send env (S a) = LastError message.

(** the address passes the check of the background script and of
    [handleScrape] *)
Definition on_amazon (t : tab) : bool :=
  truthy (tab_url t) && includes (str (tab_url t)) "amazon.com".

Section Vocabulary.
Context {P : Platform}.

(** the initial extraction yields more records than a call takes *)
Definition crowded (d : document) : bool :=
  (max_arguments <? N.of_nat (length (fst (extractItems d ∅))))%N.

(** the state in which the loop of [scrapeWishlist] is left, and the
    exception that leaves it, if one does, once the classifier has let the run
    start and the initial extraction is stored *)
Definition final_run (pages : nat -> document) : run * option string :=
  scroll_loop pages
    (Run (fst (extractItems (pages 0) ∅)) (snd (extractItems (pages 0) ∅)) 0 0 0).

(** the identifier that [extractItemData] settles on: that of the node, or
    else that of the first descendant with an identifier attribute or a
    product address *)
Definition resolved_asin (element : HTMLElement) : string :=
  if truthy (Some (extractASINFromElement element)) then extractASINFromElement element
  else match querySelector sel_asin_element element with
       | Some asinElement => extractASINFromElement asinElement
       | None => EmptyString
       end.

(** the set [seen] holds the identifier of every record that a node located
    on the tree [d] yields *)
Definition covers (seen : gset string) (d : document) : Prop :=
  forall e it, In e (findWishlistItems d) -> extractItemData e = Some it -> asin it ∈ seen.

(** a tab in which the content script is loaded and answers, the page
    showing the trees [pages] *)
Definition loaded_env (pages : nat -> document) : tab_env :=
  TabEnv (fun _ => Responded (content_onMessage scrapeAction pages)) None.

End Vocabulary.

(** * The URL Standard on two kinds of address

    What [new URL(s)] gives, by the URL Standard that the browsers follow, on
    the addresses that the statements about links and the examples need. *)

Definition is_host_char (c : ascii) : bool := is_lower c || (code c =? 46).
Definition is_path_char (c : ascii) : bool :=
  is_alnum c || (code c =? 47) || (code c =? 45) || (code c =? 95).

Definition parse_authority_path (scheme rest : string) : option URL :=
  let '(host, rest) := span is_host_char rest in
  let '(path, rest) := span is_path_char rest in
  if String.eqb host EmptyString || startsWith host "." || includes host ".." then None
  else if negb (String.eqb path EmptyString || startsWith path "/") then None
  else
    match rest with
    | EmptyString | String "?"%char _ | String "#"%char _ =>
        Some (MkURL (scheme +:+ "://" +:+ host)
                    (if String.eqb path EmptyString then "/" else path))
    | _ => None
    end.

(** A plain address: an [http] or [https] address without credentials or
    port, whose host is made of lower-case letters and dots and whose path is
    made of letters, digits, [/], [-] and [_].  Its origin is the scheme with
    the host; its path is kept as it is, [/] standing for the empty one; the
    query and the fragment that may follow are in neither. *)
Definition plain_URL (s : string) : option URL :=
  if startsWith s "https://" then parse_authority_path "https" (drop 8 s)
  else if startsWith s "http://" then parse_authority_path "http" (drop 7 s)
  else None.

(** the schemes whose addresses have an origin of their own *)
Definition origin_schemes : list string :=
  ["http"; "https"; "ftp"; "ws"; "wss"; "file"; "blob"; "filesystem"].

Definition is_opaque_char (c : ascii) : bool := is_path_char c || (code c =? 58).

(** An address of another scheme, the scheme being made of lower-case
    letters, that has no authority: what follows the colon, up to the query or
    the fragment and made of letters, digits, [/], [:], [-] and [_], is the
    path, kept as it is; the origin is opaque, and [origin] is then the
    string [null]. *)
Definition other_URL (s : string) : option URL :=
  let '(scheme, rest) := span is_lower s in
  match rest with
  | String ":"%char rest =>
      let '(path, rest) := span is_opaque_char rest in
      if String.eqb scheme EmptyString || existsb (String.eqb scheme) origin_schemes
         || startsWith path "//"
      then None
      else
        match rest with
        | EmptyString | String "?"%char _ | String "#"%char _ => Some (MkURL "null" path)
        | _ => None
        end
  | _ => None
  end.

(** * A platform and pages for the examples

    [example_platform] stands for a browser showing a document of
    [https://www.amazon.com].  Its URL parser accepts the addresses of the
    two kinds above and rejects every other string; its JSON reader accepts
    the objects whose keys are plain strings and whose values are arrays of
    numbers; its calls take 125000 arguments, which is the order of the
    figure of Chrome's engine, where it varies with the room left on the
    stack.  The examples below use it on strings, and on numbers of records,
    on which a browser does the same. *)

Definition example_URL_parse (s : string) : option URL :=
  match plain_URL s with
  | Some u => Some u
  | None => other_URL s
  end.

Definition example_reflect_url (v : string) : string :=
  if startsWith v "//" then "https:" +:+ v
  else if startsWith v "/" then site_origin +:+ v
  else v.

(** the document being at the address of a wishlist of the site *)
Definition example_base_href (v : string) : string :=
  if String.eqb v EmptyString then "https://www.amazon.com/hz/wishlist/ls/ABC"
  else example_reflect_url v.

(** the keys of [{"k1":[n,n],"k2":[n,n]}] *)
Fixpoint example_keys (fuel : nat) (s : string) : option (list string) :=
  match fuel with
  | 0 => None
  | S fuel' =>
      match s with
      | String q s1 =>
          if Ascii.eqb q dquote then
            let '(key, s2) := span (fun c => negb (Ascii.eqb c dquote) && negb (code c =? 92)) s1 in
            match s2 with
            | String _ (String ":"%char (String "["%char s3)) =>
                let '(_, s4) := span is_digit_or_comma s3 in
                match s4 with
                | String "]"%char (String "}"%char EmptyString) => Some [key]
                | String "]"%char (String ","%char s5) =>
                    match example_keys fuel' s5 with
                    | Some keys => Some (key :: keys)
                    | None => None
                    end
                | _ => None
                end
            | _ => None
            end
          else None
      | EmptyString => None
      end
  end.

Definition example_JSON_keys (s : string) : option (list string) :=
  match s with
  | String "{"%char (String "}"%char EmptyString) => Some []
  | String "{"%char s' => example_keys (String.length s) s'
  | _ => None
  end.

Definition example_platform : Platform :=
  {| URL_parse := example_URL_parse;
     reflect_url := example_reflect_url;
     base_href := example_base_href;
     JSON_keys := example_JSON_keys;
     max_arguments := 125000 |}.

(** a page at [location] whose body holds [nodes] *)
Definition page (location : string) (nodes : list node) : document :=
  {| location_href := location; html_attrs := []; head_nodes := [];
     body_attrs := []; body_nodes := nodes |}.

Definition el (t : string) (a : list (string * string)) (ks : list node) : node :=
  Elem (StartTag t a) ks.

(** a wishlist entry as the site lays it out *)
Definition entry (item_id code title price_text : string) : node :=
  el "li" [("data-item-id", item_id)]
    [ el "h2" [] [el "a" [("href", "/dp/" +:+ code +:+ "/?tag=wl&ref=x#top"); ("id", "itemName_" +:+ item_id)]
                      [el "span" [] [Text title]]];
      el "span" [("class", "a-price")] [el "span" [("class", "a-offscreen")] [Text price_text]] ].

Definition wishlist_url : string := "https://www.amazon.com/hz/wishlist/ls/ABC".

(** Scenario A: three entries, and nothing more after a scroll *)
Definition three_entries : list node :=
  [ el "ul" [("id", "g-items")]
      [ entry "I1" "B000000001" "Kettle" "$1,299.50";
        entry "I2" "b000000002" "Teapot" "24.00";
        entry "I3" "B000000003" "Cups, set of 4" "$7" ] ].

Definition static_pages : nat -> document := fun _ => page wishlist_url three_entries.

(** a page that shows [k + 1] entries after [k] scrolls, without end *)
Definition growing_entries (k : nat) : list node :=
  [ el "ul" [("id", "g-items")]
      (map (fun i => el "li" [("data-item-id", "I"); ("data-asin", "B00000000" +:+ String (ascii_of_nat (65 + i)) EmptyString)] [])
           (seq 0 (S k))) ].

Definition growing_pages : nat -> document := fun k => page wishlist_url (growing_entries k).

(** a grid entry whose identifier is on a descendant only *)
Definition grid_page : document :=
  page wishlist_url
    [ el "ul" [("class", "a-unordered-list a-nostyle a-vertical")]
        [ el "li" [] [el "span" [("data-asin", "B000000000")] []] ] ].


(** an entry whose machine-readable price is a range *)
Definition price_range_page : document :=
  page wishlist_url
    [ el "ul" [("id", "g-items")]
        [ el "li" [("data-item-id", "I1"); ("data-asin", "B000000008")]
            [el "span" [("class", "a-price"); ("data-price", "$10.00 - $20.00")] []] ] ].


(** a page without any wishlist signal, a private list, and a list whose
    entries carry no identifier *)
Definition other_page : document :=
  page "https://www.amazon.com/gp/cart" [el "div" [] [Text "Your cart"]].
Definition private_page : document :=
  page wishlist_url [el "div" [] [Text "This list is private"]].
Definition anonymous_page : document :=
  page wishlist_url [el "ul" [("id", "g-items")] [el "li" [("data-item-id", "I1")] [Text "?"]]].

Definition scenario_A_records : list item :=
  [ Item "Kettle" "B000000001" "$1299.50" "https://www.amazon.com/dp/B000000001/" EmptyString;
    Item "Teapot" "B000000002" "$24.00" "https://www.amazon.com/dp/b000000002/" EmptyString;
    Item "Cups, set of 4" "B000000003" "$7" "https://www.amazon.com/dp/B000000003/" EmptyString ].

(** the grid entry of [grid_page], as the locator returns it *)
Definition grid_entry : HTMLElement :=
  Element
    [ (StartTag "ul" [("class", "a-unordered-list a-nostyle a-vertical")],
       [el "li" [] [el "span" [("data-asin", "B000000000")] []]]);
      (StartTag "body" [], body_nodes grid_page);
      (StartTag "html" [], html_children grid_page) ]
    (StartTag "li" []) [el "span" [("data-asin", "B000000000")] []].

(** a field that holds a comma, a quote and a line feed *)
Definition awkward_field : string :=
  "Cups, " +:+ String dquote ("large" +:+ String dquote (newline +:+ "set of 4")).

(** a string in quotes *)
Definition quoted (s : string) : string := String dquote (s +:+ String dquote EmptyString).

(** Scenario E: an entry whose image descriptor is no JSON, beside one whose
    descriptor lists two images *)
Definition image_page : document :=
  page wishlist_url
    [ el "ul" [("id", "g-items")]
        [ el "li" [("data-item-id", "I1"); ("data-asin", "B000000006")]
            [el "img" [("data-a-dynamic-image", "{400:"); ("src", "/images/I/lamp.jpg")] []];
          el "li" [("data-item-id", "I2"); ("data-asin", "B000000007")]
            [el "img" [("data-a-dynamic-image",
                        "{" +:+ quoted "//m.media/small.jpg" +:+ ":[100,100]," +:+
                        quoted "//m.media/large.jpg" +:+ ":[500,500]}");
                       ("src", "/images/I/pixel.gif")] []] ] ].

(** the strings of [l], each after every character of [alphabet] *)
Definition prefixed (alphabet : list ascii) (l : list string) : list string :=
  flat_map (fun c => map (String c) l) alphabet.

Definition digit_chars : list ascii :=
  ["0"; "1"; "2"; "3"; "4"; "5"; "6"; "7"; "8"; "9"]%char.

(** 130000 identifiers: [B0000], then one of [0] to [9], [A], [B] and [C],
    then four digits *)
Definition crowd_codes : list string :=
  map (String.append "B0000")
    (prefixed (digit_chars ++ ["A"; "B"; "C"]%char)
       (prefixed digit_chars (prefixed digit_chars (prefixed digit_chars
          (prefixed digit_chars [EmptyString]))))).

(** a bare entry that carries its identifier *)
Definition crowd_entry (code : string) : node :=
  el "li" [("data-item-id", code); ("data-asin", code)] [].

(** a wishlist that shows one bare entry for each of [codes] *)
Definition list_page (codes : list string) : document :=
  page wishlist_url [el "ul" [("id", "g-items")] (map crowd_entry codes)].

(** the entry of [code] on that page, as the locator returns it *)
Definition crowd_element (codes : list string) (code : string) : HTMLElement :=
  Element
    [ (StartTag "ul" [("id", "g-items")], map crowd_entry codes);
      (StartTag "body" [], body_nodes (list_page codes));
      (StartTag "html" [], html_children (list_page codes)) ]
    (StartTag "li" [("data-item-id", code); ("data-asin", code)]) [].

(** a wishlist of 130000 entries, all shown at once *)
Definition crowded_page : document := list_page crowd_codes.

(** the records of [growing_pages] after ten scrolls *)
Definition growing_records : list item :=
  map (fun i =>
         let code := "B00000000" +:+ String (ascii_of_nat (65 + i)) EmptyString in
         Item "Unknown Item" code "N/A" ("https://www.amazon.com/dp/" +:+ code) EmptyString)
      (seq 0 11).

(** an entry without any title element, whose text is its description *)
Definition text_entry : HTMLElement :=
  Element [] (StartTag "li" [("data-asin", "B000000004")])
    [Text "  A reading lamp with a brass foot and a linen shade, 40 cm  "].

(** price elements without a machine-readable price *)
Definition price_text_element : HTMLElement :=
  Element [] (StartTag "span" [("class", "a-price")]) [Text " from 1,299.50 USD "].
Definition free_text_element : HTMLElement :=
  Element [] (StartTag "span" [("class", "a-price")]) [Text " Free "].

(** the list of Scenario A on a page whose address does not name a wishlist *)
Definition cart_page_with_list : document :=
  page "https://www.amazon.com/gp/cart" three_entries.

(** a page that shows a private phrase beside a product card, and the card
    as an element of the page *)
Definition card_page : document :=
  page wishlist_url
    [ el "div" [] [Text "This list is private"];
      el "div" [("data-asin", "B000000005")] [] ].
Definition card : HTMLElement :=
  Element [ (StartTag "body" [], body_nodes card_page);
            (StartTag "html" [], html_children card_page) ]
          (StartTag "div" [("data-asin", "B000000005")]) [].

Definition no_receiver : string :=
  "Could not establish connection. Receiving end does not exist.".

(** a tab whose content script answers the second attempt after its
    injection; one that never answers; one that refuses the injection *)
Definition slow_env : tab_env :=
  TabEnv (fun k => match k with
                   | 0 | 1 => LastError no_receiver
                   | _ => Responded (Some (Success scenario_A_records))
                   end) None.
Definition dead_env : tab_env := TabEnv (fun _ => LastError no_receiver) None.
Definition blocked_env : tab_env :=
  TabEnv (fun _ => LastError no_receiver) (Some "Cannot access contents of the page").

Definition wishlist_tab : tab := Tab (Some wishlist_url).

(** a popup with nothing scraped and its button enabled *)
Definition idle_popup : popup :=
  Popup [] (EmptyString, Info) [] EmptyString true false "Scrape Wishlist".

(** * Properties *)

(** ** The item locator *)

Lemma nonempty_length {A : Type} (l : list A) : (0 <? length l) = nonempty l.
Proof. destruct l; reflexivity. Qed.

Lemma findWishlistItems_first_match (d : document) :
  findWishlistItems d = first_match (map (fun sel => document_querySelectorAll sel d) strategies).
Proof.
  unfold findWishlistItems, first_match, strategies. cbn [map List.find].
  rewrite !nonempty_length.
  destruct (nonempty (document_querySelectorAll sel_main_container d)); [reflexivity|].
  destruct (nonempty (document_querySelectorAll sel_alternative_container d)); [reflexivity|].
  destruct (nonempty (document_querySelectorAll sel_grid_items d)); [reflexivity|].
  destruct (nonempty (document_querySelectorAll sel_product_cards d)); reflexivity.
Qed.

Lemma first_match_split (results : list (list HTMLElement)) :
  (first_match results = [] /\ Forall (fun r => r = []) results) \/
  (exists before r after,
      results = before ++ r :: after /\ Forall (fun r => r = []) before /\
      r <> [] /\ first_match results = r).
Proof.
  unfold first_match. induction results as [|r rs IH]; cbn [List.find].
  - left. split; [reflexivity | constructor].
  - destruct r as [|e r]; cbn [nonempty].
    + destruct IH as [[H1 H2] | (before & r' & after & -> & Hb & Hr & Hf)].
      * left. split; [exact H1 | constructor; [reflexivity | exact H2]].
      * right. exists ([] :: before), r', after.
        split; [reflexivity|]. split; [constructor; [reflexivity | exact Hb]|].
        split; assumption.
    + right. exists [], (e :: r), rs. repeat split; [constructor | discriminate].
Qed.

(** C5. For every tree the locator tries its four strategies in the fixed
    order of [strategies] and returns, unchanged, the result of the first
    one that matches at least one node: the strategies before it matched
    nothing, and the result is that of one strategy alone, never a merge.
    When all four miss it returns the empty sequence.  As a function of the
    tree, its result is determined by the tree. *)
Theorem findWishlistItems_first_strategy (d : document) :
  length strategies = 4 /\
  ((findWishlistItems d = [] /\
    forall sel, In sel strategies -> document_querySelectorAll sel d = []) \/
   (exists before sel after,
      strategies = before ++ sel :: after /\
      (forall s, In s before -> document_querySelectorAll s d = []) /\
      document_querySelectorAll sel d <> [] /\
      findWishlistItems d = document_querySelectorAll sel d)).
Proof.
  split; [reflexivity|].
  rewrite findWishlistItems_first_match.
  destruct (first_match_split (map (fun sel => document_querySelectorAll sel d) strategies))
    as [[H1 H2] | (before & r & after & Hsplit & Hb & Hr & Hf)].
  - left. split; [exact H1|]. intros sel Hin.
    rewrite List.Forall_forall in H2. apply H2.
    apply List.in_map_iff. exists sel. split; [reflexivity | exact Hin].
  - right.
    apply List.map_eq_app in Hsplit as (sb & rest & Hs & Hmb & Hrest).
    apply List.map_eq_cons in Hrest as (sel & sa & -> & Hsel & Hma).
    exists sb, sel, sa. split; [exact Hs|]. subst before r.
    split; [|split; [exact Hr | exact Hf]].
    intros s Hin. rewrite List.Forall_forall in Hb. apply Hb.
    apply List.in_map_iff. exists s. split; [reflexivity | exact Hin].
Qed.

(** ** The page classifier *)

Lemma anchor_present_query (d : document) :
  nonempty (option_list (document_querySelector sel_wishlist_structure d)) = true <->
  anchor_present d.
Proof.
  unfold anchor_present, document_querySelector.
  destruct (document_querySelectorAll sel_wishlist_structure d); cbn; split; intros H;
    try reflexivity; try discriminate; congruence.
Qed.

Lemma phrase_scan (d : document) :
  existsb (fun indicator =>
       (includes (textContent (document_body d)) indicator ||
        includes (innerHTML (document_body d)) indicator) &&
       negb (nonempty (option_list (document_querySelector sel_wishlist_structure d))))
    privateIndicators = true <->
  phrase_present d /\ ~ anchor_present d.
Proof.
  rewrite existsb_exists. unfold phrase_present. rewrite <- anchor_present_query.
  split.
  - intros (ind & Hin & H). apply andb_true_iff in H as [H1 H2].
    apply orb_true_iff in H1. apply negb_true_iff in H2.
    split; [exists ind; split; assumption | rewrite H2; discriminate].
  - intros [(ind & Hin & H1) H2]. exists ind. split; [exact Hin|].
    apply andb_true_iff. split; [apply orb_true_iff; exact H1|].
    apply negb_true_iff. apply not_true_is_false. exact H2.
Qed.

Lemma alert_scan (d : document) :
  existsb (fun prompt =>
       includes (textContent prompt) "view this list" ||
       includes (textContent prompt) "access this list" ||
       includes (textContent prompt) "private list")
    (document_querySelectorAll sel_sign_in_prompts d) = true <->
  alert_present d.
Proof.
  rewrite existsb_exists. unfold alert_present, access_copy.
  split; intros (p & Hin & H); exists p; (split; [exact Hin|]).
  - apply orb_true_iff in H as [H | H]; [apply orb_true_iff in H as [H | H]|]; tauto.
  - rewrite !orb_true_iff. tauto.
Qed.

(** C4. [isPrivateWishlist] answers [false] whenever the locator finds an
    item node, whatever the text of the page says; it answers [true] exactly
    when the locator finds nothing and either a private phrase occurs in the
    text or markup while no structural anchor occurs in the tree, or an
    error or sign-in alert holds copy about access to a list; in every other
    case it answers [false]. *)
Theorem isPrivateWishlist_cases (d : document) :
  (findWishlistItems d <> [] -> isPrivateWishlist d = false) /\
  (isPrivateWishlist d = true <->
     findWishlistItems d = [] /\
     ((phrase_present d /\ ~ anchor_present d) \/ alert_present d)) /\
  (~ ((phrase_present d /\ ~ anchor_present d) \/ alert_present d) ->
     isPrivateWishlist d = false).
Proof.
  assert (Hiff : isPrivateWishlist d = true <->
     findWishlistItems d = [] /\
     ((phrase_present d /\ ~ anchor_present d) \/ alert_present d)).
  { unfold isPrivateWishlist. cbv zeta. rewrite nonempty_length.
    rewrite <- phrase_scan, <- alert_scan.
    destruct (findWishlistItems d) as [|e l]; cbn [nonempty].
    - destruct (existsb _ privateIndicators).
      + split; [intros _; split; [reflexivity | left; reflexivity] | reflexivity].
      + destruct (existsb _ (document_querySelectorAll sel_sign_in_prompts d)).
        * split; [intros _; split; [reflexivity | right; reflexivity] | reflexivity].
        * split; [discriminate | intros [_ [H | H]]; discriminate].
    - split; [discriminate | intros [H _]; discriminate]. }
  split; [|split; [exact Hiff|]].
  - intros Hne. apply not_true_is_false. intros H. apply Hiff in H as [H _]. contradiction.
  - intros Hno. apply not_true_is_false. intros H. apply Hiff in H as [_ H]. contradiction.
Qed.

(** ** The collector *)

Section Collector.
Context {P : Platform}.

Lemma extractItemData_asin_truthy (element : HTMLElement) (item : item) :
  extractItemData element = Some item -> truthy (Some (asin item)) = true.
Proof.
  unfold extractItemData. cbv zeta.
  match goal with |- context [negb (truthy (Some ?a))] => destruct (truthy (Some a)) eqn:Ht end;
    cbn [negb]; [|discriminate].
  intros [= <-]. exact Ht.
Qed.

(** one pass over the item nodes [l], from the records [acc] and the seen
    set [seen]: the records added are new to [seen] and pairwise distinct,
    the set grows by exactly their identifiers, and afterwards it holds the
    identifier of every record that a node of [l] yields *)
Lemma forEach_pass (l : list HTMLElement) :
  forall (acc : list item) (seen : gset string),
  exists new : list item,
    fold_left forEach_body l (acc, seen) = (acc ++ new, list_to_set (map asin new) ∪ seen) /\
    NoDup (map asin new) /\
    (forall x, x ∈ map asin new -> x ∉ seen) /\
    (forall e it, In e l -> extractItemData e = Some it ->
                  asin it ∈ (list_to_set (map asin new) ∪ seen : gset string)).
Proof.
  induction l as [|e l IH]; intros acc seen.
  - exists []. cbn. rewrite app_nil_r. split; [f_equal; set_solver|].
    split; [constructor|]. split; [set_solver | intros ? ? []].
  - cbn [fold_left]. unfold forEach_body at 2.
    destruct (extractItemData e) as [it|] eqn:He.
    + rewrite (extractItemData_asin_truthy _ _ He). cbn [andb].
      destruct (bool_decide (asin it ∈ seen)) eqn:Hseen; cbn [negb].
      * apply bool_decide_eq_true in Hseen.
        destruct (IH acc seen) as (new & Hfold & Hnd & Hfresh & Hcov).
        exists new. split; [exact Hfold|]. split; [exact Hnd|]. split; [exact Hfresh|].
        intros e' it' [<- | Hin] He'; [|eauto].
        rewrite He in He'. injection He' as <-. set_solver.
      * apply bool_decide_eq_false in Hseen.
        destruct (IH (acc ++ [it]) ({[asin it]} ∪ seen)) as (new & Hfold & Hnd & Hfresh & Hcov).
        exists (it :: new). rewrite Hfold, <- app_assoc. cbn [app map list_to_set].
        split; [f_equal; set_solver|].
        split; [apply NoDup_cons; split; [intros Hin; apply Hfresh in Hin; set_solver | exact Hnd]|].
        split.
        -- intros x Hx. apply elem_of_cons in Hx as [-> | Hx]; [exact Hseen|].
           apply Hfresh in Hx. set_solver.
        -- intros e' it' [<- | Hin] He'.
           ++ rewrite He in He'. injection He' as <-. set_solver.
           ++ specialize (Hcov e' it' Hin He'). set_solver.
    + destruct (IH acc seen) as (new & Hfold & Hnd & Hfresh & Hcov).
      exists new. split; [exact Hfold|]. split; [exact Hnd|]. split; [exact Hfresh|].
      intros e' it' [<- | Hin] He'; [congruence | eauto].
Qed.

(** a pass over nodes whose records are all seen already changes nothing *)
Lemma forEach_pass_seen (l : list HTMLElement) (acc : list item) (seen : gset string) :
  (forall e it, In e l -> extractItemData e = Some it -> asin it ∈ seen) ->
  fold_left forEach_body l (acc, seen) = (acc, seen).
Proof.
  induction l as [|e l IH]; intros Hcov; [reflexivity|].
  cbn [fold_left]. unfold forEach_body at 2.
  destruct (extractItemData e) as [it|] eqn:He.
  - assert (Hin : asin it ∈ seen) by (apply (Hcov e); [left; reflexivity | exact He]).
    rewrite (bool_decide_eq_true_2 _ Hin), andb_false_r.
    apply IH. intros e' it' Hin'. apply Hcov. right. exact Hin'.
  - apply IH. intros e' it' Hin'. apply Hcov. right. exact Hin'.
Qed.

Lemma extractItems_new (d : document) (seen : gset string) :
  exists new : list item,
    extractItems d seen = (new, list_to_set (map asin new) ∪ seen) /\
    NoDup (map asin new) /\
    (forall x, x ∈ map asin new -> x ∉ seen).
Proof.
  unfold extractItems.
  destruct (forEach_pass (findWishlistItems d) [] seen) as (new & Hfold & Hnd & Hfresh & _).
  exists new. split; [exact Hfold|]. split; assumption.
Qed.

(** a later pass over an unchanged tree, with a seen set that holds what the
    first pass has left, adds no record and no identifier *)
Lemma extractItems_again (d : document) (seen later : gset string) :
  snd (extractItems d seen) ⊆ later -> extractItems d later = ([], later).
Proof.
  unfold extractItems.
  destruct (forEach_pass (findWishlistItems d) [] seen) as (new & Hfold & _ & _ & Hcov).
  rewrite Hfold. cbn [snd]. intros Hsub. apply forEach_pass_seen.
  intros e it Hin He. apply Hsub. exact (Hcov e it Hin He).
Qed.

Lemma loop_body_invariant (pages : nat -> document) (st : run) :
  run_invariant st -> run_invariant (fst (loop_body pages st)).
Proof.
  intros [Hnd Hseen]. unfold loop_body.
  destruct (extractItems_new (pages (S (scrolls st))) (seenIds st))
    as (new & -> & Hnew & Hfresh).
  unfold push_spread. destruct (_ <=? _)%N.
  - assert (Hinv : NoDup (map asin (items st ++ new)) /\
                   forall x, x ∈ map asin (items st ++ new) ->
                             x ∈ (list_to_set (map asin new) ∪ seenIds st : gset string)).
    { rewrite map_app. split.
      - apply NoDup_app. split; [exact Hnd|]. split; [|exact Hnew].
        intros x Hx Hx'. apply Hfresh in Hx'. apply Hx', Hseen, Hx.
      - intros x Hx. apply elem_of_app in Hx as [Hx | Hx]; [apply Hseen in Hx|]; set_solver. }
    destruct (_ =? _); exact Hinv.
  - split; [exact Hnd|]. cbn [fst items seenIds]. intros x Hx. apply Hseen in Hx. set_solver.
Qed.

Lemma loop_body_scrolls (pages : nat -> document) (st : run) :
  scrolls (fst (loop_body pages st)) = S (scrolls st) /\
  scrollAttempts (fst (loop_body pages st)) =
    (match snd (loop_body pages st) with
     | Next => S (scrollAttempts st)
     | _ => scrollAttempts st
     end).
Proof.
  unfold loop_body. destruct (extractItems _ _) as [new seen'].
  destruct (push_spread _ _); [|split; reflexivity].
  destruct (_ =? _); split; reflexivity.
Qed.

(** the only exception that a pass raises is the one of the engine *)
Lemma loop_body_raise (pages : nat -> document) (st st' : run) (message : string) :
  loop_body pages st = (st', Raise message) -> message = RangeErrorMessage.
Proof.
  unfold loop_body. destruct (extractItems _ _) as [new seen'].
  destruct (push_spread _ _); [destruct (_ =? _); discriminate|]. now intros [= _ <-].
Qed.

(** the induction principle of the loop: what relates a state to the way
    in which the loop is left from it *)
Lemma scroll_loop_induction (pages : nat -> document)
    (Q : run -> run * option string -> Prop) :
  (forall st, (scrollAttempts st <? maxScrollAttempts) = false -> Q st (st, None)) ->
  (forall st st', (scrollAttempts st <? maxScrollAttempts) = true ->
                  loop_body pages st = (st', Break) -> Q st (st', None)) ->
  (forall st st' message, (scrollAttempts st <? maxScrollAttempts) = true ->
                  loop_body pages st = (st', Raise message) -> Q st (st', Some message)) ->
  (forall st st', (scrollAttempts st <? maxScrollAttempts) = true ->
                  loop_body pages st = (st', Next) ->
                  Q st' (scroll_loop pages st') -> Q st (scroll_loop pages st')) ->
  forall st, Q st (scroll_loop pages st).
Proof.
  intros Hstop Hbreak Hraise Hnext st.
  funelim (scroll_loop pages st);
    first [ apply Hstop; exact Hcond
          | apply Hbreak; [exact Hcond | exact Hbody]
          | apply Hraise; [exact Hcond | exact Hbody]
          | apply Hnext; [exact Hcond | exact Hbody | apply H; assumption] ].
Qed.

Lemma scroll_loop_invariant (pages : nat -> document) (st : run) :
  run_invariant st -> run_invariant (fst (scroll_loop pages st)).
Proof.
  revert st.
  apply (scroll_loop_induction pages
           (fun st out => run_invariant st -> run_invariant (fst out))).
  - intros st _ Hinv. exact Hinv.
  - intros st st' _ Hbody Hinv.
    pose proof (loop_body_invariant pages st Hinv) as Hb. rewrite Hbody in Hb. exact Hb.
  - intros st st' message _ Hbody Hinv.
    pose proof (loop_body_invariant pages st Hinv) as Hb. rewrite Hbody in Hb. exact Hb.
  - intros st st' _ Hbody IH Hinv. apply IH.
    pose proof (loop_body_invariant pages st Hinv) as Hb. rewrite Hbody in Hb. exact Hb.
Qed.

(** the loop scrolls at most once for each attempt that is left *)
Lemma scroll_loop_scrolls (pages : nat -> document) (st : run) :
  scrolls (fst (scroll_loop pages st)) <= scrolls st + (maxScrollAttempts - scrollAttempts st).
Proof.
  revert st.
  apply (scroll_loop_induction pages (fun st out =>
           scrolls (fst out) <= scrolls st + (maxScrollAttempts - scrollAttempts st))).
  - intros st _. cbn [fst]. lia.
  - intros st st' Hcond Hbody.
    pose proof (loop_body_scrolls pages st) as [Hs Ha]. rewrite Hbody in Hs, Ha.
    cbn [fst snd] in *. apply Nat.ltb_lt in Hcond. lia.
  - intros st st' message Hcond Hbody.
    pose proof (loop_body_scrolls pages st) as [Hs Ha]. rewrite Hbody in Hs, Ha.
    cbn [fst snd] in *. apply Nat.ltb_lt in Hcond. lia.
  - intros st st' Hcond Hbody IH.
    pose proof (loop_body_scrolls pages st) as [Hs Ha]. rewrite Hbody in Hs, Ha.
    cbn [fst snd] in Hs, Ha. apply Nat.ltb_lt in Hcond. lia.
Qed.

(** the only exception that leaves the loop is the one of the engine *)
Lemma scroll_loop_raise (pages : nat -> document) (st : run) (message : string) :
  snd (scroll_loop pages st) = Some message -> message = RangeErrorMessage.
Proof.
  revert st.
  apply (scroll_loop_induction pages (fun st out =>
           snd out = Some message -> message = RangeErrorMessage)).
  - discriminate.
  - discriminate.
  - intros st st' m _ Hbody [= <-]. exact (loop_body_raise pages st st' m Hbody).
  - intros st st' _ _ IH. exact IH.
Qed.

Lemma scrapeWishlist_unfold (pages : nat -> document) :
  scrapeWishlist pages =
    if negb (isWishlistPage (pages 0)) then (Throw NotAWishlistPage, 0)
    else if isPrivateWishlist (pages 0) then (Throw PrivateOrInaccessible, 0)
    else if crowded (pages 0) then (Throw RangeErrorMessage, 0)
    else match snd (final_run pages) with
         | Some message => (Throw message, scrolls (fst (final_run pages)))
         | None =>
             match items (fst (final_run pages)) with
             | [] => (Throw NoItemsFound, scrolls (fst (final_run pages)))
             | _ :: _ => (Return (items (fst (final_run pages))), scrolls (fst (final_run pages)))
             end
         end.
Proof.
  unfold scrapeWishlist, final_run, crowded, push_spread.
  destruct (isWishlistPage (pages 0)); [|reflexivity].
  destruct (isPrivateWishlist (pages 0)); [reflexivity|].
  cbn [negb]. destruct (extractItems (pages 0) ∅) as [first seen]. cbn [fst snd app].
  rewrite N.ltb_antisym. destruct (_ <=? _)%N; cbn [negb]; [|reflexivity].
  destruct (scroll_loop pages _) as [st [message|]]; cbn [fst snd]; [reflexivity|].
  destruct (items st); reflexivity.
Qed.

Lemma final_run_invariant (pages : nat -> document) : run_invariant (fst (final_run pages)).
Proof.
  apply scroll_loop_invariant. unfold run_invariant. cbn [items seenIds].
  destruct (extractItems_new (pages 0) ∅) as (new & -> & Hnd & _). cbn [fst snd].
  split; [exact Hnd | set_solver].
Qed.

(** what a run that returns has gone through *)
Lemma scrapeWishlist_returned (pages : nat -> document) (records : list item) (n : nat) :
  scrapeWishlist pages = (Return records, n) ->
  crowded (pages 0) = false /\ snd (final_run pages) = None /\
  items (fst (final_run pages)) = records /\ scrolls (fst (final_run pages)) = n.
Proof.
  rewrite scrapeWishlist_unfold.
  destruct (isWishlistPage (pages 0)); [|discriminate].
  destruct (isPrivateWishlist (pages 0)); [discriminate|]. cbn [negb].
  destruct (crowded (pages 0)); [discriminate|].
  destruct (snd (final_run pages)); [discriminate|].
  destruct (items (fst (final_run pages))); [discriminate|].
  intros [= <- <-]. repeat split.
Qed.

(** C1. In every run of the collector no two records of the returned
    sequence share an identifier; and running the locator and the extractor
    once more over an unchanged tree, with the seen set that the previous
    pass has left or any larger one that the run has reached since, yields
    no record and leaves the set as it is. *)
Theorem scrapeWishlist_deduplicates (pages : nat -> document) :
  (forall records n, scrapeWishlist pages = (Return records, n) ->
     List.NoDup (map asin records)) /\
  (forall d seen,
     extractItems d (snd (extractItems d seen)) = ([], snd (extractItems d seen))) /\
  (forall d seen later,
     snd (extractItems d seen) ⊆ later -> extractItems d later = ([], later)).
Proof.
  split; [|split; [intros d seen; now apply (extractItems_again d seen) | exact extractItems_again]].
  intros records n Hret. apply scrapeWishlist_returned in Hret as (_ & _ & <- & _).
  pose proof (final_run_invariant pages) as [Hnd _].
  apply NoDup_ListNoDup. exact Hnd.
Qed.

(** C2. Whatever trees the page shows after each scroll, a run of the
    collector ends, and it has scrolled at most ten times when it does:
    [scrapeWishlist] is a total function of the sequence of trees, and the
    count of its reveal cycles is bounded by [maxScrollAttempts]. *)
Theorem scrapeWishlist_scroll_bound (pages : nat -> document) :
  snd (scrapeWishlist pages) <= maxScrollAttempts /\ maxScrollAttempts = 10.
Proof.
  split; [|reflexivity]. rewrite scrapeWishlist_unfold.
  assert (Hb : scrolls (fst (final_run pages)) <= maxScrollAttempts).
  { unfold final_run. etransitivity; [apply scroll_loop_scrolls|]. cbn [scrolls scrollAttempts]. lia. }
  destruct (isWishlistPage (pages 0)); [|cbn [negb snd]; lia].
  destruct (isPrivateWishlist (pages 0)); [cbn [negb snd]; lia|]. cbn [negb].
  destruct (crowded (pages 0)); [cbn [snd]; lia|].
  destruct (snd (final_run pages)); [exact Hb|].
  destruct (items (fst (final_run pages))); exact Hb.
Qed.

(** X23. Every call of the collector completes in exactly one way: with
    a non-empty sequence of records, with one of its three failures, or with
    the [RangeError] of the engine.  The failures are decided in a fixed
    order: [NotAWishlistPage] when the page is not a wishlist page,
    [PrivateOrInaccessible] when it is one and is private, both before
    anything is scrolled; then the [RangeError], when the initial extraction
    or a later pass yields more records than a call takes; and, when the loop
    is left without an exception, [NoItemsFound] exactly when no record was
    gathered, the records being returned otherwise. *)
Theorem scrapeWishlist_outcome (pages : nat -> document) :
  ((exists records, records <> [] /\ fst (scrapeWishlist pages) = Return records) \/
   fst (scrapeWishlist pages) = Throw NotAWishlistPage \/
   fst (scrapeWishlist pages) = Throw PrivateOrInaccessible \/
   fst (scrapeWishlist pages) = Throw NoItemsFound \/
   fst (scrapeWishlist pages) = Throw RangeErrorMessage) /\
  (fst (scrapeWishlist pages) = Throw NotAWishlistPage <->
     isWishlistPage (pages 0) = false) /\
  (fst (scrapeWishlist pages) = Throw PrivateOrInaccessible <->
     isWishlistPage (pages 0) = true /\ isPrivateWishlist (pages 0) = true) /\
  (fst (scrapeWishlist pages) = Throw NotAWishlistPage \/
   fst (scrapeWishlist pages) = Throw PrivateOrInaccessible ->
     snd (scrapeWishlist pages) = 0) /\
  (fst (scrapeWishlist pages) = Throw RangeErrorMessage <->
     isWishlistPage (pages 0) = true /\ isPrivateWishlist (pages 0) = false /\
     (crowded (pages 0) = true \/ snd (final_run pages) <> None)) /\
  (fst (scrapeWishlist pages) = Throw NoItemsFound <->
     isWishlistPage (pages 0) = true /\ isPrivateWishlist (pages 0) = false /\
     crowded (pages 0) = false /\ snd (final_run pages) = None /\
     items (fst (final_run pages)) = []) /\
  (forall records, fst (scrapeWishlist pages) = Return records <->
     isWishlistPage (pages 0) = true /\ isPrivateWishlist (pages 0) = false /\
     crowded (pages 0) = false /\ snd (final_run pages) = None /\
     items (fst (final_run pages)) = records /\ records <> []).
Proof.
  rewrite scrapeWishlist_unfold.
  destruct (isWishlistPage (pages 0)); cbn [negb fst snd].
  2: { repeat split; try (intros; reflexivity); try discriminate;
       try (right; left; reflexivity); intros H; destruct H as [H _]; discriminate. }
  destruct (isPrivateWishlist (pages 0)); cbn [fst snd].
  { repeat split; try (intros; reflexivity); try discriminate;
      try (right; right; left; reflexivity);
      intros H; destruct H as (_ & H & _); discriminate. }
  destruct (crowded (pages 0)); cbn [fst snd].
  { split; [do 4 right; reflexivity|].
    repeat split; try (intros; reflexivity); try discriminate;
      try (left; reflexivity);
      try (intros H; destruct H as [_ H]; discriminate);
      try (intros H; destruct H as [H | H]; discriminate);
      intros H; destruct H as (_ & _ & H & _); discriminate. }
  destruct (snd (final_run pages)) as [message|] eqn:Hraised; cbn [fst snd].
  { apply scroll_loop_raise in Hraised as ->.
    split; [do 4 right; reflexivity|].
    repeat split; try (intros; reflexivity); try discriminate;
      try (right; discriminate);
      try (intros H; destruct H as [_ H]; discriminate);
      try (intros H; destruct H as [H | H]; discriminate);
      intros H; destruct H as (_ & _ & _ & H & _); discriminate. }
  destruct (items (fst (final_run pages))) as [|r rs]; cbn [fst snd].
  - split; [right; right; right; left; reflexivity|].
    repeat split; try (intros; reflexivity); try discriminate.
    + intros [_ H]; discriminate.
    + intros [H | H]; discriminate.
    + intros (_ & _ & [H | H]); [discriminate | contradiction].
    + intros (_ & _ & _ & _ & <- & H). contradiction.
  - split; [left; exists (r :: rs); split; [discriminate | reflexivity]|].
    repeat split; try (intros; reflexivity); try discriminate.
    + intros [_ H]; discriminate.
    + intros [H | H]; discriminate.
    + intros (_ & _ & [H | H]); [discriminate | contradiction].
    + intros (_ & _ & _ & _ & H); discriminate.
    + injection H as <-. reflexivity.
    + injection H as <-. discriminate.
    + intros (_ & _ & _ & _ & <- & _). reflexivity.
Qed.

End Collector.

(** ** Identifiers *)

Ltac each_char c := destruct c as [[] [] [] [] [] [] [] []].

Lemma upper_char_alnum (c : ascii) : is_alnum c = true -> is_upper_alnum (upper_char c) = true.
Proof. each_char c; intros H; try reflexivity; discriminate H. Qed.


Lemma upper_char_fixed (c : ascii) : is_upper_alnum c = true -> upper_char c = c.
Proof. each_char c; intros H; try reflexivity; discriminate H. Qed.

Lemma toUpperCase_length (s : string) : String.length (toUpperCase s) = String.length s.
Proof. induction s as [|c s IH]; cbn; [reflexivity | now rewrite IH]. Qed.


Lemma toUpperCase_alnum (s : string) :
  forall_chars is_alnum s = true -> forall_chars is_upper_alnum (toUpperCase s) = true.
Proof.
  induction s as [|c s IH]; cbn; [reflexivity|].
  intros H. apply andb_true_iff in H as [Hc Hs].
  now rewrite (upper_char_alnum c Hc), (IH Hs).
Qed.

Lemma toUpperCase_canonical (s : string) : canonical s -> toUpperCase s = s.
Proof.
  intros [_ H]. induction s as [|c s IH]; cbn in *; [reflexivity|].
  apply andb_true_iff in H as [Hc Hs]. now rewrite (upper_char_fixed c Hc), (IH Hs).
Qed.

Lemma is_asin_canonical (s : string) : is_asin s = true -> canonical (toUpperCase s).
Proof.
  unfold is_asin, canonical. intros H. apply andb_true_iff in H as [Hl Ha].
  apply Nat.eqb_eq in Hl. rewrite toUpperCase_length. split; [exact Hl|].
  apply toUpperCase_alnum, Ha.
Qed.

(** a leftmost match is a match at some position: at the start of a suffix *)
Lemma leftmost_some (here : string -> option string) (s m : string) :
  leftmost here s = Some m -> exists before after, s = before +:+ after /\ here after = Some m.
Proof.
  induction s as [|c s IH]; cbn.
  - destruct (here EmptyString) eqn:He; [|discriminate].
    intros [= ->]. exists EmptyString, EmptyString. split; [reflexivity | exact He].
  - destruct (here (String c s)) eqn:He.
    + intros [= ->]. exists EmptyString, (String c s). split; [reflexivity | exact He].
    + intros H. destruct (IH H) as (b & a & -> & Ha).
      exists (String c b), a. split; [reflexivity | exact Ha].
Qed.

Lemma asin_then_is_asin (delimiter : ascii -> bool) (s m : string) :
  asin_then delimiter s = Some m -> is_asin m = true.
Proof.
  unfold asin_then. destruct (is_asin (take 10 s)) eqn:Ha; [|discriminate].
  destruct (drop 10 s) as [|c r]; [|destruct (delimiter c)]; try discriminate;
    intros [= <-]; exact Ha.
Qed.

Lemma match_dp_is_asin (href m : string) : match_dp href = Some m -> is_asin m = true.
Proof.
  intros H. apply leftmost_some in H as (b & a & _ & H). unfold dp_here in H.
  destruct (startsWith_ci a "/dp/"); [exact (asin_then_is_asin _ _ _ H)|].
  destruct (startsWith_ci a "/gp/product/"); [exact (asin_then_is_asin _ _ _ H) | discriminate].
Qed.

Section Identifiers.
Context {P : Platform}.

(** [extractASINFromElement] only ever returns a canonical identifier or
    the empty string *)
Lemma extractASINFromElement_shape (element : HTMLElement) :
  extractASINFromElement element = EmptyString \/ canonical (extractASINFromElement element).
Proof.
  unfold extractASINFromElement. cbv zeta.
  match goal with |- context [truthy ?a && is_asin (str ?a)] =>
    destruct (truthy a); cbn [andb]; [destruct (is_asin (str a)) eqn:Ha|] end.
  - right. apply is_asin_canonical, Ha.
  - destruct (product_link element) as [link|]; [|left; reflexivity].
    destruct (truthy _); [|left; reflexivity].
    destruct (match_dp _) as [m|] eqn:Hm; [|left; reflexivity].
    right. apply is_asin_canonical, (match_dp_is_asin _ _ Hm).
  - destruct (product_link element) as [link|]; [|left; reflexivity].
    destruct (truthy _); [|left; reflexivity].
    destruct (match_dp _) as [m|] eqn:Hm; [|left; reflexivity].
    right. apply is_asin_canonical, (match_dp_is_asin _ _ Hm).
Qed.

Lemma truthy_nonempty (s : string) : truthy (Some s) = false <-> s = EmptyString.
Proof.
  cbn. destruct (String.eqb_spec s EmptyString) as [-> | Hne]; cbn; split; intros H;
    try reflexivity; try discriminate; contradiction.
Qed.

Lemma extractItemData_asin (element : HTMLElement) :
  match extractItemData element with
  | Some item => asin item = resolved_asin element /\ resolved_asin element <> EmptyString
  | None => resolved_asin element = EmptyString
  end.
Proof.
  unfold extractItemData, resolved_asin. cbv zeta.
  destruct (truthy (Some (extractASINFromElement element))) eqn:Ht.
  - rewrite Ht. cbn [negb asin]. split; [reflexivity|].
    intros He. apply truthy_nonempty in He. congruence.
  - apply truthy_nonempty in Ht. rewrite Ht.
    destruct (querySelector sel_asin_element element) as [asinElement|].
    + destruct (truthy (Some (extractASINFromElement asinElement))) eqn:Ht'; cbn [negb asin].
      * split; [reflexivity|]. intros He. apply truthy_nonempty in He. congruence.
      * apply truthy_nonempty, Ht'.
    + reflexivity.
Qed.

Lemma resolved_asin_shape (element : HTMLElement) :
  resolved_asin element = EmptyString \/ canonical (resolved_asin element).
Proof.
  unfold resolved_asin. destruct (truthy _).
  - apply extractASINFromElement_shape.
  - destruct (querySelector _ _); [apply extractASINFromElement_shape | left; reflexivity].
Qed.


End Identifiers.

(** ** Addresses *)



(** ** Prices *)

Lemma includes_char (c : ascii) (s : string) : includes s (String c EmptyString) = has_char c s.
Proof.
  unfold has_char. induction s as [|x s IH]; [reflexivity|].
  cbn [includes count_char]. rewrite IH. unfold startsWith. cbn [String.prefix].
  destruct (ascii_dec c x) as [<- | Hne].
  - rewrite Ascii.eqb_refl. now destruct s.
  - apply Ascii.eqb_neq in Hne. now rewrite Hne.
Qed.

(** no comma is left once the commas are removed *)
Lemma remove_commas (s : string) :
  has_char ","%char (replace_char ","%char EmptyString s) = false.
Proof.
  unfold has_char. induction s as [|x s IH]; [reflexivity|].
  cbn [replace_char]. destruct (Ascii.eqb ","%char x) eqn:Hx; [exact IH|].
  cbn [count_char]. rewrite Hx. exact IH.
Qed.

Lemma remove_commas_count (c : ascii) (s : string) :
  Ascii.eqb ","%char c = false ->
  count_char c (replace_char ","%char EmptyString s) = count_char c s.
Proof.
  intros Hc. induction s as [|x s IH]; [reflexivity|].
  cbn [replace_char]. destruct (Ascii.eqb ","%char x) eqn:Hx.
  - apply Ascii.eqb_eq in Hx. subst x.
    change (count_char c (replace_char ","%char EmptyString s) = count_char c (String ","%char s)).
    cbn [count_char]. rewrite IH, Ascii.eqb_sym, Hc. reflexivity.
  - cbn [count_char]. now rewrite IH.
Qed.

Lemma forall_chars_append (p : ascii -> bool) (a b : string) :
  forall_chars p (a +:+ b) = forall_chars p a && forall_chars p b.
Proof.
  induction a as [|x a IH]; simpl; [reflexivity|].
  now rewrite IH, andb_assoc.
Qed.

Lemma forall_chars_weaken (p q : ascii -> bool) (s : string) :
  (forall c, p c = true -> q c = true) -> forall_chars p s = true -> forall_chars q s = true.
Proof.
  intros Hpq. induction s as [|x s IH]; cbn; [reflexivity|].
  intros H. apply andb_true_iff in H as [Hx Hs]. now rewrite (Hpq x Hx), (IH Hs).
Qed.

Lemma span_fst (p : ascii -> bool) (s : string) : forall_chars p (fst (span p s)) = true.
Proof.
  induction s as [|x s IH]; cbn; [reflexivity|].
  destruct (p x) eqn:Hx; [|reflexivity].
  destruct (span p s) as [a b]. cbn in *. now rewrite Hx.
Qed.

Lemma digit_is_amount (c : ascii) : is_digit c = true -> is_amount_char c = true.
Proof. unfold is_amount_char, is_digit_or_comma. now intros ->. Qed.

Lemma digit_or_comma_is_amount (c : ascii) : is_digit_or_comma c = true -> is_amount_char c = true.
Proof. unfold is_amount_char. now intros ->. Qed.

Lemma price_group_amount (s m : string) :
  price_group s = Some m -> m <> EmptyString /\ forall_chars is_amount_char m = true.
Proof.
  unfold price_group. pose proof (span_fst is_digit_or_comma s) as Hw.
  destruct (span is_digit_or_comma s) as [whole rest]. cbn [fst] in Hw.
  destruct (String.eqb_spec whole EmptyString) as [-> | Hne]; [discriminate|].
  assert (Hwa : forall_chars is_amount_char whole = true)
    by (exact (forall_chars_weaken _ _ _ digit_or_comma_is_amount Hw)).
  assert (Hd : forall r, forall_chars is_amount_char (fst (span is_digit r)) = true)
    by (intros r; exact (forall_chars_weaken _ _ _ digit_is_amount (span_fst is_digit r))).
  assert (Hnonempty : forall t, whole +:+ t <> EmptyString)
    by (intros t; destruct whole; [contradiction | discriminate]).
  assert (Happ : forall t, forall_chars is_amount_char t = true ->
                           forall_chars is_amount_char (whole +:+ t) = true)
    by (intros t Ht; now rewrite forall_chars_append, Hwa, Ht).
  destruct rest as [|c rest].
  - intros [= <-]. split; [apply Hnonempty | apply Happ; exact (Hd EmptyString)].
  - destruct (Ascii.eqb_spec c "."%char) as [-> | Hc].
    + intros [= <-]. split; [apply Hnonempty | apply Happ].
      change (is_amount_char "."%char &&
              forall_chars is_amount_char (fst (span is_digit rest)) = true).
      now rewrite Hd.
    + assert (Hm : Some (whole +:+ fst (span is_digit (String c rest))) = Some m ->
                   m <> EmptyString /\ forall_chars is_amount_char m = true).
      { intros [= <-]. split; [apply Hnonempty | apply Happ; exact (Hd (String c rest))]. }
      each_char c; try exact Hm; contradiction.
Qed.

Lemma two_digits_amount (s m : string) :
  two_digits s = Some m -> m <> EmptyString /\ forall_chars is_amount_char m = true.
Proof.
  destruct s as [|a [|b s]]; cbn; try discriminate.
  destruct (is_digit a) eqn:Ha; destruct (is_digit b) eqn:Hb; cbn; try discriminate.
  intros [= <-]. split; [discriminate|]. cbn.
  now rewrite (digit_is_amount a Ha), (digit_is_amount b Hb).
Qed.

Lemma cents_amount (s m : string) :
  cents s = Some m -> forall_chars is_amount_char m = true.
Proof.
  assert (Hd : forall t, two_digits t = Some m -> forall_chars is_amount_char m = true)
    by (intros t Ht; apply (two_digits_amount t m Ht)).
  destruct s as [|c s]; [apply Hd|]. cbn [cents].
  assert (Hpoint : match two_digits s with
                   | Some d => Some (String "."%char d)
                   | None => two_digits (String "."%char s)
                   end = Some m -> forall_chars is_amount_char m = true).
  { destruct (two_digits s) as [d|] eqn:Hs; [|apply Hd].
    intros [= <-]. cbn. apply (two_digits_amount s d Hs). }
  each_char c; try exact Hpoint; apply Hd.
Qed.

Lemma price_group2_amount (s m : string) :
  price_group2 s = Some m -> m <> EmptyString /\ forall_chars is_amount_char m = true.
Proof.
  revert m. induction s as [|c s IH]; intros m; cbn; [discriminate|].
  destruct (is_digit_or_comma c) eqn:Hc; [|discriminate].
  destruct (price_group2 s) as [m'|].
  - intros [= <-]. split; [discriminate|]. cbn.
    rewrite (digit_or_comma_is_amount c Hc). now apply (IH m').
  - destruct (cents s) as [m'|] eqn:Hs; [|discriminate].
    intros [= <-]. split; [discriminate|]. cbn.
    now rewrite (digit_or_comma_is_amount c Hc), (cents_amount s m' Hs).
Qed.

Lemma dollar_then_some (group : string -> option string) (s m : string) :
  dollar_then group s = Some m -> exists t, group t = Some m.
Proof.
  destruct s as [|c s]; cbn [dollar_then]; [intros H; now exists EmptyString|].
  assert (Hd : match group s with Some m => Some m | None => group (String c s) end = Some m ->
               exists t, group t = Some m).
  { destruct (group s) eqn:Hs; [intros [= <-]; now exists s | intros H; now exists (String c s)]. }
  assert (Hn : group (String c s) = Some m -> exists t, group t = Some m)
    by (intros H; now exists (String c s)).
  each_char c; try exact Hn; exact Hd.
Qed.

(** what the two price patterns capture is a non-empty string of digits,
    commas and points *)
Lemma match_price_amount (text m : string) :
  match_price text = Some m \/ match_price2 text = Some m ->
  m <> EmptyString /\ forall_chars is_amount_char m = true.
Proof.
  intros [H | H]; apply leftmost_some in H as (b & a & _ & H);
    apply dollar_then_some in H as [t Ht].
  - exact (price_group_amount t m Ht).
  - exact (price_group2_amount t m Ht).
Qed.

Lemma amount_no_dollar (s : string) :
  forall_chars is_amount_char s = true -> count_char "$"%char s = 0.
Proof.
  induction s as [|c s IH]; cbn; [reflexivity|].
  intros H. apply andb_true_iff in H as [Hc Hs]. rewrite (IH Hs).
  each_char c; try reflexivity; discriminate Hc.
Qed.

Lemma has_char_false (c : ascii) (s : string) : has_char c s = false <-> count_char c s = 0.
Proof.
  unfold has_char. rewrite negb_false_iff. apply Nat.eqb_eq.
Qed.

Lemma startsWith_head (c : ascii) (s : string) :
  startsWith (String c s) (String c EmptyString) = true.
Proof.
  unfold startsWith. cbn [String.prefix].
  destruct (ascii_dec c c) as [_ | Hne]; [now destruct s | contradiction].
Qed.

Lemma formatPrice_cases (price : string) :
  formatPrice price =
    if String.eqb price EmptyString then EmptyString
    else if has_char "$"%char (replace_char ","%char EmptyString price)
         then replace_char ","%char EmptyString price
         else String "$"%char (replace_char ","%char EmptyString price).
Proof. unfold formatPrice. cbv zeta. now rewrite includes_char. Qed.

(** C8, as the code has it.  The output of [formatPrice] holds no comma.
    When the price without its commas holds no currency symbol, the output
    is the symbol followed by it, so that the symbol leads and occurs
    exactly once; this is the case of every amount that the two price
    patterns capture from text.  When the price already holds a currency
    symbol, wherever and however often, it is returned without its commas
    and nothing is added. *)
Theorem formatPrice_format (price : string) :
  has_char ","%char (formatPrice price) = false /\
  (price <> EmptyString ->
   has_char "$"%char (replace_char ","%char EmptyString price) = false ->
     formatPrice price = String "$"%char (replace_char ","%char EmptyString price) /\
     leading_once (formatPrice price)) /\
  (has_char "$"%char (replace_char ","%char EmptyString price) = true ->
     formatPrice price = replace_char ","%char EmptyString price) /\
  (forall text, match_price text = Some price \/ match_price2 text = Some price ->
     leading_once (formatPrice price)).
Proof.
  assert (Hplain : price <> EmptyString ->
            has_char "$"%char (replace_char ","%char EmptyString price) = false ->
            formatPrice price = String "$"%char (replace_char ","%char EmptyString price) /\
            leading_once (formatPrice price)).
  { intros Hne Hno. rewrite formatPrice_cases.
    destruct (String.eqb_spec price EmptyString) as [-> | _]; [contradiction|].
    rewrite Hno. split; [reflexivity|]. split; [apply startsWith_head|].
    apply has_char_false in Hno. cbn [count_char]. now rewrite Hno. }
  split; [|split; [exact Hplain|split]].
  - rewrite formatPrice_cases.
    destruct (String.eqb price EmptyString); [reflexivity|].
    destruct (has_char "$"%char _); [apply remove_commas|].
    apply has_char_false. cbn [count_char].
    pose proof (remove_commas price) as H. apply has_char_false in H. now rewrite H.
  - intros Hyes. rewrite formatPrice_cases, Hyes.
    destruct (String.eqb_spec price EmptyString) as [-> | _]; [discriminate Hyes | reflexivity].
  - intros text Hm. apply match_price_amount in Hm as [Hne Ha].
    apply Hplain; [exact Hne|]. apply has_char_false.
    rewrite remove_commas_count by reflexivity. apply amount_no_dollar, Ha.
Qed.

(** ** The CSV file *)

Lemma append_cons (c : ascii) (s t : string) : String c s +:+ t = String c (s +:+ t).
Proof. reflexivity. Qed.

Lemma append_empty_l (t : string) : EmptyString +:+ t = t.
Proof. reflexivity. Qed.

Ltac push_append := repeat (rewrite append_cons || rewrite append_empty_l).

Lemma append_empty_r (s : string) : s +:+ EmptyString = s.
Proof. induction s as [|c s IH]; push_append; [reflexivity | now rewrite IH]. Qed.

Lemma append_assoc (a b c : string) : (a +:+ b) +:+ c = a +:+ (b +:+ c).
Proof. induction a as [|x a IH]; push_append; [reflexivity | now rewrite IH]. Qed.

Lemma snoc_append (f : string) (c : ascii) (x : string) : snoc f c +:+ x = f +:+ String c x.
Proof. unfold snoc. now rewrite append_assoc. Qed.

Lemma needs_quotes_plain (s : string) : needs_quotes s = false -> forall_chars is_plain s = true.
Proof.
  unfold needs_quotes, has_char. induction s as [|c s IH]; [reflexivity|].
  cbn [count_char forall_chars]. unfold is_plain at 1, is_comma, is_quote, is_newline.
  rewrite (Ascii.eqb_sym c ","%char), (Ascii.eqb_sym c dquote), (Ascii.eqb_sym c "010"%char).
  destruct (Ascii.eqb ","%char c); [discriminate|].
  destruct (Ascii.eqb dquote c); [cbn; rewrite orb_true_r; discriminate|].
  destruct (Ascii.eqb "010"%char c); [cbn; rewrite !orb_true_r; discriminate|].
  cbn. exact IH.
Qed.

Lemma escapeCSVField_cases (field : string) :
  escapeCSVField (Some field) =
    if needs_quotes field
    then String dquote (replace_char dquote (String dquote (String dquote EmptyString)) field
                        +:+ String dquote EmptyString)
    else field.
Proof. unfold escapeCSVField, needs_quotes. now rewrite !includes_char. Qed.

Lemma parse_after_field (st : csv_state) (field : string) (row : list string) (rest : string) :
  delimited rest = true -> st <> Quoted -> (st = FieldStart -> field = EmptyString) ->
  parse_csv_from st field row rest = after_field field row rest.
Proof.
  intros Hd Hst Hf. destruct rest as [|c rest].
  - destruct st; try reflexivity; contradiction.
  - cbn [delimited] in Hd. unfold is_comma, is_newline in Hd.
    apply orb_true_iff in Hd as [Hc | Hc]; apply Ascii.eqb_eq in Hc; subst c;
      destruct st; try reflexivity; try contradiction.
Qed.

Lemma parse_plain (x : string) :
  forall_chars is_plain x = true ->
  forall (st : csv_state) (field : string) (row : list string) (rest : string),
    st = Unquoted \/ st = FieldStart ->
    parse_csv_from st field row (x +:+ rest) =
    parse_csv_from (match x with EmptyString => st | _ => Unquoted end) (field +:+ x) row rest.
Proof.
  induction x as [|c x IH]; intros Hx st field row rest Hst.
  - now rewrite append_empty_r.
  - cbn [forall_chars] in Hx. apply andb_true_iff in Hx as [Hc Hx].
    unfold is_plain in Hc. apply negb_true_iff in Hc.
    apply orb_false_iff in Hc as [Hc Hn]. apply orb_false_iff in Hc as [Hc Hq].
    push_append.
    assert (Hstep : parse_csv_from st field row (String c (x +:+ rest)) =
                    parse_csv_from Unquoted (snoc field c) row (x +:+ rest))
      by (destruct Hst as [-> | ->]; cbn [parse_csv_from]; now rewrite Hq, Hc, Hn).
    rewrite Hstep, (IH Hx Unquoted (snoc field c) row rest (or_introl eq_refl)), snoc_append.
    now destruct x.
Qed.

Lemma parse_quoted (x : string) :
  forall (field : string) (row : list string) (rest : string),
    parse_csv_from Quoted field row
      (replace_char dquote (String dquote (String dquote EmptyString)) x +:+ String dquote rest) =
    parse_csv_from QuoteSeen (field +:+ x) row rest.
Proof.
  induction x as [|c x IH]; intros field row rest.
  - now rewrite append_empty_r.
  - cbn [replace_char]. destruct (Ascii.eqb dquote c) eqn:Hc.
    + apply Ascii.eqb_eq in Hc. subst c. push_append. cbn [parse_csv_from].
      change (is_quote dquote) with true. cbn iota.
      now rewrite IH, snoc_append.
    + push_append. cbn [parse_csv_from]. unfold is_quote.
      rewrite Ascii.eqb_sym, Hc. now rewrite IH, snoc_append.
Qed.

(** reading an escaped field back gives the field *)
Lemma parse_escaped (x : string) (row : list string) (rest : string) :
  delimited rest = true ->
  parse_csv_from FieldStart EmptyString row (escapeCSVField (Some x) +:+ rest) =
  after_field x row rest.
Proof.
  intros Hd. rewrite escapeCSVField_cases. destruct (needs_quotes x) eqn:Hq.
  - push_append. rewrite append_assoc. push_append.
    cbn [parse_csv_from]. change (is_quote dquote) with true. cbn iota.
    rewrite parse_quoted. push_append.
    apply parse_after_field; [exact Hd | discriminate | discriminate].
  - rewrite (parse_plain x (needs_quotes_plain x Hq) FieldStart EmptyString row rest)
      by (right; reflexivity).
    push_append.
    apply parse_after_field; [exact Hd | now destruct x | now destruct x].
Qed.

Lemma escapeCSVField_or_empty (s : string) :
  escapeCSVField (Some s ||| Some EmptyString) = escapeCSVField (Some s).
Proof.
  unfold js_or. destruct (truthy (Some s)) eqn:Ht; [reflexivity|].
  apply truthy_nonempty in Ht. now subst s.
Qed.

Lemma parse_row (item : item) (rest : string) :
  delimited rest = true ->
  parse_csv_from FieldStart EmptyString [] (csv_row item +:+ rest) =
  after_field (image item) [name item; asin item; price item; url item] rest.
Proof.
  intros Hd. unfold csv_row. cbv zeta. rewrite !escapeCSVField_or_empty, !append_assoc.
  rewrite parse_escaped by reflexivity. push_append. cbn [after_field]. 
  change (is_comma ","%char) with true. cbn iota.
  rewrite parse_escaped by reflexivity. push_append. cbn [after_field].
  change (is_comma ","%char) with true. cbn iota.
  rewrite parse_escaped by reflexivity. push_append. cbn [after_field].
  change (is_comma ","%char) with true. cbn iota.
  rewrite parse_escaped by reflexivity. push_append. cbn [after_field].
  change (is_comma ","%char) with true. cbn iota.
  rewrite parse_escaped by exact Hd. reflexivity.
Qed.

Lemma parse_rows (items : list item) (first : item) :
  parse_csv_from FieldStart EmptyString [] (String.concat newline (map csv_row (first :: items))) =
  Some (map fields (first :: items)).
Proof.
  revert first. induction items as [|second items IH]; intros first.
  - cbn [map String.concat]. rewrite <- (append_empty_r (csv_row first)).
    now rewrite parse_row.
  - change (String.concat newline (map csv_row (first :: second :: items)))
      with (csv_row first +:+ (newline +:+ String.concat newline (map csv_row (second :: items)))).
    rewrite parse_row by reflexivity. unfold newline. push_append. cbn [after_field].
    change (is_comma "010"%char) with false. cbn iota.
    fold newline. now rewrite IH.
Qed.

Lemma parse_header (rest : string) :
  parse_csv_from FieldStart EmptyString []
    ("Item Name,ASIN,Price,URL,Image URL" +:+ (newline +:+ rest)) =
  option_map (cons headers) (parse_csv_from FieldStart EmptyString [] rest).
Proof. reflexivity. Qed.

(** C9. [exportToCSV] writes, for a non-empty collection, the header row
    [Item Name,ASIN,Price,URL,Image URL] followed by one row for each
    record, and a CSV reader gets from the file the header and, record by
    record, the five fields as they were.  [escapeCSVField] wraps a field
    that holds a comma, a quote or a line feed in quotes, with the quotes
    inside doubled, and leaves any other field as it is; reading an escaped
    field back gives the field exactly, so in particular a field that holds
    a comma, a quote and a line feed. *)
Theorem exportToCSV_round_trip (today : string) (items : list item) :
  (items <> [] ->
     exportToCSV today items =
       Download "text/csv;charset=utf-8;" ("amazon-wishlist-" +:+ today +:+ ".csv")
         (String.concat newline ("Item Name,ASIN,Price,URL,Image URL" :: map csv_row items)) /\
     parse_csv (csvContent items) =
       Some (["Item Name"; "ASIN"; "Price"; "URL"; "Image URL"] :: map fields items)) /\
  (forall field, escapeCSVField (Some field) =
     if has_char ","%char field || has_char dquote field || has_char "010"%char field
     then String dquote (replace_char dquote (String dquote (String dquote EmptyString)) field
                         +:+ String dquote EmptyString)
     else field) /\
  (forall field, decodeCSVField (escapeCSVField (Some field)) = Some field).
Proof.
  split; [|split; [exact escapeCSVField_cases|]].
  - intros Hne. destruct items as [|first items]; [contradiction|]. split; [reflexivity|].
    unfold parse_csv, csvContent. cbv zeta.
    change (String.concat newline (String.concat "," headers :: map csv_row (first :: items)))
      with ("Item Name,ASIN,Price,URL,Image URL" +:+
            (newline +:+ String.concat newline (map csv_row (first :: items)))).
    now rewrite parse_header, parse_rows.
  - intros field. unfold decodeCSVField, parse_csv.
    rewrite <- (append_empty_r (escapeCSVField (Some field))).
    now rewrite parse_escaped.
Qed.

(** ** The exported identifier utility *)

Lemma take_drop_append (a b : string) :
  take (String.length a) (a +:+ b) = a /\ drop (String.length a) (a +:+ b) = b.
Proof.
  induction a as [|c a [IHt IHd]]; [split; [now destruct b | reflexivity]|].
  rewrite append_cons. cbn [String.length take drop]. now rewrite IHt, IHd.
Qed.

Lemma take_drop (n : nat) (s : string) : take n s +:+ drop n s = s.
Proof.
  revert s. induction n as [|n IH]; intros s; [reflexivity|].
  destruct s as [|c s]; [reflexivity|]. cbn [take drop]. now rewrite append_cons, IH.
Qed.

Lemma token_here_hit (tok post : string) :
  canonical tok -> word_ends post = true -> token_here false (tok +:+ post) = Some tok.
Proof.
  intros [Hl Hu] Hpost. unfold token_here.
  destruct (take_drop_append tok post) as [Ht Hd]. rewrite Hl in Ht, Hd.
  rewrite Ht, Hd, Hl, Hu. cbn [negb andb Nat.eqb].
  destruct post as [|c post]; [reflexivity|]. cbn [word_ends] in Hpost.
  apply negb_true_iff in Hpost. now rewrite Hpost.
Qed.

(** the pattern matches at a position exactly when a bare token stands
    there *)
Lemma token_here_bare (after_word : bool) (s tok : string) :
  token_here after_word s = Some tok <-> bare_token_at after_word s 0 tok.
Proof.
  split.
  - unfold token_here. destruct after_word; [discriminate|]. cbn [negb andb].
    destruct (String.length (take 10 s) =? 10) eqn:Hl; [|discriminate].
    destruct (forall_chars is_upper_alnum (take 10 s)) eqn:Hu; [|discriminate].
    apply Nat.eqb_eq in Hl. cbn [andb]. intros H.
    assert (Htok : take 10 s = tok /\ word_ends (drop 10 s) = true).
    { destruct (drop 10 s) as [|c r]; [now injection H|].
      cbn [word_ends]. destruct (is_word c); [discriminate | now injection H]. }
    destruct Htok as [<- Hpost].
    exists EmptyString, (drop 10 s). rewrite append_empty_l, take_drop.
    split; [reflexivity|]. split; [reflexivity|]. split; [split; assumption|].
    split; [reflexivity | exact Hpost].
  - intros (pre & post & -> & Hn & Htok & Hend & Hpost).
    destruct pre; [|discriminate]. cbn [ends_word] in Hend. subst after_word.
    rewrite append_empty_l. now apply token_here_hit.
Qed.

Lemma bare_token_shift (after_word : bool) (c : ascii) (s : string) (n : nat) (tok : string) :
  bare_token_at after_word (String c s) (S n) tok <-> bare_token_at (is_word c) s n tok.
Proof.
  split.
  - intros (pre & post & Hs & Hn & Htok & Hend & Hpost).
    destruct pre as [|c' pre]; [discriminate|]. rewrite append_cons in Hs.
    injection Hs as <- ->. injection Hn as Hn.
    exists pre, post. split; [reflexivity|]. split; [exact Hn|]. split; [exact Htok|].
    split; assumption.
  - intros (pre & post & -> & Hn & Htok & Hend & Hpost).
    exists (String c pre), post. rewrite append_cons. cbn [String.length ends_word].
    split; [reflexivity|]. split; [now f_equal|]. split; [exact Htok|]. split; assumption.
Qed.

Lemma match_token_from_unfold (after_word : bool) (s : string) :
  match_token_from after_word s =
    match token_here after_word s with
    | Some m => Some m
    | None =>
        match s with
        | EmptyString => None
        | String c s' => match_token_from (is_word c) s'
        end
    end.
Proof. destruct s; reflexivity. Qed.

(** the scan returns the leftmost bare token *)
Lemma match_token_leftmost (n : nat) :
  forall (s : string) (after_word : bool) (tok : string),
    bare_token_at after_word s n tok ->
    (forall m tok', m < n -> ~ bare_token_at after_word s m tok') ->
    match_token_from after_word s = Some tok.
Proof.
  induction n as [|n IH]; intros s after_word tok Hat Hleft; rewrite match_token_from_unfold.
  - apply token_here_bare in Hat. now rewrite Hat.
  - destruct (token_here after_word s) as [t|] eqn:Ht.
    + apply token_here_bare in Ht. exfalso. apply (Hleft 0 t); [lia | exact Ht].
    + destruct s as [|c s].
      * destruct Hat as (pre & post & Hs & Hn & _). destruct pre; discriminate.
      * apply IH; [exact (proj1 (bare_token_shift after_word c s n tok) Hat)|].
        intros m tok' Hm Hat'. apply (Hleft (S m) tok'); [lia|].
        exact (proj2 (bare_token_shift after_word c s m tok') Hat').
Qed.

Lemma forall_chars_get (p : ascii -> bool) (s : string) (n : nat) (c : ascii) :
  forall_chars p s = true -> String.get n s = Some c -> p c = true.
Proof.
  revert n. induction s as [|x s IH]; intros n Hs Hget; [discriminate|].
  cbn [forall_chars] in Hs. apply andb_true_iff in Hs as [Hx Hs].
  destruct n as [|n]; cbn [String.get] in Hget; [now injection Hget as <- | eauto].
Qed.

Lemma get_append_l (a b : string) (n : nat) :
  n < String.length a -> String.get n (a +:+ b) = String.get n a.
Proof.
  revert n. induction a as [|x a IH]; intros n Hn; cbn [String.length] in Hn; [lia|].
  rewrite append_cons. destruct n as [|n]; [reflexivity|]. cbn [String.get]. apply IH. lia.
Qed.

Lemma get_append_r (a b : string) : String.get (String.length a) (a +:+ b) = String.get 0 b.
Proof.
  induction a as [|x a IH]; [reflexivity|]. rewrite append_cons. exact IH.
Qed.

(** no bare token starts within a stretch that holds no upper-case letter
    and no digit *)
Lemma no_token_within (after_word : bool) (pre rest : string) (m : nat) (tok : string) :
  forall_chars not_upper_alnum pre = true -> m < String.length pre ->
  ~ bare_token_at after_word (pre +:+ rest) m tok.
Proof.
  intros Hpre Hm (pre' & post' & Hs & Hn & [Hl Hu] & _).
  assert (Hget : String.get m (pre +:+ rest) = String.get 0 (tok +:+ post'))
    by (rewrite Hs, <- Hn; apply get_append_r).
  rewrite (get_append_l pre rest m Hm) in Hget.
  destruct tok as [|c tok]; [discriminate|].
  rewrite append_cons in Hget. cbn [String.get] in Hget.
  pose proof (forall_chars_get _ _ _ _ Hpre Hget) as Hc.
  cbn [forall_chars] in Hu. apply andb_true_iff in Hu as [Hu _].
  unfold not_upper_alnum in Hc. rewrite Hu in Hc. discriminate.
Qed.

Lemma js_or_truthy (a b : option string) : truthy a = true -> a ||| b = a.
Proof. unfold js_or. now intros ->. Qed.

Lemma js_or_falsy (a b : option string) : truthy a = false -> a ||| b = b.
Proof. unfold js_or. now intros ->. Qed.

Section Lenient.
Context {P : Platform}.

(** C10, as the code has it.  When [extractASIN] is given an element that
    has no address, it
    returns the [data-asin] attribute, or else the [data-item-id]
    attribute, as it stands: neither checked to be ten letters and digits
    nor put in upper case.  When it is given a string that matches neither
    the product path nor the [asin] parameter, it looks at the leftmost
    bare token of ten upper-case letters and digits, at whatever offset of
    the string the token stands, and returns it when it starts with [A],
    [B] or a digit.  [extractASINFromElement] only ever returns a canonical
    identifier or the empty string, so the two functions disagree on some
    elements: on an identifier attribute in lower case, and on one that is
    no identifier at all. *)
Theorem extractASIN_lenient :
  (forall input v,
     truthy (href_property input ||| getAttribute "href" input) = false ->
     v <> EmptyString ->
     getAttribute "data-asin" input = Some v \/
     (truthy (getAttribute "data-asin" input) = false /\
      getAttribute "data-item-id" input = Some v) ->
     extractASIN (inl input) = v) /\
  (forall url n tok,
     bare_token_at false url n tok ->
     (forall m tok', m < n -> ~ bare_token_at false url m tok') ->
     match_dp url = None -> match_asin_param url = None ->
     extractASIN (inr url) = if looks_like_asin tok then tok else EmptyString) /\
  (forall element,
     extractASINFromElement element = EmptyString \/
     canonical (extractASINFromElement element)) /\
  (exists input,
     extractASIN (inl input) = "b000000000" /\
     extractASINFromElement input = "B000000000") /\
  (exists input,
     extractASIN (inl input) = "none" /\ extractASINFromElement input = EmptyString).
Proof.
  split; [|split; [|split; [exact extractASINFromElement_shape|split]]].
  - intros input v Hurl Hv Hattr. unfold extractASIN. cbv zeta.
    rewrite (js_or_falsy _ (Some EmptyString) Hurl). cbn [truthy String.eqb negb].
    assert (Hvt : truthy (Some v) = true)
      by (destruct (truthy (Some v)) eqn:Ht; [reflexivity | apply truthy_nonempty in Ht; contradiction]).
    assert (Hasin : getAttribute "data-asin" input ||| getAttribute "data-item-id" input = Some v).
    { destruct Hattr as [-> | [Hno ->]]; [now apply js_or_truthy | now apply js_or_falsy]. }
    rewrite Hasin, (js_or_truthy _ _ Hvt), Hvt. reflexivity.
  - intros url n tok Hat Hleft Hdp Hparam.
    unfold extractASIN, extractASIN_url. rewrite Hdp, Hparam. unfold match_token.
    rewrite (match_token_leftmost n url false tok Hat Hleft).
    destruct Hat as (pre & post & -> & _ & [Hl Hu] & _).
    assert (Hne : truthy (Some (pre +:+ tok +:+ post)) = true).
    { destruct (truthy _) eqn:Ht; [reflexivity|]. apply truthy_nonempty in Ht.
      destruct pre; [destruct tok; discriminate | discriminate]. }
    rewrite Hne, Hl. cbn [negb Nat.eqb andb].
    destruct (looks_like_asin tok); [|reflexivity].
    apply toUpperCase_canonical. split; assumption.
  - exists (Element [] (StartTag "div" [("data-asin", "b000000000")]) []).
    split; reflexivity.
  - exists (Element [] (StartTag "div" [("data-asin", "none")]) []).
    split; reflexivity.
Qed.

End Lenient.

(** ** Addresses *)










Section Addresses.
Context {P : Platform}.

(** the platform's URL parser reads the plain addresses as the URL Standard
    has them *)
Hypothesis URL_parse_plain : forall s u, plain_URL s = Some u -> URL_parse s = Some u.


End Addresses.

(** * Examples *)

Section Examples.
#[local] Existing Instance example_platform.

(** Scenario A: three entries, returned in node order; the first scroll
    brings nothing new and the run stops. *)
Lemma scenario_A : scrapeWishlist static_pages = (Return scenario_A_records, 1).
Proof. vm_compute. reflexivity. Qed.

(** C1 on Scenario A. *)
Lemma scrapeWishlist_deduplicates_scenario_A :
  List.NoDup (map asin scenario_A_records).
Proof.
  apply (proj1 (scrapeWishlist_deduplicates static_pages) scenario_A_records 1).
  vm_compute. reflexivity.
Defined.

(** C2 on a page that shows one more entry after every scroll: the run
    stops after ten scrolls, with eleven records. *)
Lemma scrapeWishlist_scroll_bound_growing :
  snd (scrapeWishlist growing_pages) <= maxScrollAttempts /\
  snd (scrapeWishlist growing_pages) = 10 /\
  (exists records, fst (scrapeWishlist growing_pages) = Return records /\ length records = 11).
Proof.
  split; [exact (proj1 (scrapeWishlist_scroll_bound growing_pages))|].
  split; [vm_compute; reflexivity|].
  eexists. split; vm_compute; reflexivity.
Defined.

(** X23 on Scenarios B, C and D. *)
Lemma scrapeWishlist_outcome_scenarios :
  scrapeWishlist (fun _ => other_page) = (Throw NotAWishlistPage, 0) /\
  scrapeWishlist (fun _ => private_page) = (Throw PrivateOrInaccessible, 0) /\
  scrapeWishlist (fun _ => anonymous_page) = (Throw NoItemsFound, 1) /\
  (isWishlistPage other_page = false <->
     fst (scrapeWishlist (fun _ => other_page)) = Throw NotAWishlistPage).
Proof.
  split; [vm_compute; reflexivity|]. split; [vm_compute; reflexivity|].
  split; [vm_compute; reflexivity|].
  symmetry. exact (proj1 (proj2 (scrapeWishlist_outcome (fun _ => other_page)))).
Defined.

(** Scenario E: a descriptor that is no JSON is passed over, and the
    image comes from the next source; a descriptor that is one gives its
    last key. *)
Lemma scenario_E :
  fst (scrapeWishlist (fun _ => image_page)) =
    Return [ Item "Unknown Item" "B000000006" "N/A" "https://www.amazon.com/dp/B000000006"
                  "https://www.amazon.com/images/I/lamp.jpg";
             Item "Unknown Item" "B000000007" "N/A" "https://www.amazon.com/dp/B000000007"
                  "https://m.media/large.jpg" ].
Proof. vm_compute. reflexivity. Qed.

(** C4 on a private list and on the list of Scenario A with the same phrase
    added to it. *)
Lemma isPrivateWishlist_cases_private_page :
  isPrivateWishlist private_page = true /\
  isPrivateWishlist (page wishlist_url (Text "This list is private" :: three_entries)) = false.
Proof.
  split; [vm_compute; reflexivity|].
  apply (proj1 (isPrivateWishlist_cases _)). vm_compute. discriminate.
Defined.

(** C5 on the grid page: the first two strategies miss, the third matches
    the entry and is the result, although the fourth matches a node too. *)
Lemma findWishlistItems_first_strategy_grid :
  findWishlistItems grid_page = document_querySelectorAll sel_grid_items grid_page /\
  length (document_querySelectorAll sel_product_cards grid_page) = 1 /\
  document_querySelectorAll sel_product_cards grid_page <> findWishlistItems grid_page /\
  (findWishlistItems grid_page = [] \/
   exists before sel after,
     strategies = before ++ sel :: after /\
     findWishlistItems grid_page = document_querySelectorAll sel grid_page).
Proof.
  split; [vm_compute; reflexivity|]. split; [vm_compute; reflexivity|].
  split; [vm_compute; discriminate|].
  destruct (proj2 (findWishlistItems_first_strategy grid_page))
    as [[H _] | (before & sel & after & Hs & _ & _ & Hf)].
  - left. exact H.
  - right. exists before, sel, after. split; assumption.
Defined.






(** C8, as stated, fails on a machine-readable price that is a range: the
    output holds the currency symbol twice. *)
Lemma extractItemPrice_range :
  map extractItemPrice (findWishlistItems price_range_page) = ["$10.00 - $20.00"] /\
  formatPrice "$10.00 - $20.00" = "$10.00 - $20.00" /\
  count_char "$"%char (formatPrice "$10.00 - $20.00") = 2 /\
  ~ leading_once (formatPrice "$10.00 - $20.00").
Proof.
  split; [vm_compute; reflexivity|]. split; [vm_compute; reflexivity|].
  split; [vm_compute; reflexivity|]. intros [_ H]. vm_compute in H. discriminate.
Qed.

(** C8, as amended, on a price of Scenario A. *)
Lemma formatPrice_format_amount :
  match_price "$1,299.50" = Some "1,299.50" /\
  formatPrice "1,299.50" = "$1299.50" /\
  leading_once (formatPrice "1,299.50").
Proof.
  split; [vm_compute; reflexivity|]. split; [vm_compute; reflexivity|].
  apply (proj2 (proj2 (proj2 (formatPrice_format "1,299.50"))) "$1,299.50").
  left. vm_compute. reflexivity.
Defined.

End Examples.

(** C9 on a record with such a field. *)
Lemma exportToCSV_round_trip_awkward :
  has_char ","%char awkward_field && has_char dquote awkward_field
    && has_char "010"%char awkward_field = true /\
  decodeCSVField (escapeCSVField (Some awkward_field)) = Some awkward_field /\
  parse_csv (csvContent [Item awkward_field "B000000003" "$7" "u" EmptyString]) =
    Some [ ["Item Name"; "ASIN"; "Price"; "URL"; "Image URL"];
           [awkward_field; "B000000003"; "$7"; "u"; EmptyString] ].
Proof.
  split; [vm_compute; reflexivity|].
  split; [exact (proj2 (proj2 (exportToCSV_round_trip EmptyString [])) awkward_field)|].
  apply (proj1 (exportToCSV_round_trip EmptyString
                  [Item awkward_field "B000000003" "$7" "u" EmptyString])).
  discriminate.
Defined.

(** C10 on a sentence that holds a bare token. *)
Lemma extractASIN_lenient_sentence :
  extractASIN (P := example_platform) (inr "see B000000000, ok") = "B000000000".
Proof.
  apply (proj1 (proj2 (extractASIN_lenient (P := example_platform)))
           "see B000000000, ok" 4 "B000000000"); try (vm_compute; reflexivity).
  - exists "see ", ", ok". repeat split; vm_compute; reflexivity.
  - intros m tok' Hm. apply (no_token_within false "see " "B000000000, ok" m tok').
    + vm_compute. reflexivity.
    + exact Hm.
Defined.

(** C10, as stated, fails on a string in which a bare token that begins
    with [B] stands after one that begins otherwise: neither the product
    path nor the [asin] parameter matches, only the leftmost token is looked
    at, and nothing is returned. *)
Lemma extractASIN_later_token :
  bare_token_at false "CCCCCCCCCC B000000000" 11 "B000000000" /\
  looks_like_asin "B000000000" = true /\
  match_dp "CCCCCCCCCC B000000000" = None /\
  match_asin_param "CCCCCCCCCC B000000000" = None /\
  extractASIN (P := example_platform) (inr "CCCCCCCCCC B000000000") = EmptyString.
Proof.
  split; [|repeat split; vm_compute; reflexivity].
  exists "CCCCCCCCCC ", EmptyString. repeat split; vm_compute; reflexivity.
Qed.

(** * Further properties *)

(** ** The collector, pass by pass *)

Section Passes.
Context {P : Platform}.

(** what one pass through the loop body does to the state *)
Lemma loop_body_pass (pages : nat -> document) (st : run) :
  exists new : list item,
    extractItems (pages (S (scrolls st))) (seenIds st) =
      (new, list_to_set (map asin new) ∪ seenIds st) /\
    seenIds (fst (loop_body pages st)) = list_to_set (map asin new) ∪ seenIds st /\
    scrolls (fst (loop_body pages st)) = S (scrolls st) /\
    ((snd (loop_body pages st) = Next /\ new <> [] /\
      items (fst (loop_body pages st)) = items st ++ new) \/
     (snd (loop_body pages st) = Break /\ new = [] /\
      items (fst (loop_body pages st)) = items st) \/
     (snd (loop_body pages st) = Raise RangeErrorMessage /\
      (max_arguments < N.of_nat (length new))%N /\
      items (fst (loop_body pages st)) = items st)).
Proof.
  destruct (extractItems_new (pages (S (scrolls st))) (seenIds st)) as (new & Hnew & _).
  exists new. split; [exact Hnew|]. unfold loop_body, push_spread. rewrite Hnew.
  destruct (N.leb_spec (N.of_nat (length new)) max_arguments) as [Hle | Hgt].
  - rewrite length_app. destruct new as [|it new]; cbn [length].
    + rewrite Nat.add_0_r, Nat.eqb_refl, app_nil_r. cbn [fst snd seenIds scrolls items].
      split; [reflexivity|]. split; [reflexivity|]. right. left. repeat split.
    + destruct (Nat.eqb_spec (length (items st) + S (length new)) (length (items st))); [lia|].
      cbn [fst snd seenIds scrolls items].
      split; [reflexivity|]. split; [reflexivity|]. left.
      split; [reflexivity|]. split; [discriminate | reflexivity].
  - cbn [fst snd seenIds scrolls items].
    split; [reflexivity|]. split; [reflexivity|]. right. right. repeat split. exact Hgt.
Qed.

(** the loop only appends to the records *)
Lemma scroll_loop_appends (pages : nat -> document) (st : run) :
  scrolls st <= scrolls (fst (scroll_loop pages st)) /\
  (snd (scroll_loop pages st) = None ->
   exists more, items (fst (scroll_loop pages st)) = items st ++ more /\
                scrolls (fst (scroll_loop pages st)) <= scrolls st + length more + 1).
Proof.
  revert st.
  apply (scroll_loop_induction pages (fun st out =>
           scrolls st <= scrolls (fst out) /\
           (snd out = None ->
            exists more, items (fst out) = items st ++ more /\
                         scrolls (fst out) <= scrolls st + length more + 1))).
  - intros st _. cbn [fst snd]. split; [lia|]. intros _. exists [].
    rewrite app_nil_r. split; [reflexivity | lia].
  - intros st st' _ Hbody.
    destruct (loop_body_pass pages st) as (new & _ & _ & Hs & Hcase).
    rewrite Hbody in Hs, Hcase. cbn [fst snd] in *. split; [lia|]. intros _.
    destruct Hcase as [(H & _) | [(_ & _ & Hitems) | (H & _)]]; try discriminate.
    exists []. rewrite Hitems, Hs, app_nil_r. split; [reflexivity | cbn; lia].
  - intros st st' message _ Hbody.
    destruct (loop_body_pass pages st) as (new & _ & _ & Hs & _).
    rewrite Hbody in Hs. cbn [fst snd] in *. split; [lia | discriminate].
  - intros st st' _ Hbody [Hge IH].
    destruct (loop_body_pass pages st) as (new & _ & _ & Hs & Hcase).
    rewrite Hbody in Hs, Hcase. cbn [fst snd] in Hs, Hcase. split; [lia|]. intros Hnone.
    destruct (IH Hnone) as (more & Hmore & Hle).
    destruct Hcase as [(_ & Hnew & Hitems) | [(H & _) | (H & _)]]; try discriminate.
    exists (new ++ more). rewrite Hmore, Hitems, <- app_assoc, length_app.
    split; [reflexivity|]. destruct new; [contradiction|]. cbn [length]. lia.
Qed.

(** a pass that finds nothing new ends the loop at once *)
Lemma scroll_loop_break (pages : nat -> document) (st : run) :
  (scrollAttempts st <? maxScrollAttempts) = true ->
  snd (loop_body pages st) = Break ->
  scroll_loop pages st = (fst (loop_body pages st), None).
Proof.
  revert st.
  apply (scroll_loop_induction pages (fun st out =>
           (scrollAttempts st <? maxScrollAttempts) = true ->
           snd (loop_body pages st) = Break -> out = (fst (loop_body pages st), None))).
  - intros st Hc Hc'. congruence.
  - intros st st' _ Hbody _ _. now rewrite Hbody.
  - intros st st' message _ Hbody _ Hgo. rewrite Hbody in Hgo. discriminate.
  - intros st st' _ Hbody _ _ Hgo. rewrite Hbody in Hgo. discriminate.
Qed.

Lemma extractItems_covers (d : document) (seen : gset string) :
  covers (snd (extractItems d seen)) d /\ seen ⊆ snd (extractItems d seen).
Proof.
  unfold extractItems, covers.
  destruct (forEach_pass (findWishlistItems d) [] seen) as (new & Hfold & _ & _ & Hcov).
  rewrite Hfold. cbn [snd]. split; [exact Hcov | set_solver].
Qed.

Lemma scroll_loop_covers (pages : nat -> document) (st : run) :
  seenIds st ⊆ seenIds (fst (scroll_loop pages st)) /\
  (forall j, scrolls st < j <= scrolls (fst (scroll_loop pages st)) ->
             covers (seenIds (fst (scroll_loop pages st))) (pages j)) /\
  (snd (scroll_loop pages st) = None ->
   (forall x, x ∈ seenIds st -> x ∈ map asin (items st)) ->
   forall x, x ∈ seenIds (fst (scroll_loop pages st)) ->
             x ∈ map asin (items (fst (scroll_loop pages st)))).
Proof.
  revert st.
  apply (scroll_loop_induction pages (fun st out =>
           seenIds st ⊆ seenIds (fst out) /\
           (forall j, scrolls st < j <= scrolls (fst out) ->
                      covers (seenIds (fst out)) (pages j)) /\
           (snd out = None ->
            (forall x, x ∈ seenIds st -> x ∈ map asin (items st)) ->
            forall x, x ∈ seenIds (fst out) -> x ∈ map asin (items (fst out))))).
  - intros st _. cbn [fst snd]. split; [reflexivity|]. split; [intros j Hj; lia | auto].
  - intros st st' _ Hbody.
    destruct (loop_body_pass pages st) as (new & Hnew & Hseen & Hs & Hcase).
    rewrite Hbody in Hseen, Hs, Hcase. cbn [fst snd] in *.
    destruct (extractItems_covers (pages (S (scrolls st))) (seenIds st)) as [Hcov Hsub].
    rewrite Hnew in Hcov, Hsub. cbn [snd] in Hcov, Hsub. rewrite <- Hseen in Hcov, Hsub.
    split; [exact Hsub|]. split.
    + intros j Hj. assert (j = S (scrolls st)) as -> by lia. exact Hcov.
    + intros _ Hin x Hx.
      destruct Hcase as [(H & _) | [(_ & -> & Hitems) | (H & _)]]; try discriminate.
      rewrite Hitems. rewrite Hseen in Hx. set_solver.
  - intros st st' message _ Hbody.
    destruct (loop_body_pass pages st) as (new & Hnew & Hseen & Hs & _).
    rewrite Hbody in Hseen, Hs. cbn [fst snd] in *.
    destruct (extractItems_covers (pages (S (scrolls st))) (seenIds st)) as [Hcov Hsub].
    rewrite Hnew in Hcov, Hsub. cbn [snd] in Hcov, Hsub. rewrite <- Hseen in Hcov, Hsub.
    split; [exact Hsub|]. split; [|discriminate].
    intros j Hj. assert (j = S (scrolls st)) as -> by lia. exact Hcov.
  - intros st st' _ Hbody (Hsub' & Hcov' & Hin').
    destruct (loop_body_pass pages st) as (new & Hnew & Hseen & Hs & Hcase).
    rewrite Hbody in Hseen, Hs, Hcase. cbn [fst snd] in Hseen, Hs, Hcase.
    destruct (extractItems_covers (pages (S (scrolls st))) (seenIds st)) as [Hcov Hsub].
    rewrite Hnew in Hcov, Hsub. cbn [snd] in Hcov, Hsub. rewrite <- Hseen in Hcov, Hsub.
    split; [set_solver|]. split.
    + intros j Hj. destruct (decide (j = S (scrolls st))) as [-> | Hne].
      * intros e it He Hit. apply Hsub'. exact (Hcov e it He Hit).
      * apply Hcov'. lia.
    + intros Hnone Hin. apply (Hin' Hnone). intros x Hx.
      destruct Hcase as [(_ & _ & Hitems) | [(H & _) | (H & _)]]; try discriminate.
      rewrite Hitems, map_app. rewrite Hseen in Hx. set_solver.
Qed.

Lemma scroll_loop_scrolls_once (pages : nat -> document) (st : run) :
  (scrollAttempts st <? maxScrollAttempts) = true ->
  scrolls st < scrolls (fst (scroll_loop pages st)).
Proof.
  revert st.
  apply (scroll_loop_induction pages (fun st out =>
           (scrollAttempts st <? maxScrollAttempts) = true -> scrolls st < scrolls (fst out))).
  - intros st Hc Hc'. congruence.
  - intros st st' _ Hbody _.
    destruct (loop_body_pass pages st) as (new & _ & _ & Hs & _).
    rewrite Hbody in Hs. cbn [fst] in *. lia.
  - intros st st' message _ Hbody _.
    destruct (loop_body_pass pages st) as (new & _ & _ & Hs & _).
    rewrite Hbody in Hs. cbn [fst] in *. lia.
  - intros st st' _ Hbody _ _.
    destruct (loop_body_pass pages st) as (new & _ & _ & Hs & _).
    rewrite Hbody in Hs. cbn [fst] in Hs.
    destruct (scroll_loop_appends pages st') as [Hge _]. lia.
Qed.

(** X1. On a page that the first scroll leaves as it was, a run that the
    classifier lets start and whose initial extraction the engine can store
    scrolls exactly once and returns exactly the records of the initial
    extraction, in their order; it fails with [NoItemsFound] when there are
    none.  When the initial extraction yields more records than a call
    takes, the run fails with the [RangeError] of the engine before it
    scrolls. *)
Theorem scrapeWishlist_static_page (pages : nat -> document) :
  pages 1 = pages 0 ->
  isWishlistPage (pages 0) = true -> isPrivateWishlist (pages 0) = false ->
  scrapeWishlist pages =
    if crowded (pages 0) then (Throw RangeErrorMessage, 0)
    else (match fst (extractItems (pages 0) ∅) with
          | [] => Throw NoItemsFound
          | _ :: _ => Return (fst (extractItems (pages 0) ∅))
          end, 1).
Proof.
  intros Hsame Hw Hp. rewrite scrapeWishlist_unfold, Hw, Hp. cbn [negb].
  destruct (crowded (pages 0)); [reflexivity|].
  assert (Hfinal : snd (final_run pages) = None /\
                   items (fst (final_run pages)) = fst (extractItems (pages 0) ∅) /\
                   scrolls (fst (final_run pages)) = 1).
  { unfold final_run.
    set (st := Run (fst (extractItems (pages 0) ∅)) (snd (extractItems (pages 0) ∅)) 0 0 0).
    destruct (loop_body_pass pages st) as (new & Hnew & _ & Hs & Hcase).
    cbn [scrolls seenIds st] in Hnew. rewrite Hsame in Hnew.
    rewrite (extractItems_again (pages 0) ∅ _ (reflexivity _)) in Hnew.
    injection Hnew as <- _.
    destruct Hcase as [(_ & H & _) | [(Hgo & _ & Hitems) | (_ & H & _)]];
      [contradiction | | cbn in H; lia].
    rewrite (scroll_loop_break pages st eq_refl Hgo). cbn [fst snd].
    rewrite Hitems, Hs. repeat split. }
  destruct Hfinal as (-> & -> & ->). now destruct (fst (extractItems (pages 0) ∅)).
Qed.

(** X2. The records of the initial extraction come first in the returned
    sequence, in their order: scrolling only appends to them.  The run
    scrolls at least once, and at most once more than the number of records
    that the scrolling has added. *)
Theorem scrapeWishlist_appends (pages : nat -> document) (records : list item) (n : nat) :
  scrapeWishlist pages = (Return records, n) ->
  exists more,
    records = fst (extractItems (pages 0) ∅) ++ more /\
    1 <= n <= length more + 1.
Proof.
  intros Hret. apply scrapeWishlist_returned in Hret as (_ & Hnone & <- & <-).
  unfold final_run in *.
  set (st := Run (fst (extractItems (pages 0) ∅)) (snd (extractItems (pages 0) ∅)) 0 0 0) in *.
  destruct (proj2 (scroll_loop_appends pages st) Hnone) as (more & Hmore & Hle).
  pose proof (scroll_loop_scrolls_once pages st eq_refl) as Hlt.
  exists more. cbn [items scrolls st] in Hmore, Hle, Hlt. split; [exact Hmore | lia].
Qed.

(** X3. Nothing that was seen is lost: on every tree that the run has
    looked at, each located node that yields a record has the identifier of
    that record among the returned records. *)
Theorem scrapeWishlist_complete (pages : nat -> document) (records : list item) (n j : nat) :
  scrapeWishlist pages = (Return records, n) -> j <= n ->
  Forall (fun e => forall it, extractItemData e = Some it -> In (asin it) (map asin records))
         (findWishlistItems (pages j)).
Proof.
  intros Hret Hj. apply scrapeWishlist_returned in Hret as (_ & Hnone & <- & <-).
  apply List.Forall_forall. intros e He it Hit. apply list_elem_of_In.
  unfold final_run in *.
  set (st := Run (fst (extractItems (pages 0) ∅)) (snd (extractItems (pages 0) ∅)) 0 0 0) in *.
  destruct (scroll_loop_covers pages st) as (Hsub & Hcov & Hin).
  destruct (extractItems_new (pages 0) ∅) as (new & Hnew & _ & _).
  apply (Hin Hnone).
  - cbn [seenIds items st]. rewrite Hnew. cbn [fst snd]. set_solver.
  - destruct (decide (j = 0)) as [-> | Hne].
    + apply Hsub. cbn [seenIds st].
      exact (proj1 (extractItems_covers (pages 0) ∅) e it He Hit).
    + refine (Hcov j _ e it He Hit). cbn [scrolls st]. lia.
Qed.

End Passes.

(** ** The fields of a record *)

Lemma trimStart_fixed (c : ascii) (s : string) :
  is_space c = false -> trimStart (String c s) = String c s.
Proof. intros Hc. cbn [trimStart]. now rewrite Hc. Qed.

Lemma trimStart_head (s : string) :
  trimStart s = EmptyString \/ exists c r, trimStart s = String c r /\ is_space c = false.
Proof.
  induction s as [|c s IH]; [left; reflexivity|]. cbn [trimStart].
  destruct (is_space c) eqn:Hc; [exact IH|]. right. exists c, s. split; [reflexivity | exact Hc].
Qed.

Lemma trimEnd_head (c : ascii) (s : string) :
  is_space c = false -> exists r, trimEnd (String c s) = String c r.
Proof.
  intros Hc. cbn [trimEnd]. rewrite Hc. destruct (trimEnd s) as [|x t]; eauto.
Qed.

Lemma trimEnd_idempotent (s : string) : trimEnd (trimEnd s) = trimEnd s.
Proof.
  induction s as [|c s IH]; [reflexivity|]. cbn [trimEnd].
  destruct (trimEnd s) as [|x t] eqn:Ht.
  - destruct (is_space c) eqn:Hc; [reflexivity|]. cbn [trimEnd]. now rewrite Hc.
  - cbn [trimEnd]. cbn [trimEnd] in IH. now rewrite IH.
Qed.

Lemma trim_idempotent (s : string) : trim (trim s) = trim s.
Proof.
  unfold trim. destruct (trimStart_head s) as [-> | (c & r & -> & Hc)]; [reflexivity|].
  destruct (trimEnd_head c r Hc) as [r' Hr]. rewrite Hr, (trimStart_fixed c r' Hc), <- Hr.
  apply trimEnd_idempotent.
Qed.

Lemma trimEnd_length (s : string) : String.length (trimEnd s) <= String.length s.
Proof.
  induction s as [|c s IH]; [reflexivity|]. cbn [trimEnd].
  destruct (trimEnd s) as [|x t]; [destruct (is_space c)|]; cbn [String.length] in *; lia.
Qed.

Lemma trimStart_length (s : string) : String.length (trimStart s) <= String.length s.
Proof.
  induction s as [|c s IH]; [reflexivity|]. cbn [trimStart].
  destruct (is_space c); cbn [String.length]; lia.
Qed.

Lemma trim_length (s : string) : String.length (trim s) <= String.length s.
Proof.
  unfold trim. etransitivity; [apply trimEnd_length | apply trimStart_length].
Qed.

Lemma take_length (n : nat) (s : string) : String.length (take n s) <= n.
Proof.
  revert s. induction n as [|n IH]; intros [|c s]; cbn [take String.length]; try lia.
  specialize (IH s). lia.
Qed.

Lemma first_some_none {A B : Type} (f : A -> option B) (l : list A) :
  (forall a, In a l -> f a = None) -> first_some f l = None.
Proof.
  induction l as [|a l IH]; intros H; [reflexivity|]. cbn [first_some].
  rewrite (H a (or_introl eq_refl)). apply IH. intros b Hb. apply H. now right.
Qed.

Lemma first_some_in {A B : Type} (f : A -> option B) (l : list A) (b : B) :
  first_some f l = Some b -> exists a, In a l /\ f a = Some b.
Proof.
  induction l as [|a l IH]; [discriminate|]. cbn [first_some].
  destruct (f a) as [b'|] eqn:Ha.
  - intros [= <-]. exists a. split; [now left | exact Ha].
  - intros H. destruct (IH H) as (a' & Hin & Ha'). exists a'. split; [now right | exact Ha'].
Qed.

Lemma or_default_cases (a b : string) :
  or_default a b = if String.eqb a EmptyString then b else a.
Proof. unfold or_default, js_or. cbn. now destruct (String.eqb a EmptyString). Qed.

Section Fields.
Context {P : Platform}.

Lemma extractItemName_trimmed (element : HTMLElement) :
  trim (extractItemName element) = extractItemName element.
Proof.
  unfold extractItemName.
  destruct (first_some _ titleSelectors) as [text|] eqn:Hf.
  - apply first_some_in in Hf as (sel & _ & Hsel).
    destruct (querySelector sel element) as [titleEl|]; [|discriminate].
    destruct (0 <? _); [|discriminate]. injection Hsel as <-. apply trim_idempotent.
  - cbv zeta. destruct (50 <? _); [apply trim_idempotent | reflexivity].
Qed.

(** the fields of a record, from the extractors *)
Lemma extractItemData_fields (element : HTMLElement) (item : item) :
  extractItemData element = Some item ->
  name item = or_default (extractItemName element) "Unknown Item" /\
  price item = or_default (extractItemPrice element) "N/A" /\
  url item = or_default (extractItemUrl element) ("https://www.amazon.com/dp/" +:+ asin item) /\
  image item = extractItemImage element.
Proof.
  unfold extractItemData. cbv zeta.
  match goal with |- context [negb (truthy (Some ?a))] =>
    destruct (negb (truthy (Some a))); [discriminate|] end.
  intros [= <-]. cbn [name price url image asin]. repeat split.
  rewrite or_default_cases. now destruct (String.eqb_spec (extractItemImage element) EmptyString).
Qed.

Lemma trim_head (s : string) :
  trim s = EmptyString \/ exists c r, trim s = String c r /\ is_space c = false.
Proof.
  unfold trim. destruct (trimStart_head s) as [-> | (c & r & -> & Hc)]; [left; reflexivity|].
  destruct (trimEnd_head c r Hc) as [r' Hr]. right. exists c, r'. split; assumption.
Qed.

Lemma trim_take_head (n : nat) (c : ascii) (r : string) :
  is_space c = false -> trim (take (S n) (String c r)) <> EmptyString.
Proof.
  intros Hc. change (take (S n) (String c r)) with (String c (take n r)).
  unfold trim. rewrite (trimStart_fixed c _ Hc).
  destruct (trimEnd_head c (take n r) Hc) as [r' ->]. discriminate.
Qed.

(** X4. The name of every record is non-empty and trimmed: it neither
    starts nor ends with white space.  When none of the title patterns
    matches in the node, the name depends on the trimmed text of the node
    alone: a text of more than 50 characters gives its first 200 characters,
    trimmed again, and a shorter one gives the stand-in ['Unknown Item']. *)
Theorem extractItemData_name (element : HTMLElement) (item : item) :
  extractItemData element = Some item ->
  name item <> EmptyString /\
  trim (name item) = name item /\
  ((forall selector, In selector titleSelectors -> querySelector selector element = None) ->
   (50 < String.length (trim (textContent element)) ->
      name item = trim (take 200 (trim (textContent element))) /\
      String.length (name item) <= 200) /\
   (String.length (trim (textContent element)) <= 50 -> name item = "Unknown Item")).
Proof.
  intros Hitem. destruct (extractItemData_fields element item Hitem) as (-> & _).
  rewrite or_default_cases.
  split; [|split].
  - destruct (String.eqb_spec (extractItemName element) EmptyString); [discriminate | assumption].
  - destruct (String.eqb_spec (extractItemName element) EmptyString);
      [reflexivity | apply extractItemName_trimmed].
  - intros Hnone.
    assert (Hname : extractItemName element =
                      if 50 <? String.length (trim (textContent element))
                      then trim (take 200 (trim (textContent element))) else EmptyString).
    { unfold extractItemName. rewrite first_some_none; [reflexivity|].
      intros sel Hsel. now rewrite (Hnone sel Hsel). }
    rewrite Hname. split.
    + intros Hlong. apply Nat.ltb_lt in Hlong as Hlong'. rewrite Hlong'.
      assert (Hne : trim (take 200 (trim (textContent element))) <> EmptyString).
      { destruct (trim_head (textContent element)) as [He | (c & r & He & Hc)];
          [rewrite He in Hlong; cbn in Hlong; lia|].
        rewrite He. exact (trim_take_head 199 c r Hc). }
      destruct (String.eqb_spec (trim (take 200 (trim (textContent element)))) EmptyString);
        [contradiction|].
      split; [reflexivity|]. etransitivity; [apply trim_length | apply take_length].
    + intros Hshort. apply Nat.ltb_ge in Hshort. rewrite Hshort. reflexivity.
Qed.

Lemma absolute_image_not_relative (imageUrl : string) :
  startsWith (absolute_image imageUrl) "/" = false.
Proof.
  unfold absolute_image. destruct (startsWith imageUrl "//"); [reflexivity|].
  destruct (startsWith imageUrl "/") eqn:H; [reflexivity | exact H].
Qed.

Lemma image_of_not_relative (img : HTMLElement) (imageUrl : string) :
  image_of img = Some imageUrl -> startsWith imageUrl "/" = false.
Proof.
  unfold image_of. cbv zeta.
  destruct (truthy (getAttribute "data-a-dynamic-image" img)).
  - destruct (JSON_keys _) as [keys|].
    + destruct (0 <? length keys); [intros [= <-]; apply absolute_image_not_relative|].
      destruct (truthy (getAttribute "data-src" img));
        [intros [= <-]; apply absolute_image_not_relative|].
      destruct (truthy _); [|discriminate].
      destruct (is_placeholder _); [discriminate|].
      intros [= <-]; apply absolute_image_not_relative.
    + destruct (truthy (getAttribute "data-src" img));
        [intros [= <-]; apply absolute_image_not_relative|].
      destruct (truthy _); [|discriminate].
      destruct (is_placeholder _); [discriminate|].
      intros [= <-]; apply absolute_image_not_relative.
  - destruct (truthy (getAttribute "data-src" img));
      [intros [= <-]; apply absolute_image_not_relative|].
    destruct (truthy _); [|discriminate].
    destruct (is_placeholder _); [discriminate|].
    intros [= <-]; apply absolute_image_not_relative.
Qed.

(** X5. The image address that the extractor returns is never
    scheme-relative or root-relative: it does not start with a slash,
    whichever of the image sources it comes from; and so for the image
    field of every record. *)
Theorem extractItemImage_not_relative (element : HTMLElement) :
  startsWith (extractItemImage element) "/" = false /\
  (forall item, extractItemData element = Some item -> startsWith (image item) "/" = false).
Proof.
  assert (H : startsWith (extractItemImage element) "/" = false).
  { unfold extractItemImage.
    destruct (first_some _ imageSelectors) as [imageUrl|] eqn:Hf.
    - apply first_some_in in Hf as (sel & _ & Hsel).
      destruct (querySelector sel element) as [img|]; [|discriminate].
      exact (image_of_not_relative img imageUrl Hsel).
    - destruct (querySelector _ element) as [anyImg|]; [|reflexivity]. cbv zeta.
      destruct (_ && _); [apply absolute_image_not_relative | reflexivity]. }
  split; [exact H|]. intros item Hitem.
  destruct (extractItemData_fields element item Hitem) as (_ & _ & _ & ->). exact H.
Qed.

End Fields.

(** ** Identifiers read from addresses *)

Lemma leftmost_miss (here : string -> option string) (c : ascii) (s : string) :
  here (String c s) = None -> leftmost here (String c s) = leftmost here s.
Proof. intros H. cbn [leftmost]. now rewrite H. Qed.

Lemma leftmost_hit (here : string -> option string) (s m : string) :
  here s = Some m -> leftmost here s = Some m.
Proof. intros H. destruct s; cbn [leftmost]; now rewrite H. Qed.

Lemma take_drop_all (s : string) :
  take (String.length s) s = s /\ drop (String.length s) s = EmptyString.
Proof.
  destruct (take_drop_append s EmptyString) as [Ht Hd].
  rewrite append_empty_r in Ht, Hd. split; assumption.
Qed.

(** the pattern for an identifier accepts every identifier that is followed
    by a delimiter or by nothing *)
Lemma asin_then_accepts (delimiter : ascii -> bool) (code rest : string) :
  is_asin code = true ->
  match rest with EmptyString => true | String c _ => delimiter c end = true ->
  asin_then delimiter (code +:+ rest) = Some code.
Proof.
  intros Hcode Hrest. unfold asin_then.
  assert (Hl : String.length code = 10).
  { unfold is_asin in Hcode. apply andb_true_iff in Hcode as [Hl _]. now apply Nat.eqb_eq. }
  destruct (take_drop_append code rest) as [Ht Hd]. rewrite Hl in Ht, Hd.
  rewrite Ht, Hd, Hcode. destruct rest as [|c rest]; [reflexivity | now rewrite Hrest].
Qed.

Lemma startsWith_ci_empty (s : string) : startsWith_ci s EmptyString = true.
Proof. now destruct s. Qed.

Lemma match_dp_site (code rest : string) :
  is_asin code = true ->
  match rest with EmptyString => true | String c _ => is_path_end c end = true ->
  match_dp ("https://www.amazon.com/dp/" +:+ code +:+ rest) = Some code.
Proof.
  intros Hcode Hrest. unfold match_dp. push_append.
  repeat (rewrite leftmost_miss by reflexivity).
  apply leftmost_hit. unfold dp_here. cbn [startsWith_ci].
  rewrite startsWith_ci_empty. cbn [drop].
  change (asin_then is_path_end (code +:+ rest) = Some code).
  now apply asin_then_accepts.
Qed.

Lemma match_asin_param_is_asin (url m : string) :
  match_asin_param url = Some m -> is_asin m = true.
Proof.
  intros H. apply leftmost_some in H as (b & a & _ & H). unfold asin_param_here in H.
  destruct a as [|c a]; [discriminate|].
  destruct (_ && _); [exact (asin_then_is_asin _ _ _ H) | discriminate].
Qed.

Lemma match_token_canonical (s : string) :
  forall after_word m, match_token_from after_word s = Some m -> canonical m.
Proof.
  induction s as [|c s IH]; intros after_word m; rewrite match_token_from_unfold.
  - destruct (token_here after_word EmptyString) eqn:Ht; [|discriminate].
    intros [= <-]. apply token_here_bare in Ht as (_ & _ & _ & _ & Hc & _). exact Hc.
  - destruct (token_here after_word (String c s)) eqn:Ht.
    + intros [= <-]. apply token_here_bare in Ht as (_ & _ & _ & _ & Hc & _). exact Hc.
    + apply IH.
Qed.

Section StringIdentifiers.
Context {P : Platform}.

(** X6. A product address of the site is read back by [extractASIN]: for
    every identifier of ten letters and digits, in any case, followed by
    nothing or by [/], [?] or [#], the result is the identifier in upper
    case. *)
Theorem extractASIN_site_address (code rest : string) :
  is_asin code = true ->
  match rest with EmptyString => true | String c _ => is_path_end c end = true ->
  extractASIN (inr ("https://www.amazon.com/dp/" +:+ code +:+ rest)) = toUpperCase code /\
  canonical (toUpperCase code).
Proof.
  intros Hcode Hrest. split; [|now apply is_asin_canonical].
  unfold extractASIN, extractASIN_url. now rewrite (match_dp_site code rest Hcode Hrest).
Qed.

(** X7. Given a string, [extractASIN] returns the empty string or an
    identifier of exactly ten upper-case letters and digits, whichever of
    its three patterns matches. *)
Theorem extractASIN_string_shape (url : string) :
  extractASIN (inr url) = EmptyString \/ canonical (extractASIN (inr url)).
Proof.
  unfold extractASIN, extractASIN_url.
  destruct (negb (truthy (Some url))); [left; reflexivity|].
  destruct (match_dp url) as [m|] eqn:Hdp.
  { right. apply is_asin_canonical, (match_dp_is_asin _ _ Hdp). }
  destruct (match_asin_param url) as [m|] eqn:Hparam.
  { right. apply is_asin_canonical, (match_asin_param_is_asin _ _ Hparam). }
  destruct (match_token url) as [m|] eqn:Htok; [|left; reflexivity].
  destruct (_ && _); [|left; reflexivity].
  right. apply match_token_canonical in Htok.
  now rewrite (toUpperCase_canonical m Htok).
Qed.

(** X8. When the extractor finds no product link in a node, the address of
    the record is built from the identifier, and [extractASIN] reads from
    that address the identifier of the record. *)
Theorem extractItemData_default_url (element : HTMLElement) (item : item) :
  extractItemData element = Some item -> extractItemUrl element = EmptyString ->
  url item = "https://www.amazon.com/dp/" +:+ asin item /\
  extractASIN (inr (url item)) = asin item.
Proof.
  intros Hitem Hurl.
  destruct (extractItemData_fields element item Hitem) as (_ & _ & Hu & _).
  rewrite Hurl, or_default_cases in Hu. cbn [String.eqb] in Hu.
  pose proof (extractItemData_asin element) as Ha. rewrite Hitem in Ha. destruct Ha as [Heq Hne].
  destruct (resolved_asin_shape element) as [He | Hc]; [contradiction|]. rewrite <- Heq in Hc.
  split; [exact Hu|]. rewrite Hu, <- (append_empty_r (asin item)) at 1.
  unfold extractASIN, extractASIN_url.
  rewrite (match_dp_site (asin item) EmptyString).
  - apply toUpperCase_canonical, Hc.
  - destruct Hc as [Hl Hu']. unfold is_asin. rewrite Hl. cbn [Nat.eqb andb].
    apply (forall_chars_weaken is_upper_alnum is_alnum); [|exact Hu'].
    intros c Hc. unfold is_alnum, is_upper_alnum in *.
    apply orb_true_iff in Hc as [-> | ->]; [reflexivity | apply orb_true_r].
  - reflexivity.
Qed.

End StringIdentifiers.

(** ** Prices read from text *)

Lemma price_group_none (s : string) :
  forall_chars not_digit_or_comma s = true -> price_group s = None.
Proof.
  intros Hs. unfold price_group. destruct s as [|c s]; [reflexivity|].
  cbn [forall_chars] in Hs. apply andb_true_iff in Hs as [Hc _].
  unfold not_digit_or_comma in Hc. apply negb_true_iff in Hc. cbn [span]. now rewrite Hc.
Qed.

Lemma price_group_some (c : ascii) (s : string) :
  is_digit_or_comma c = true -> exists m, price_group (String c s) = Some m.
Proof.
  intros Hc. unfold price_group. cbn [span]. rewrite Hc.
  destruct (span is_digit_or_comma s) as [whole rest]. cbn [String.eqb].
  destruct rest as [|x rest]; [eauto|].
  assert (Hx : exists m, Some (String c whole +:+ fst (span is_digit (String x rest))) = Some m)
    by eauto.
  each_char x; eauto.
Qed.

Lemma dollar_then_digit (group : string -> option string) (c : ascii) (s : string) :
  is_digit_or_comma c = true -> dollar_then group (String c s) = group (String c s).
Proof. intros Hc. each_char c; try reflexivity; discriminate Hc. Qed.

Lemma dollar_then_none (group : string -> option string) (s : string) :
  (forall t, group t = None) -> dollar_then group s = None.
Proof.
  intros H. destruct s as [|c s]; cbn [dollar_then]; [apply H|].
  assert (Hd : match group s with Some m => Some m | None => group (String c s) end = None)
    by now rewrite !H.
  each_char c; try apply H; exact Hd.
Qed.

Lemma dollar_then_inv (group : string -> option string) (c : ascii) (s m : string) :
  dollar_then group (String c s) = Some m -> group s = Some m \/ group (String c s) = Some m.
Proof.
  assert (Hd : match group s with Some m => Some m | None => group (String c s) end = Some m ->
               group s = Some m \/ group (String c s) = Some m)
    by (destruct (group s); [intros [= <-]; now left | now right]).
  each_char c; try (intros H; now right); exact Hd.
Qed.

Lemma price_group_head (c : ascii) (s : string) :
  is_digit_or_comma c = false -> price_group (String c s) = None.
Proof. intros Hc. unfold price_group. cbn [span]. now rewrite Hc. Qed.

(** the price pattern matches exactly the texts that hold a digit or a
    comma *)
Lemma match_price_none (text : string) :
  match_price text = None <-> forall_chars not_digit_or_comma text = true.
Proof.
  unfold match_price. induction text as [|c text IH].
  - split; reflexivity.
  - cbn [leftmost forall_chars]. unfold not_digit_or_comma at 1.
    destruct (is_digit_or_comma c) eqn:Hc; cbn [negb andb].
    + rewrite (dollar_then_digit price_group c text Hc).
      destruct (price_group_some c text Hc) as [m ->]. split; discriminate.
    + rewrite <- IH.
      destruct (dollar_then price_group (String c text)) as [m|] eqn:Hd; [|reflexivity].
      split; [discriminate|]. intros Hnone. exfalso.
      apply dollar_then_inv in Hd as [Hd | Hd].
      * apply IH in Hnone. rewrite (price_group_none text Hnone) in Hd. discriminate.
      * rewrite (price_group_head c text Hc) in Hd. discriminate.
Qed.

Section PriceText.
Context {P : Platform}.

(** X9. For a price element without a machine-readable price and with
    some text: when the trimmed text holds no digit and no comma it is the
    price, as it stands; when it holds one, the price is the currency symbol
    followed by the amount that the pattern captures, without its commas. *)
Theorem price_of_text (priceEl : HTMLElement) :
  truthy (getAttribute "data-price" priceEl) = false ->
  trim (textContent priceEl) <> EmptyString ->
  (forall_chars not_digit_or_comma (trim (textContent priceEl)) = true ->
     price_of priceEl = Some (trim (textContent priceEl))) /\
  (forall_chars not_digit_or_comma (trim (textContent priceEl)) = false ->
     exists m, match_price (trim (textContent priceEl)) = Some m /\
               price_of priceEl = Some (String "$"%char (replace_char ","%char EmptyString m))).
Proof.
  intros Hdata Htext. unfold price_of. cbv zeta. rewrite Hdata.
  assert (Hlen : (0 <? String.length (trim (textContent priceEl))) = true)
    by (destruct (trim (textContent priceEl)); [contradiction | reflexivity]).
  rewrite Hlen. split.
  - intros Hplain. apply match_price_none in Hplain. now rewrite Hplain.
  - intros Hsome. destruct (match_price (trim (textContent priceEl))) as [m|] eqn:Hm.
    + exists m. split; [reflexivity|]. f_equal.
      destruct (match_price_amount _ m (or_introl Hm)) as [Hne Ha].
      rewrite formatPrice_cases.
      destruct (String.eqb_spec m EmptyString) as [-> | _]; [contradiction|].
      assert (Hno : has_char "$"%char (replace_char ","%char EmptyString m) = false).
      { apply has_char_false. rewrite remove_commas_count by reflexivity.
        apply amount_no_dollar, Ha. }
      now rewrite Hno.
    + apply match_price_none in Hm. congruence.
Qed.

End PriceText.

(** ** The locator and the classifier *)

Lemma node_induction (Q : node -> Prop) :
  (forall s, Q (Text s)) ->
  (forall t ks, Forall Q ks -> Q (Elem t ks)) ->
  forall n, Q n.
Proof.
  intros HT HE.
  refine (fix IH (n : node) : Q n :=
            match n with
            | Text s => HT s
            | Elem t ks =>
                HE t ks ((fix all (l : list node) : Forall Q l :=
                            match l with
                            | [] => @List.Forall_nil node Q
                            | k :: l' => @List.Forall_cons node Q k l' (IH k) (all l')
                            end) ks)
            end).
Qed.

(** An element stands in the list of the elements of a tree with the
    ancestors it has there; every one of its ancestors below the root of the
    tree is in the list too. *)
Lemma elements_of_ancestors (n : node) :
  forall anc e, In e (elements_of anc n) ->
  exists inner, ancestors e = inner ++ anc /\
    forall p1 t ks p2, inner = p1 ++ (t, ks) :: p2 ->
                       In (Element (p2 ++ anc) t ks) (elements_of anc n).
Proof.
  induction n as [s | t ks IH] using node_induction; intros anc e Hin; [destruct Hin|].
  cbn [elements_of] in Hin. destruct Hin as [<- | Hin].
  - exists []. split; [reflexivity|]. intros p1 t' ks' p2 H. destruct p1; discriminate.
  - apply in_flat_map in Hin as (k & Hk & Hin).
    rewrite List.Forall_forall in IH.
    destruct (IH k Hk _ e Hin) as (inner & Hanc & Hclosed).
    exists (inner ++ [(t, ks)]). rewrite <- app_assoc. split; [exact Hanc|].
    intros p1 t' ks' p2 Hsplit. cbn [elements_of].
    destruct (exists_last (l := (t', ks') :: p2)) as (p2' & last & Hlast); [discriminate|].
    rewrite Hlast, app_assoc in Hsplit. apply app_inj_tail in Hsplit as [Hinner <-].
    destruct p2 as [|x p2].
    + destruct p2' as [|y p2']; [|destruct p2'; discriminate].
      injection Hlast as <- <-. left. reflexivity.
    + right. apply in_flat_map. exists k. split; [exact Hk|].
      destruct p2' as [|y p2']; [destruct p2; discriminate|].
      injection Hlast as <- Hp2.
      assert (Hp : x :: p2 = p2' ++ [(t, ks)]) by exact Hp2.
      rewrite Hp, <- app_assoc. apply (Hclosed p1). exact Hinner.
Qed.

(** a compound that holds of some ancestor holds of one of them *)
Lemma matches_up_one (c : compound) (anc : list (start_tag * list node)) :
  matches_up [c] anc = true ->
  exists p1 t ks p2, anc = p1 ++ (t, ks) :: p2 /\ matches_compound c t = true.
Proof.
  induction anc as [|[t ks] anc IH]; [discriminate|]. cbn [matches_up].
  destruct (matches_compound c t) eqn:Hc.
  - intros _. exists [], t, ks, anc. split; [reflexivity | exact Hc].
  - intros H. destruct (IH H) as (p1 & t' & ks' & p2 & -> & Hc').
    exists ((t, ks) :: p1), t', ks', p2. split; [reflexivity | exact Hc'].
Qed.

Lemma matches_up_nil (anc : list (start_tag * list node)) : matches_up [] anc = true.
Proof. now destruct anc. Qed.

Lemma document_elements (d : document) :
  documentElement d :: descendants (documentElement d) =
  elements_of [] (Elem (StartTag "html" (html_attrs d)) (html_children d)).
Proof. reflexivity. Qed.

(** X10. Whenever the first strategy of the locator finds a node, the
    classifier takes the page for a wishlist page, whatever its address:
    the container that the strategy looks into is one of the anchors that
    the classifier looks for.  The collector then never fails with
    [NotAWishlistPage]. *)
Theorem main_container_is_wishlist (d : document) :
  document_querySelectorAll sel_main_container d <> [] ->
  anchor_present d /\ isWishlistPage d = true.
Proof.
  intros Hfound.
  assert (Hanchor : anchor_present d).
  { unfold anchor_present, document_querySelectorAll in *.
    destruct (List.filter (matches sel_main_container) _) as [|e l] eqn:Hf; [contradiction|].
    assert (He : In e (List.filter (matches sel_main_container)
                         (documentElement d :: descendants (documentElement d))))
      by (rewrite Hf; now left).
    apply filter_In in He as [Hin Hm]. rewrite document_elements in Hin.
    destruct (elements_of_ancestors _ [] e Hin) as (inner & Hanc & Hclosed).
    rewrite app_nil_r in Hanc.
    assert (Hup : matches_up [[Id "g-items"]] (ancestors e) = true).
    { unfold matches, sel_main_container in Hm. cbn [existsb] in Hm.
      unfold matches_complex in Hm. cbn [rev app] in Hm.
      rewrite orb_false_r in Hm. apply orb_true_iff in Hm as [Hm | Hm];
        apply andb_true_iff in Hm as [_ Hm]; exact Hm. }
    destruct (matches_up_one _ _ Hup) as (p1 & t & ks & p2 & Hsplit & Hc).
    rewrite Hanc in Hsplit. specialize (Hclosed p1 t ks p2 Hsplit).
    rewrite app_nil_r in Hclosed. rewrite document_elements.
    intros Hnone.
    assert (Hthere : In (Element p2 t ks)
                        (List.filter (matches sel_wishlist_structure)
                           (elements_of [] (Elem (StartTag "html" (html_attrs d)) (html_children d))))).
    { apply filter_In. split; [exact Hclosed|].
      unfold matches, sel_wishlist_structure. cbn [existsb].
      unfold matches_complex at 1. cbn [rev app start ancestors].
      now rewrite Hc, matches_up_nil. }
    rewrite Hnone in Hthere. destruct Hthere. }
  split; [exact Hanchor|]. unfold isWishlistPage. cbv zeta.
  apply anchor_present_query in Hanchor. rewrite Hanchor. apply orb_true_r.
Qed.

(** ** The message listener of the content script *)

Section Listener.
Context {P : Platform}.

Lemma scrapeWishlist_throws (pages : nat -> document) (message : string) :
  fst (scrapeWishlist pages) = Throw message ->
  message = NotAWishlistPage \/ message = PrivateOrInaccessible \/
  message = NoItemsFound \/ message = RangeErrorMessage.
Proof.
  rewrite scrapeWishlist_unfold.
  destruct (isWishlistPage (pages 0)); cbn [negb]; [|intros [= <-]; now left].
  destruct (isPrivateWishlist (pages 0)); [intros [= <-]; right; now left|].
  destruct (crowded (pages 0)); [intros [= <-]; now do 3 right|].
  destruct (snd (final_run pages)) as [raised|] eqn:Hraised.
  - apply scroll_loop_raise in Hraised as ->. intros [= <-]. now do 3 right.
  - destruct (items (fst (final_run pages))); [intros [= <-]; right; right; now left | discriminate].
Qed.

Lemma scrapeWishlist_returns_some (pages : nat -> document) (records : list item) :
  fst (scrapeWishlist pages) = Return records -> records <> [].
Proof.
  rewrite scrapeWishlist_unfold.
  destruct (isWishlistPage (pages 0)); cbn [negb]; [|discriminate].
  destruct (isPrivateWishlist (pages 0)); [discriminate|].
  destruct (crowded (pages 0)); [discriminate|].
  destruct (snd (final_run pages)); [discriminate|].
  destruct (items (fst (final_run pages))); [discriminate | intros [= <-]; discriminate].
Qed.

(** X11. On a scrape request the content script answers with the records
    exactly when the collector returns them, and otherwise with the message
    of the collector's failure, word for word: a response never holds an
    empty list of records, and the stand-in message
    ['Unknown error occurred'] is never sent.  Any other request gets no
    response. *)
Theorem content_onMessage_response (action : string) (pages : nat -> document) :
  (action <> scrapeAction -> content_onMessage action pages = None) /\
  (forall records,
     content_onMessage scrapeAction pages = Some (Success records) <->
     fst (scrapeWishlist pages) = Return records) /\
  (forall error,
     content_onMessage scrapeAction pages = Some (Failure error) <->
     fst (scrapeWishlist pages) = Throw error) /\
  content_onMessage scrapeAction pages <> Some (Success []) /\
  content_onMessage scrapeAction pages <> Some (Failure "Unknown error occurred").
Proof.
  assert (Hfail : forall error,
            content_onMessage scrapeAction pages = Some (Failure error) <->
            fst (scrapeWishlist pages) = Throw error).
  { intros error. unfold content_onMessage. cbn [String.eqb Ascii.eqb Bool.eqb].
    change (String.eqb scrapeAction scrapeAction) with true. cbn iota.
    destruct (fst (scrapeWishlist pages)) as [records | message] eqn:Hs.
    - split; discriminate.
    - assert (Hm : or_default message "Unknown error occurred" = message)
        by (destruct (scrapeWishlist_throws pages message Hs) as [-> | [-> | [-> | ->]]]; reflexivity).
      rewrite Hm. split; intros [= <-]; reflexivity. }
  assert (Hok : forall records,
            content_onMessage scrapeAction pages = Some (Success records) <->
            fst (scrapeWishlist pages) = Return records).
  { intros records. unfold content_onMessage.
    change (String.eqb scrapeAction scrapeAction) with true. cbn iota.
    destruct (fst (scrapeWishlist pages)); split; try discriminate; intros [= <-]; reflexivity. }
  split; [|split; [exact Hok | split; [exact Hfail | split]]].
  - intros Hne. unfold content_onMessage.
    destruct (String.eqb_spec action scrapeAction); [contradiction | reflexivity].
  - intros H. apply Hok in H. now apply scrapeWishlist_returns_some in H.
  - intros H. apply Hfail in H.
    destruct (scrapeWishlist_throws pages _ H) as [H' | [H' | [H' | H']]]; discriminate H'.
Qed.

End Listener.

(** X12. However often the content script is run in a page, the flag in
    the window lets it add its listener once only. *)
Theorem run_content_script_once (n : nat) :
  Nat.iter (S n) run_content_script (Window false 0) = Window true 1 /\
  forall w, run_content_script (run_content_script w) = run_content_script w.
Proof.
  split.
  - induction n as [|n IH]; [reflexivity|].
    change (Nat.iter (S (S n)) run_content_script (Window false 0))
      with (run_content_script (Nat.iter (S n) run_content_script (Window false 0))).
    now rewrite IH.
  - intros [[] k]; reflexivity.
Qed.

(** ** The background script *)

Lemma attemptMessage_step (env : tab_env) (retries attempt : nat) :
  attemptMessage env retries attempt =
    match send env (S attempt) with
    | LastError message =>
        if attempt <? retries
        then after [SetTimeout (if attempt =? 0 then 200 else 100); SendMessage]
                   (attemptMessage env retries (S attempt))
        else (Failure ("Failed to communicate with content script: " +:+ message),
              [SetTimeout (if attempt =? 0 then 200 else 100); SendMessage])
    | Responded response =>
        (response_or_default response,
         [SetTimeout (if attempt =? 0 then 200 else 100); SendMessage])
    end.
Proof.
  funelim (attemptMessage env retries attempt).
  - now rewrite Hsend.
  - now rewrite Hsend, Hretry.
  - now rewrite Hsend, Hretry.
Qed.

Lemma count_sends_cons (e : event) (l : list event) :
  count_sends (e :: l) = match e with SendMessage => 1 | _ => 0 end + count_sends l.
Proof. destruct e; reflexivity. Qed.

Lemma count_injections_cons (e : event) (l : list event) :
  count_injections (e :: l) = match e with ExecuteScript => 1 | _ => 0 end + count_injections l.
Proof. destruct e; reflexivity. Qed.

Lemma total_delay_cons (e : event) (l : list event) :
  total_delay (e :: l) = match e with SetTimeout ms => ms | _ => 0 end + total_delay l.
Proof. reflexivity. Qed.

Ltac count_events :=
  unfold after; cbn [fst snd app];
  rewrite ?count_sends_cons, ?count_injections_cons, ?total_delay_cons.

Lemma attemptMessage_bounds (env : tab_env) (retries : nat) :
  forall left attempt, retries - attempt = left ->
    count_sends (snd (attemptMessage env retries attempt)) <= left + 1 /\
    count_injections (snd (attemptMessage env retries attempt)) = 0 /\
    total_delay (snd (attemptMessage env retries attempt)) <=
      (if attempt =? 0 then 200 else 100) + 100 * left.
Proof.
  induction left as [|left IH]; intros attempt Hleft; rewrite attemptMessage_step;
    destruct (send env (S attempt)) as [message | response];
    try (cbn; destruct (attempt =? 0); cbn; repeat split; lia).
  - assert (Hlt : (attempt <? retries) = false) by (apply Nat.ltb_ge; lia).
    rewrite Hlt. cbn. destruct (attempt =? 0); cbn; repeat split; lia.
  - assert (Hlt : (attempt <? retries) = true) by (apply Nat.ltb_lt; lia).
    rewrite Hlt. destruct (IH (S attempt)) as (Hs & Hi & Hd); [lia|].
    count_events. cbn [Nat.eqb] in Hd. destruct (attempt =? 0); repeat split; lia.
Qed.

Lemma injectAndScrape_effort (env : tab_env) (retries : nat) :
  1 <= count_sends (snd (injectAndScrape env retries)) <= retries + 2 /\
  count_injections (snd (injectAndScrape env retries)) <= 1 /\
  total_delay (snd (injectAndScrape env retries)) <= 200 + 100 * retries.
Proof.
  unfold injectAndScrape.
  destruct (send env 0); [|cbn; repeat split; lia].
  destruct (inject env); [cbn; repeat split; lia|].
  destruct (attemptMessage_bounds env retries (retries - 0) 0 eq_refl) as (Hs & Hi & Hd).
  count_events. cbn [Nat.eqb] in Hd. repeat split; lia.
Qed.

(** X13. [injectAndScrape] always resolves, after at most [retries + 2]
    messages to the tab, at most one injection of the script, and waits of at
    most [200 + 100 * retries] milliseconds in all. *)
Theorem injectAndScrape_bounds (env : tab_env) (retries : nat) :
  1 <= count_sends (snd (injectAndScrape env retries)) <= retries + 2 /\
  count_injections (snd (injectAndScrape env retries)) <= 1 /\
  total_delay (snd (injectAndScrape env retries)) <= 200 + 100 * retries.
Proof. exact (injectAndScrape_effort env retries). Qed.

Lemma retry_events_succ (k : nat) :
  retry_events (S k) = SetTimeout 100 :: SendMessage :: retry_events k.
Proof. reflexivity. Qed.

(** the attempts from one after the first on: [k] of them fail, the next is
    answered *)
Lemma attemptMessage_answered (env : tab_env) (retries : nat) (r : option response) :
  forall k attempt, 1 <= attempt -> attempt + k <= retries ->
    (forall a, attempt <= a < attempt + k -> exists message, send env (S a) = LastError message) ->
    send env (S (attempt + k)) = Responded r ->
    attemptMessage env retries attempt = (response_or_default r, retry_events (S k)).
Proof.
  induction k as [|k IH]; intros attempt Hpos Hle Hfail Hans; rewrite attemptMessage_step.
  - rewrite Nat.add_0_r in Hans. rewrite Hans.
    destruct attempt; [lia | reflexivity].
  - destruct (Hfail attempt) as [message ->]; [lia|].
    assert (Hlt : (attempt <? retries) = true) by (apply Nat.ltb_lt; lia).
    rewrite Hlt, (IH (S attempt)); try lia.
    + destruct attempt; [lia | reflexivity].
    + intros a Ha. apply Hfail. lia.
    + now rewrite <- Hans, Nat.add_succ_r.
Qed.

(** the attempts from one after the first on, all failing *)
Lemma attemptMessage_exhausted (env : tab_env) (retries : nat) (last : string) :
  send env (S retries) = LastError last ->
  forall left attempt, retries - attempt = left -> 1 <= attempt <= retries ->
    (forall a, attempt <= a <= retries -> exists message, send env (S a) = LastError message) ->
    attemptMessage env retries attempt =
      (Failure ("Failed to communicate with content script: " +:+ last), retry_events (S left)).
Proof.
  intros Hlast. induction left as [|left IH]; intros attempt Hleft Hpos Hfail;
    rewrite attemptMessage_step.
  - assert (attempt = retries) as -> by lia. rewrite Hlast, Nat.ltb_irrefl.
    destruct retries; [lia | reflexivity].
  - destruct (Hfail attempt) as [message ->]; [lia|].
    assert (Hlt : (attempt <? retries) = true) by (apply Nat.ltb_lt; lia).
    rewrite Hlt, (IH (S attempt)); try lia.
    + destruct attempt; [lia | reflexivity].
    + intros a Ha. apply Hfail. lia.
Qed.

(** X14. When the content script is not loaded and its injection
    succeeds, [injectAndScrape] resolves with the first answer among the
    attempts that follow: after [k] failed attempts, [k] at most [retries],
    it resolves with that answer, having waited 200 ms before the first
    attempt and 100 ms before each later one. *)
Theorem injectAndScrape_first_answer (env : tab_env) (retries k : nat)
    (first : string) (r : option response) :
  send env 0 = LastError first -> inject env = None ->
  k <= retries -> attempts_fail env k -> send env (S k) = Responded r ->
  injectAndScrape env retries =
    (response_or_default r,
     [SendMessage; ExecuteScript; SetTimeout 200; SendMessage] ++ retry_events k) /\
  total_delay (snd (injectAndScrape env retries)) = 200 + 100 * k.
Proof.
  intros Hfirst Hinject Hk Hfail Hans.
  assert (Hrun : injectAndScrape env retries =
            (response_or_default r,
             [SendMessage; ExecuteScript; SetTimeout 200; SendMessage] ++ retry_events k)).
  { unfold injectAndScrape. rewrite Hfirst, Hinject, attemptMessage_step.
    destruct k as [|k].
    - now rewrite Hans.
    - destruct (Hfail 0) as [message ->]; [lia|].
      assert (Hlt : (0 <? retries) = true) by (apply Nat.ltb_lt; lia).
      rewrite Hlt, (attemptMessage_answered env retries r k 1); try lia; try reflexivity.
      + intros a Ha. apply Hfail. lia.
      + exact Hans. }
  split; [exact Hrun|]. rewrite Hrun. count_events.
  assert (Hk' : total_delay (retry_events k) = 100 * k).
  { clear. induction k as [|k IH]; [reflexivity|].
    rewrite retry_events_succ, !total_delay_cons, IH. lia. }
  lia.
Qed.

(** X15. When the content script is not loaded, its injection succeeds and
    every attempt fails, [injectAndScrape] gives up after [retries + 1]
    attempts and resolves with a communication failure that carries the
    message of the last error; when the injection itself fails, it resolves
    with the injection failure without any further message. *)
Theorem injectAndScrape_gives_up (env : tab_env) (retries : nat) (first : string) :
  send env 0 = LastError first ->
  (forall last, inject env = None -> attempts_fail env retries ->
     send env (S retries) = LastError last ->
     injectAndScrape env retries =
       (Failure ("Failed to communicate with content script: " +:+ last),
        [SendMessage; ExecuteScript; SetTimeout 200; SendMessage] ++ retry_events retries)) /\
  (forall message, inject env = Some message ->
     injectAndScrape env retries =
       (Failure ("Failed to inject content script: " +:+ message),
        [SendMessage; ExecuteScript])).
Proof.
  intros Hfirst. split.
  - intros last Hinject Hfail Hlast.
    unfold injectAndScrape. rewrite Hfirst, Hinject, attemptMessage_step.
    destruct retries as [|retries].
    + now rewrite Hlast.
    + destruct (Hfail 0) as [message ->]; [lia|]. cbn [Nat.ltb Nat.leb].
      rewrite (attemptMessage_exhausted env (S retries) last Hlast retries 1); try lia.
      * reflexivity.
      * intros a Ha. destruct (decide (a = S retries)) as [-> | Hne]; [eauto|].
        apply Hfail. lia.
  - intros message Hinject. unfold injectAndScrape. now rewrite Hfirst, Hinject.
Qed.

Lemma count_sends_nonempty (events : list event) : 1 <= count_sends events -> events <> [].
Proof. destruct events; [cbn; lia | discriminate]. Qed.

Lemma gate_condition (t : tab) :
  negb (truthy (tab_url t)) || negb (includes (str (tab_url t)) "amazon.com") =
  negb (on_amazon t).
Proof. unfold on_amazon. now rewrite negb_andb. Qed.

(** X16. The background script answers every scrape request with exactly
    one response, and it touches the tab only when there is an active tab
    whose address holds [amazon.com]; it then sends at most five messages,
    injects the script at most once and waits at most half a second. *)
Theorem background_onMessage_gate (tabs : list tab) (env : tab_env) :
  exists r events,
    background_onMessage scrapeAction tabs env = Some (r, events) /\
    (events <> [] <-> exists t rest, tabs = t :: rest /\ on_amazon t = true) /\
    (events = [] ->
       r = Failure "No active tab found" \/
       r = Failure "Please navigate to an Amazon wishlist page") /\
    count_sends events <= 5 /\ count_injections events <= 1 /\ total_delay events <= 500.
Proof.
  unfold background_onMessage. change (String.eqb scrapeAction scrapeAction) with true. cbn iota.
  destruct tabs as [|t rest].
  - exists (Failure "No active tab found"), []. split; [reflexivity|].
    split; [split; [congruence | intros (t & rest & H & _); discriminate]|].
    split; [now left | cbn; lia].
  - rewrite gate_condition. destruct (on_amazon t) eqn:Hgate; cbn [negb].
    + destruct (injectAndScrape env 3) as [r events] eqn:Hrun.
      pose proof (injectAndScrape_effort env 3) as (Hs & Hi & Hd). rewrite Hrun in Hs, Hi, Hd.
      cbn [snd] in Hs, Hi, Hd. exists r, events. split; [reflexivity|].
      split; [split; [intros _; now exists t, rest | intros _; apply count_sends_nonempty; lia]|].
      split; [intros ->; cbn in Hs; lia | lia].
    + exists (Failure "Please navigate to an Amazon wishlist page"), [].
      split; [reflexivity|].
      split; [split; [congruence | intros (t' & rest' & [= <- <-] & H); congruence]|].
      split; [now right | cbn; lia].
Qed.

Section Relay.
Context {P : Platform}.

(** X17. When the content script is loaded in the active tab of the site,
    a scrape request to the background script is answered with one message
    to the tab and nothing else, by the records that the collector returns
    or by the message of its failure, as it stands. *)
Theorem scrape_request_relayed (pages : nat -> document) (t : tab) (rest : list tab) :
  on_amazon t = true ->
  background_onMessage scrapeAction (t :: rest) (loaded_env pages) =
    Some (match fst (scrapeWishlist pages) with
          | Return records => Success records
          | Throw message => Failure message
          end, [SendMessage]).
Proof.
  intros Hgate. unfold background_onMessage.
  change (String.eqb scrapeAction scrapeAction) with true. cbn iota.
  rewrite gate_condition, Hgate. cbn [negb].
  unfold injectAndScrape, loaded_env, content_onMessage. cbn [send].
  change (String.eqb scrapeAction scrapeAction) with true. cbn iota.
  destruct (fst (scrapeWishlist pages)) as [records | message] eqn:Hs; [reflexivity|].
  cbn [response_or_default].
  destruct (scrapeWishlist_throws pages message Hs) as [-> | [-> | [-> | ->]]]; reflexivity.
Qed.

End Relay.

(** ** The popup *)

Lemma append_length (a b : string) :
  String.length (a +:+ b) = String.length a + String.length b.
Proof. induction a as [|c a IH]; [reflexivity|]. rewrite append_cons. cbn. now rewrite IH. Qed.

Lemma take_length_exact (n : nat) (s : string) :
  n <= String.length s -> String.length (take n s) = n.
Proof.
  revert s. induction n as [|n IH]; intros [|c s] H; cbn [take String.length] in *; try lia.
  now rewrite IH by lia.
Qed.

(** X18. The row of a record shows its name: a name of at most 50
    characters as it is, a longer one cut to its first 50 characters
    followed by three points, and ['Unknown'] for the empty name; the title
    of the cell is the name in full, or ['Unknown'].  The name cell never
    holds more than 53 characters. *)
Theorem display_row_name (item : item) :
  nameTitle (display_row item) =
    (if String.eqb (name item) EmptyString then "Unknown" else name item) /\
  (name item = EmptyString -> nameCell (display_row item) = "Unknown") /\
  (name item <> EmptyString -> String.length (name item) <= 50 ->
     nameCell (display_row item) = name item) /\
  (50 < String.length (name item) ->
     nameCell (display_row item) = take 50 (name item) +:+ "...") /\
  String.length (nameCell (display_row item)) <= 53.
Proof.
  unfold display_row. cbv zeta. cbn [nameCell nameTitle].
  rewrite or_default_cases. unfold display_name.
  split; [reflexivity|].
  destruct (String.eqb_spec (name item) EmptyString) as [He | Hne].
  - rewrite He. cbn [String.length]. repeat split; try reflexivity; try contradiction; cbn; lia.
  - split; [contradiction|].
    destruct (Nat.ltb_spec 50 (String.length (name item))) as [Hlong | Hshort].
    + split; [lia|]. split; [reflexivity|].
      rewrite append_length. pose proof (take_length 50 (name item)).
      change (String.length "...") with 3. lia.
    + split; [reflexivity|]. split; [lia | lia].
Qed.

(** the popup after [handleScrape] keeps records only from a successful
    answer *)
Lemma handleScrape_items (tabs : list tab) (answer : send_result) (p : popup) :
  scrapedItems (handleScrape tabs answer p) =
    match tabs, answer with
    | t :: _, Responded (Some (Success items)) => if on_amazon t then items else []
    | _, _ => []
    end.
Proof.
  unfold handleScrape. cbv zeta. destruct tabs as [|t rest]; [reflexivity|].
  rewrite gate_condition.
  destruct (on_amazon t), answer as [message | [[[|first items] | error]|]]; reflexivity.
Qed.

(** X19. After a scrape, the CSV export of the popup writes a file exactly
    when the scrape was answered with a non-empty list of records, and the
    file then holds those records: records of an earlier scrape are never
    exported after a failed one.  The export is never asked to write an
    empty collection, so its notice is never shown from the popup. *)
Theorem export_after_scrape (today : string) (tabs : list tab) (answer : send_result) (p : popup) :
  (forall effect,
     snd (handleExportCSV today (handleScrape tabs answer p)) = Some effect ->
     exists t rest items,
       tabs = t :: rest /\ on_amazon t = true /\
       answer = Responded (Some (Success items)) /\ items <> [] /\
       effect = Download "text/csv;charset=utf-8;" ("amazon-wishlist-" +:+ today +:+ ".csv")
                         (csvContent items)) /\
  (forall t rest items,
     tabs = t :: rest -> on_amazon t = true ->
     answer = Responded (Some (Success items)) -> items <> [] ->
     snd (handleExportCSV today (handleScrape tabs answer p)) =
       Some (Download "text/csv;charset=utf-8;" ("amazon-wishlist-" +:+ today +:+ ".csv")
                      (csvContent items))) /\
  (forall q message, snd (handleExportCSV today q) <> Some (Alert message)).
Proof.
  assert (Hexport : forall q,
            snd (handleExportCSV today q) =
              match scrapedItems q with
              | [] => None
              | _ :: _ => Some (Download "text/csv;charset=utf-8;"
                                  ("amazon-wishlist-" +:+ today +:+ ".csv")
                                  (csvContent (scrapedItems q)))
              end).
  { intros q. unfold handleExportCSV, exportToCSV. now destruct (scrapedItems q). }
  split; [|split].
  - intros effect. rewrite Hexport, handleScrape_items.
    destruct tabs as [|t rest]; [discriminate|].
    destruct answer as [message | [[items | error]|]]; try discriminate.
    destruct (on_amazon t) eqn:Hgate; [|discriminate].
    destruct items as [|first items]; [discriminate|]. intros [= <-].
    exists t, rest, (first :: items).
    split; [reflexivity|]. split; [exact Hgate|]. split; [reflexivity|].
    split; [discriminate | reflexivity].
  - intros t rest items -> Hgate -> Hne. rewrite Hexport, handleScrape_items, Hgate.
    destruct items; [contradiction | reflexivity].
  - intros q message. rewrite Hexport. destruct (scrapedItems q); discriminate.
Qed.

Lemma startsWith_ci_of_startsWith (s p : string) :
  startsWith s p = true -> startsWith_ci s p = true.
Proof.
  unfold startsWith. revert s. induction p as [|a p IH]; intros s H; [now destruct s|].
  destruct s as [|b s]; [discriminate|]. cbn [String.prefix] in H. cbn [startsWith_ci].
  destruct (ascii_dec a b) as [<- | Hne]; [|discriminate].
  now rewrite Ascii.eqb_refl, (IH s H).
Qed.

Lemma includes_ci_of_includes (s needle : string) :
  includes s needle = true -> includes_ci s needle = true.
Proof.
  induction s as [|c s IH]; cbn [includes includes_ci]; intros H;
    apply orb_true_iff in H as [H | H]; try discriminate.
  - now rewrite (startsWith_ci_of_startsWith _ _ H).
  - now rewrite (startsWith_ci_of_startsWith _ _ H).
  - rewrite (IH H). apply orb_true_r.
Qed.

(** X20. An address on which the popup leaves its scrape button enabled
    passes every later check made on the address: that of [handleScrape] and
    of the background script, and, for a page at that address, that of the
    content script's classifier. *)
Theorem popup_init_gate (url : string) (p : popup) :
  url <> EmptyString -> scrapeDisabled p = false ->
  scrapeDisabled (popup_init [Tab (Some url)] p) = false ->
  on_amazon (Tab (Some url)) = true /\
  (forall env, background_onMessage scrapeAction [Tab (Some url)] env =
               Some (injectAndScrape env 3)) /\
  (forall d, location_href d = url -> isWishlistPage d = true).
Proof.
  intros Hurl Hp. unfold popup_init. cbn [tab_url str default].
  assert (Ht : truthy (Some url) = true)
    by (destruct (truthy (Some url)) eqn:Ht; [reflexivity | apply truthy_nonempty in Ht; contradiction]).
  rewrite Ht. cbv zeta. change (id url) with url.
  destruct (includes url "amazon.com") eqn:Ha; cbn [negb orb scrapeDisabled];
    [|intros H; discriminate H].
  destruct (includes url "wishlist") eqn:Hw; cbn [negb scrapeDisabled];
    [|intros H; discriminate H]. intros _.
  assert (Hgate : on_amazon (Tab (Some url)) = true)
    by (unfold on_amazon; cbn [tab_url str default]; change (id url) with url; now rewrite Ht, Ha).
  split; [exact Hgate|]. split.
  - intros env. unfold background_onMessage.
    change (String.eqb scrapeAction scrapeAction) with true. cbn iota.
    now rewrite gate_condition, Hgate.
  - intros d Hd. unfold isWishlistPage. cbv zeta.
    now rewrite Hd, (includes_ci_of_includes url "wishlist" Hw).
Qed.

(** X21. However a scrape ends, [handleScrape] leaves the button enabled
    with its label restored.  When the tab passes the check and the answer
    holds a non-empty list of records, the popup keeps them, the table is
    shown with one row for each record, in their order, and the status is a
    success; in every other case the popup keeps no records, the table stays
    hidden and the status is an error. *)
Theorem handleScrape_outcome (tabs : list tab) (answer : send_result) (p : popup) :
  scrapeDisabled (handleScrape tabs answer p) = false /\
  scrapeLabel (handleScrape tabs answer p) = "Scrape Wishlist" /\
  (forall t rest items,
     tabs = t :: rest -> on_amazon t = true ->
     answer = Responded (Some (Success items)) -> items <> [] ->
     scrapedItems (handleScrape tabs answer p) = items /\
     rows (handleScrape tabs answer p) = map display_row items /\
     resultsHidden (handleScrape tabs answer p) = false /\
     snd (status (handleScrape tabs answer p)) = StatusSuccess) /\
  (~ (exists t rest items,
        tabs = t :: rest /\ on_amazon t = true /\
        answer = Responded (Some (Success items)) /\ items <> []) ->
     scrapedItems (handleScrape tabs answer p) = [] /\
     resultsHidden (handleScrape tabs answer p) = true /\
     snd (status (handleScrape tabs answer p)) = StatusError).
Proof.
  unfold handleScrape. cbv zeta. destruct tabs as [|t rest].
  - split; [reflexivity|]. split; [reflexivity|]. split; [discriminate|].
    intros _. repeat split.
  - rewrite gate_condition. destruct (on_amazon t) eqn:Hgate; cbn [negb].
    + destruct answer as [message | [[[|first items] | error]|]];
        (split; [reflexivity|]); (split; [reflexivity|]).
      * split; [discriminate | intros _; repeat split].
      * split; [intros ? ? ? _ _ [= <-] H; contradiction | intros _; repeat split].
      * split; [intros ? ? ? _ _ [= <-] _; repeat split|].
        intros Hnot. exfalso. apply Hnot. exists t, rest, (first :: items).
        split; [reflexivity|]. split; [exact Hgate|]. split; [reflexivity | discriminate].
      * split; [discriminate | intros _; repeat split].
      * split; [discriminate | intros _; repeat split].
    + split; [reflexivity|]. split; [reflexivity|].
      split; [intros ? ? ? [= <- <-] H; congruence | intros _; repeat split].
Qed.

(** ** The locator as a catch-all *)

Lemma product_card_matches (e : HTMLElement) :
  truthy (getAttribute "data-asin" e) = true -> matches sel_product_cards e = true.
Proof.
  unfold getAttribute, matches, sel_product_cards, matches_complex. cbn [existsb rev app].
  unfold matches_compound. cbn [forallb matches_simple].
  destruct (attribute "data-asin" (start e)) as [v|]; [|discriminate].
  cbn [truthy]. intros ->. now rewrite matches_up_nil.
Qed.

(** X22. The last strategy makes the locator a catch-all: as soon as any
    element of the page carries a non-empty [data-asin] attribute, the
    locator finds at least one node, and the page is never judged private,
    whatever its text says. *)
Theorem product_card_found (d : document) (e : HTMLElement) :
  In e (documentElement d :: descendants (documentElement d)) ->
  truthy (getAttribute "data-asin" e) = true ->
  findWishlistItems d <> [] /\ isPrivateWishlist d = false.
Proof.
  intros Hin Hattr.
  assert (Hfound : findWishlistItems d <> []).
  { assert (Hcard : In e (document_querySelectorAll sel_product_cards d))
      by (apply filter_In; split; [exact Hin | exact (product_card_matches e Hattr)]).
    unfold findWishlistItems. cbv zeta. rewrite !nonempty_length.
    destruct (document_querySelectorAll sel_main_container d); [|discriminate]. cbn [nonempty].
    destruct (document_querySelectorAll sel_alternative_container d); [|discriminate].
    cbn [nonempty].
    destruct (document_querySelectorAll sel_grid_items d); [|discriminate]. cbn [nonempty].
    destruct (document_querySelectorAll sel_product_cards d); [destruct Hcard | discriminate]. }
  split; [exact Hfound|].
  unfold isPrivateWishlist. cbv zeta. rewrite nonempty_length.
  destruct (findWishlistItems d); [contradiction | reflexivity].
Qed.

(** ** A page that shows more entries than a call takes *)

Lemma prefixed_length (alphabet : list ascii) (l : list string) :
  length (prefixed alphabet l) = length alphabet * length l.
Proof.
  unfold prefixed. induction alphabet as [|c alphabet IH]; [reflexivity|].
  cbn [flat_map length Nat.mul]. now rewrite length_app, length_map, IH.
Qed.

Lemma prefixed_In (alphabet : list ascii) (l : list string) (x : string) :
  In x (prefixed alphabet l) <-> exists c s, x = String c s /\ In c alphabet /\ In s l.
Proof.
  unfold prefixed. rewrite in_flat_map. split.
  - intros (c & Hc & Hx). apply in_map_iff in Hx as (s & <- & Hs). now exists c, s.
  - intros (c & s & -> & Hc & Hs). exists c. split; [exact Hc|]. apply in_map_iff. now exists s.
Qed.

Lemma map_NoDup_inj {A B : Type} (f : A -> B) (l : list A) :
  (forall x y, f x = f y -> x = y) -> List.NoDup l -> List.NoDup (map f l).
Proof.
  intros Hinj Hl. induction Hl as [|x l Hx Hl IH]; cbn [map]; constructor; [|exact IH].
  intros Hin. apply in_map_iff in Hin as (y & Hy & Hin). apply Hinj in Hy as ->. contradiction.
Qed.

Lemma prefixed_NoDup (alphabet : list ascii) (l : list string) :
  List.NoDup alphabet -> List.NoDup l -> List.NoDup (prefixed alphabet l).
Proof.
  intros Ha Hl. induction Ha as [|c alphabet Hc Ha IH]; [constructor|].
  change (prefixed (c :: alphabet) l) with (map (String c) l ++ prefixed alphabet l).
  apply NoDup_ListNoDup, NoDup_app. split; [|split].
  - apply NoDup_ListNoDup. apply map_NoDup_inj; [|exact Hl].
    intros s t [= ->]. reflexivity.
  - intros x Hx Hx'. apply list_elem_of_In in Hx, Hx'.
    apply in_map_iff in Hx as (s & <- & _).
    apply prefixed_In in Hx' as (c' & s' & [= <- _] & Hc' & _). contradiction.
  - apply NoDup_ListNoDup, IH.
Qed.

Lemma prefixed_shape (k : nat) (alphabet : list ascii) (l : list string) :
  forallb is_upper_alnum alphabet = true -> List.Forall (code_shape k) l ->
  List.Forall (code_shape (S k)) (prefixed alphabet l).
Proof.
  intros Ha Hl. apply List.Forall_forall. intros x Hx.
  apply prefixed_In in Hx as (c & s & -> & Hc & Hs).
  rewrite forallb_forall in Ha. rewrite List.Forall_forall in Hl.
  destruct (Hl s Hs) as [Hlen Hchars]. split; cbn; [now rewrite Hlen|].
  now rewrite (Ha c Hc), Hchars.
Qed.

Lemma crowd_codes_length : N.of_nat (length crowd_codes) = 130000%N.
Proof.
  unfold crowd_codes. rewrite length_map, !prefixed_length, !Nat2N.inj_mul. reflexivity.
Qed.

Lemma crowd_codes_NoDup : List.NoDup crowd_codes.
Proof.
  unfold crowd_codes. apply map_NoDup_inj.
  - intros s t H. now injection H.
  - assert (Ha : List.NoDup (digit_chars ++ ["A"; "B"; "C"]%char)).
    { cbn [digit_chars app].
      repeat (constructor;
              [cbn [In]; intros H; repeat (destruct H as [H | H]; [discriminate H|]); exact H|]).
      constructor. }
    assert (Hd : List.NoDup digit_chars).
    { unfold digit_chars.
      repeat (constructor;
              [cbn [In]; intros H; repeat (destruct H as [H | H]; [discriminate H|]); exact H|]).
      constructor. }
    repeat (apply prefixed_NoDup; [assumption|]).
    constructor; [intros [] | constructor].
Qed.

Lemma crowd_codes_canonical : List.Forall canonical crowd_codes.
Proof.
  unfold crowd_codes. apply List.Forall_forall. intros x Hx.
  apply in_map_iff in Hx as (s & <- & Hs).
  assert (Hshape : code_shape 5 s).
  { revert s Hs. apply List.Forall_forall.
    do 5 (apply prefixed_shape; [reflexivity|]).
    constructor; [split; reflexivity | constructor]. }
  destruct Hshape as [Hlen Hchars].
  change (String.append "B0000" s)
    with (String "B" (String "0" (String "0" (String "0" (String "0" s))))).
  split.
  - cbn [String.length]. now rewrite Hlen.
  - cbn [forall_chars]. exact Hchars.
Qed.

Lemma canonical_is_asin (s : string) : canonical s -> is_asin s = true.
Proof.
  intros [Hlen Hchars]. unfold is_asin. rewrite Hlen. cbn [Nat.eqb andb].
  apply (forall_chars_weaken is_upper_alnum); [|exact Hchars].
  intros c Hc. unfold is_upper_alnum in Hc. unfold is_alnum.
  apply orb_true_iff in Hc as [-> | ->]; [reflexivity | apply orb_true_r].
Qed.

Lemma filter_all {A : Type} (f : A -> bool) (l : list A) :
  (forall x, In x l -> f x = true) -> List.filter f l = l.
Proof.
  induction l as [|x l IH]; intros H; [reflexivity|]. cbn [List.filter].
  rewrite (H x (or_introl eq_refl)), IH; [reflexivity|]. intros y Hy. apply H. now right.
Qed.

Lemma crowd_entries_elements (anc : list (start_tag * list node)) (codes : list string) :
  flat_map (elements_of anc) (map crowd_entry codes) =
  map (fun code => Element anc (StartTag "li" [("data-item-id", code); ("data-asin", code)]) [])
      codes.
Proof. induction codes as [|c codes IH]; [reflexivity|]. cbn. now rewrite IH. Qed.

(** the first strategy of the locator finds every entry of such a page *)
Lemma list_page_items (codes : list string) :
  codes <> [] -> findWishlistItems (list_page codes) = map (crowd_element codes) codes.
Proof.
  intros Hne.
  assert (Hfirst : document_querySelectorAll sel_main_container (list_page codes) =
                   map (crowd_element codes) codes).
  { unfold document_querySelectorAll, descendants, documentElement, list_page, page, html_children.
    cbn [html_attrs head_nodes body_attrs body_nodes location_href start childNodes ancestors
         flat_map elements_of el app].
    rewrite crowd_entries_elements, !app_nil_r.
    cbn [List.filter].
    repeat match goal with
           | |- context [matches sel_main_container (Element ?a ?t ?k)] =>
               change (matches sel_main_container (Element a t k)) with false; cbv iota
           end.
    apply filter_all. intros e He. apply in_map_iff in He as (c & <- & _). reflexivity. }
  unfold findWishlistItems. cbv zeta. rewrite Hfirst, nonempty_length.
  destruct codes; [contradiction | reflexivity].
Qed.

Section Crowd.
Context {P : Platform}.

Lemma crowd_element_asin (codes : list string) (code : string) :
  canonical code ->
  exists item, extractItemData (crowd_element codes code) = Some item /\ asin item = code.
Proof.
  intros Hcode.
  assert (Hne : truthy (Some code) = true).
  { destruct (truthy (Some code)) eqn:Ht; [reflexivity|]. apply truthy_nonempty in Ht.
    destruct Hcode as [Hlen _]. rewrite Ht in Hlen. discriminate. }
  assert (Hasin : extractASINFromElement (crowd_element codes code) = code).
  { unfold extractASINFromElement. cbv zeta.
    change (getAttribute "data-asin" (crowd_element codes code)) with (Some code).
    rewrite !(js_or_truthy (Some code) _ Hne), Hne. cbn [str default].
    change (id code) with code.
    rewrite (canonical_is_asin code Hcode). cbn [andb].
    apply toUpperCase_canonical, Hcode. }
  pose proof (extractItemData_asin (crowd_element codes code)) as Hitem.
  unfold resolved_asin in Hitem. rewrite Hasin, Hne in Hitem.
  destruct (extractItemData (crowd_element codes code)) as [item|].
  - exists item. split; [reflexivity | exact (proj1 Hitem)].
  - rewrite Hitem in Hne. discriminate.
Qed.

(** a pass over nodes that yield records of pairwise distinct identifiers,
    none of them seen, stores one record for each node *)
Lemma forEach_count (key : HTMLElement -> string) (l : list HTMLElement) :
  forall (acc : list item) (seen : gset string),
  (forall e, In e l -> exists item, extractItemData e = Some item /\ asin item = key e) ->
  List.NoDup (map key l) -> (forall e, In e l -> key e ∉ seen) ->
  length (fst (fold_left forEach_body l (acc, seen))) = length acc + length l.
Proof.
  induction l as [|e l IH]; intros acc seen Hitem Hnd Hfresh; [cbn; lia|].
  cbn [fold_left]. unfold forEach_body at 2.
  destruct (Hitem e (or_introl eq_refl)) as (item & He & Hkey). rewrite He.
  rewrite (extractItemData_asin_truthy _ _ He), Hkey.
  rewrite (bool_decide_eq_false_2 _ (Hfresh e (or_introl eq_refl))). cbn [andb negb].
  inversion Hnd as [|? ? Hnotin Hnd']; subst.
  rewrite IH.
  - rewrite length_app. cbn [length]. lia.
  - intros e' He'. apply Hitem. now right.
  - exact Hnd'.
  - intros e' He'. apply not_elem_of_union. split; [|apply Hfresh; now right].
    apply not_elem_of_singleton. intros Heq. apply Hnotin. rewrite <- Heq.
    apply in_map. exact He'.
Qed.

Lemma list_page_extractItems (codes : list string) :
  codes <> [] -> List.Forall canonical codes -> List.NoDup codes ->
  length (fst (extractItems (list_page codes) ∅)) = length codes.
Proof.
  intros Hne Hcodes Hnd. unfold extractItems. cbv zeta. rewrite (list_page_items codes Hne).
  assert (Hkey : map (fun e => str (getAttribute "data-asin" e)) (map (crowd_element codes) codes)
                 = codes).
  { rewrite map_map. cbn. apply map_id. }
  rewrite (forEach_count (fun e => str (getAttribute "data-asin" e))).
  - cbn [length]. now rewrite length_map.
  - intros e He. apply in_map_iff in He as (c & <- & Hc).
    rewrite List.Forall_forall in Hcodes. exact (crowd_element_asin codes c (Hcodes c Hc)).
  - rewrite Hkey. exact Hnd.
  - intros e _. apply not_elem_of_empty.
Qed.

(** C3, at a wishlist that shows 130000 entries at once.  The page is a
    wishlist page and is not private, and its entries yield 130000 records of
    distinct identifiers; wherever a call takes fewer arguments than that,
    the run ends neither with the records nor with one of its three
    failures: storing the initial extraction throws the [RangeError] of the
    engine, before anything is scrolled. *)
Theorem scrapeWishlist_crowded_page :
  (max_arguments < 130000)%N ->
  isWishlistPage crowded_page = true /\ isPrivateWishlist crowded_page = false /\
  N.of_nat (length (fst (extractItems crowded_page ∅))) = 130000%N /\
  scrapeWishlist (fun _ => crowded_page) = (Throw RangeErrorMessage, 0) /\
  RangeErrorMessage <> NotAWishlistPage /\
  RangeErrorMessage <> PrivateOrInaccessible /\
  RangeErrorMessage <> NoItemsFound.
Proof.
  intros Hlimit.
  assert (Hne : crowd_codes <> []).
  { intros H. pose proof crowd_codes_length as Hl. rewrite H in Hl. discriminate. }
  assert (Hw : isWishlistPage crowded_page = true).
  { unfold isWishlistPage. cbv zeta.
    change (includes_ci (location_href crowded_page) "wishlist") with true. reflexivity. }
  assert (Hp : isPrivateWishlist crowded_page = false).
  { unfold isPrivateWishlist. cbv zeta. unfold crowded_page.
    rewrite (list_page_items crowd_codes Hne), nonempty_length.
    destruct crowd_codes; [contradiction | reflexivity]. }
  assert (Hcount : N.of_nat (length (fst (extractItems crowded_page ∅))) = 130000%N).
  { unfold crowded_page.
    rewrite (list_page_extractItems crowd_codes Hne crowd_codes_canonical crowd_codes_NoDup).
    exact crowd_codes_length. }
  split; [exact Hw|]. split; [exact Hp|]. split; [exact Hcount|].
  split; [|repeat split; discriminate].
  rewrite scrapeWishlist_unfold, Hw, Hp. cbn [negb].
  unfold crowded. rewrite Hcount. apply N.ltb_lt in Hlimit. now rewrite Hlimit.
Qed.

End Crowd.

(** * Further examples *)

Section FurtherExamples.
#[local] Existing Instance example_platform.

(** X1 on Scenario A. *)
Lemma scrapeWishlist_static_page_scenario_A :
  scrapeWishlist static_pages = (Return scenario_A_records, 1).
Proof.
  etransitivity.
  - apply (scrapeWishlist_static_page static_pages eq_refl); vm_compute; reflexivity.
  - vm_compute. reflexivity.
Defined.

(** X2 on the page that grows with every scroll: one record at first, ten
    more appended by ten scrolls. *)
Lemma scrapeWishlist_appends_growing :
  exists more,
    growing_records = fst (extractItems (growing_pages 0) ∅) ++ more /\
    1 <= 10 <= length more + 1.
Proof.
  apply (scrapeWishlist_appends growing_pages growing_records 10). vm_compute. reflexivity.
Defined.

(** X3 on the same run, for the tree after the last scroll. *)
Lemma scrapeWishlist_complete_growing :
  Forall (fun e => forall it, extractItemData e = Some it ->
                              In (asin it) (map asin growing_records))
         (findWishlistItems (growing_pages 10)).
Proof.
  apply (scrapeWishlist_complete growing_pages growing_records 10 10);
    [vm_compute; reflexivity | lia].
Defined.

(** X4 on an entry that has only text. *)
Lemma extractItemData_name_text_entry :
  name (Item "A reading lamp with a brass foot and a linen shade, 40 cm" "B000000004" "N/A"
             "https://www.amazon.com/dp/B000000004" EmptyString) =
    trim (take 200 (trim (textContent text_entry))) /\
  String.length "A reading lamp with a brass foot and a linen shade, 40 cm" <= 200.
Proof.
  refine (proj1 (proj2 (proj2 (extractItemData_name text_entry
            (Item "A reading lamp with a brass foot and a linen shade, 40 cm" "B000000004" "N/A"
                  "https://www.amazon.com/dp/B000000004" EmptyString) _)) _) _).
  - vm_compute. reflexivity.
  - intros selector Hin. cbn in Hin.
    repeat (destruct Hin as [<- | Hin]; [vm_compute; reflexivity|]). destruct Hin.
  - apply Nat.ltb_lt. vm_compute. reflexivity.
Defined.

(** X6 on a product address with a code in lower case and a query. *)
Lemma extractASIN_site_address_lower :
  extractASIN (inr "https://www.amazon.com/dp/b000000002/?tag=wl") = "B000000002".
Proof. exact (proj1 (extractASIN_site_address "b000000002" "/?tag=wl" eq_refl eq_refl)). Defined.

(** X8 on the grid entry, which holds no link. *)
Lemma extractItemData_default_url_grid_entry :
  extractASIN (inr "https://www.amazon.com/dp/B000000000") = "B000000000".
Proof.
  refine (proj2 (extractItemData_default_url grid_entry
                   (Item "Unknown Item" "B000000000" "N/A"
                         "https://www.amazon.com/dp/B000000000" EmptyString) _ _));
    vm_compute; reflexivity.
Defined.

(** X9 on a price given as an amount in words, and on one given as a
    word. *)
Lemma price_of_text_elements :
  price_of free_text_element = Some "Free" /\
  price_of price_text_element = Some "$1299.50".
Proof.
  split.
  - apply (proj1 (price_of_text free_text_element eq_refl
                    ltac:(vm_compute; discriminate))).
    vm_compute. reflexivity.
  - destruct (proj2 (price_of_text price_text_element eq_refl
                       ltac:(vm_compute; discriminate)) eq_refl) as (m & Hm & Hprice).
    vm_compute in Hm. injection Hm as <-. exact Hprice.
Defined.

(** X10 on the list of Scenario A under the address of the cart. *)
Lemma main_container_is_wishlist_cart :
  includes_ci (location_href cart_page_with_list) "wishlist" = false /\
  isWishlistPage cart_page_with_list = true.
Proof.
  split; [vm_compute; reflexivity|].
  apply (main_container_is_wishlist cart_page_with_list). vm_compute. discriminate.
Defined.

(** X14 on a tab that answers the second attempt after the injection. *)
Lemma injectAndScrape_first_answer_slow :
  injectAndScrape slow_env 3 =
    (Success scenario_A_records,
     [SendMessage; ExecuteScript; SetTimeout 200; SendMessage; SetTimeout 100; SendMessage]) /\
  total_delay (snd (injectAndScrape slow_env 3)) = 300.
Proof.
  apply (injectAndScrape_first_answer slow_env 3 1 no_receiver
           (Some (Success scenario_A_records)) eq_refl eq_refl); [lia | | reflexivity].
  intros a Ha. exists no_receiver. destruct a as [|a]; [reflexivity | lia].
Defined.

(** X15 on a tab that never answers, and on one that refuses the
    injection. *)
Lemma injectAndScrape_gives_up_dead :
  fst (injectAndScrape dead_env 3) =
    Failure ("Failed to communicate with content script: " +:+ no_receiver) /\
  count_sends (snd (injectAndScrape dead_env 3)) = 5 /\
  injectAndScrape blocked_env 3 =
    (Failure "Failed to inject content script: Cannot access contents of the page",
     [SendMessage; ExecuteScript]).
Proof.
  split; [|split].
  - rewrite (proj1 (injectAndScrape_gives_up dead_env 3 no_receiver eq_refl) no_receiver eq_refl
               (fun a _ => ex_intro _ no_receiver eq_refl) eq_refl).
    reflexivity.
  - vm_compute. reflexivity.
  - exact (proj2 (injectAndScrape_gives_up blocked_env 3 no_receiver eq_refl)
             "Cannot access contents of the page" eq_refl).
Defined.

(** X17 on Scenario A. *)
Lemma scrape_request_relayed_scenario_A :
  background_onMessage scrapeAction [wishlist_tab] (loaded_env static_pages) =
    Some (Success scenario_A_records, [SendMessage]).
Proof.
  etransitivity.
  - apply (scrape_request_relayed static_pages wishlist_tab []). vm_compute. reflexivity.
  - vm_compute. reflexivity.
Defined.

(** X20 on the address of a wishlist. *)
Lemma popup_init_gate_wishlist :
  scrapeDisabled (popup_init [wishlist_tab] idle_popup) = false /\
  on_amazon wishlist_tab = true /\
  isWishlistPage (page wishlist_url []) = true.
Proof.
  assert (H : scrapeDisabled (popup_init [wishlist_tab] idle_popup) = false)
    by (vm_compute; reflexivity).
  split; [exact H|].
  destruct (popup_init_gate wishlist_url idle_popup ltac:(discriminate) eq_refl H)
    as (Hgate & _ & Hpage).
  split; [exact Hgate | exact (Hpage (page wishlist_url []) eq_refl)].
Defined.

(** X22 on a page that shows a private phrase beside a product card. *)
Lemma product_card_found_card_page :
  includes (textContent (document_body card_page)) "This list is private" = true /\
  findWishlistItems card_page <> [] /\ isPrivateWishlist card_page = false.
Proof.
  split; [vm_compute; reflexivity|].
  apply (product_card_found card_page card); [|vm_compute; reflexivity].
  vm_compute. do 4 right. left. reflexivity.
Defined.

(** C3 on the browser of the examples, whose calls take 125000
    arguments. *)
Lemma scrapeWishlist_crowded_page_example :
  (max_arguments (Platform := example_platform) < 130000)%N /\
  scrapeWishlist (fun _ => crowded_page) = (Throw RangeErrorMessage, 0).
Proof.
  split; [reflexivity|].
  exact (proj1 (proj2 (proj2 (proj2
           (scrapeWishlist_crowded_page (P := example_platform) eq_refl))))).
Defined.

End FurtherExamples.

